(** * syndicatealpha: the coordinated-buy detection engine of [src/index.js]

    A shallow embedding of the [WalletTracker] class: the endpoint pool and
    the retrying caller, the per-subscriber settings objects, the transaction
    classifier, the signal aggregator, the wallet poller and the webhook
    handler, with the properties the specification states about them.

    Conventions.
    - JavaScript numbers that carry money (SOL amounts, token amounts,
      thresholds) are rationals [Q], each the value of a double; divisions,
      differences and sums of them round as binary64 does ([Double]), and
      comparisons are exact.  Counters and indices are [nat], lamports and
      epoch times are [Z].
    - A JavaScript [Map] whose iteration order is observed is an association
      list in insertion order; keyed stores that are only looked up, inserted
      into and deleted from are [gmap]s.
    - [console.log] lines are not modelled; messages to the chat front-end
      are not modelled either, except the alert hand-off. *)

From Stdlib Require Import QArith Qminmax Lqa Qround Qpower.
From stdpp Require Import gmap strings list fin_maps pretty.

(** [s.includes(sub)] *)
Definition includes (s sub : string) : bool :=
  match String.index 0 sub s with Some _ => true | None => false end.

(** * Arithmetic of JavaScript numbers *)

(** Division, subtraction and addition of IEEE 754 binary64 numbers,
    rounding to nearest with ties to even, on the rationals the numbers stand
    for.  The exponent range is not modelled: the amounts of the engine
    (lamport balances, which are below [2 ^ 64], token amounts and SOL
    totals) stay far inside it. *)
Module Double.

(** [floor (log2 x)], for positive [x] *)
Definition ilog2 (x : Q) : Z :=
  let e := (Z.log2 (Qnum x) - Z.log2 (Z.pos (Qden x)))%Z in
  if Qle_bool (2 ^ e) x then e else (e - 1)%Z.

(** The integer nearest to [x], the even one of two *)
Definition round_half_even (x : Q) : Z :=
  let f := Qfloor x in
  match (x - inject_Z f ?= 1 # 2)%Q with
  | Lt => f
  | Gt => (f + 1)%Z
  | Eq => if Z.even f then f else (f + 1)%Z
  end.

(** The nearest number with a significand of 53 bits, for positive [x] *)
Definition round_pos (x : Q) : Q :=
  let q := (ilog2 x - 52)%Z in
  (inject_Z (round_half_even (x / 2 ^ q)) * 2 ^ q)%Q.

(** The double nearest to [x] *)
Definition round (x : Q) : Q :=
  match (x ?= 0)%Q with
  | Gt => round_pos x
  | Lt => (- round_pos (- x))%Q
  | Eq => 0%Q
  end.

(** [x / y] *)
Definition div (x y : Q) : Q := round (x / y).

(** [x - y] *)
Definition sub (x y : Q) : Q := round (x - y).

(** [x + y] *)
Definition add (x y : Q) : Q := round (x + y).

End Double.

(** * EndpointPool and RetryingCaller *)
Module Rpc.

(** A web3.js [Connection], observed through the endpoint it was built for. *)
Record Connection := { rpcEndpoint : string }.

(** [this.rpcStats]; [lastRotation], a [Date.now()] stamp that is written on
    rotation and read nowhere, is left out. *)
Record rpc_stats := {
  rateLimitCount : nat;
  totalRequests : nat;
  totalRotations : nat
}.

(** The fields of the tracker the resilience layer works on, and the log of
    the delays it slept ([setTimeout] arguments, oldest first). *)
Record pool := {
  rpcEndpoints : list string;
  currentRpcIndex : nat;
  connection : Connection;
  rpcStats : rpc_stats;
  sleeps : list Z
}.

(** A thrown value, as far as the caller inspects it. *)
Record js_error := {
  error_toString : string;
  error_message : option string
}.

(** How an awaited call ends. *)
Inductive outcome (A : Type) :=
  | Returned (a : A)
  | Threw (e : js_error).
Arguments Returned {A} a.
Arguments Threw {A} e.

Definition isRateLimit (e : js_error) : bool :=
  includes (error_toString e) "429"
  || includes (error_toString e) "rate limit"
  || match error_message e with
     | Some m => includes m "429"
     | None => false
     end.

(** [this.rpcStats.totalRequests++] *)
Definition count_request (p : pool) : pool :=
  {| rpcEndpoints := rpcEndpoints p;
     currentRpcIndex := currentRpcIndex p;
     connection := connection p;
     rpcStats := {| rateLimitCount := rateLimitCount (rpcStats p);
                    totalRequests := S (totalRequests (rpcStats p));
                    totalRotations := totalRotations (rpcStats p) |};
     sleeps := sleeps p |}.

(** [this.rpcStats.rateLimitCount++] *)
Definition count_rate_limit (p : pool) : pool :=
  {| rpcEndpoints := rpcEndpoints p;
     currentRpcIndex := currentRpcIndex p;
     connection := connection p;
     rpcStats := {| rateLimitCount := S (rateLimitCount (rpcStats p));
                    totalRequests := totalRequests (rpcStats p);
                    totalRotations := totalRotations (rpcStats p) |};
     sleeps := sleeps p |}.

(** [await new Promise(resolve => setTimeout(resolve, delay))] *)
Definition sleep (delay : Z) (p : pool) : pool :=
  {| rpcEndpoints := rpcEndpoints p;
     currentRpcIndex := currentRpcIndex p;
     connection := connection p;
     rpcStats := rpcStats p;
     sleeps := sleeps p ++ [delay] |}.

Section Caller.

(** [new Connection(url, ...)] of web3.js throws on an endpoint it does not
    accept; [valid_endpoint] says which ones it accepts. *)
Variable valid_endpoint : string → bool.

Definition new_Connection (url : string) : option Connection :=
  if valid_endpoint url then Some {| rpcEndpoint := url |} else None.

(** [rotateRpcEndpoint()].  The method returns [this.connection], which is
    the [connection] of the resulting state on both paths.  The pool is
    non-empty (the constructor throws otherwise), so the new index always
    names an endpoint. *)
Definition rotateRpcEndpoint (p : pool) : pool :=
  let i := (currentRpcIndex p + 1) mod length (rpcEndpoints p) in
  match rpcEndpoints p !! i with
  | None =>
      {| rpcEndpoints := rpcEndpoints p; currentRpcIndex := i;
         connection := connection p; rpcStats := rpcStats p;
         sleeps := sleeps p |}
  | Some newEndpoint =>
      match new_Connection newEndpoint with
      | Some c =>
          {| rpcEndpoints := rpcEndpoints p;
             currentRpcIndex := i;
             connection := c;
             rpcStats :=
               {| rateLimitCount := 0;
                  totalRequests := totalRequests (rpcStats p);
                  totalRotations := totalRotations (rpcStats p) + 1 |};
             sleeps := sleeps p |}
      | None =>
          (* catch: the old connection stays, the counters are untouched *)
          {| rpcEndpoints := rpcEndpoints p; currentRpcIndex := i;
             connection := connection p; rpcStats := rpcStats p;
             sleeps := sleeps p |}
      end
  end.

Section Call.
Context {A : Type}.

(** [apiFunction]: an upstream call.  Its result may depend on the connection
    that is active when it runs and on how many attempts of this call came
    before it. *)
Variable apiFunction : nat → Connection → outcome A.
Variable maxRetries : nat.

(** The [while (retries <= maxRetries)] loop; [fuel] bounds the number of
    iterations.  Leaving the loop by its condition falls off the end of the
    method, which then resolves to [undefined]: [Returned None]. *)
Fixpoint backoff_loop (fuel retries : nat) (p : pool)
    : outcome (option A) * pool :=
  match fuel with
  | O => (Returned None, p)
  | S fuel' =>
      if retries <=? maxRetries then
        let p := count_request p in
        match apiFunction retries (connection p) with
        | Returned a => (Returned (Some a), p)
        | Threw error =>
            if isRateLimit error && (retries <? maxRetries) then
              let p := count_rate_limit p in
              let delay := Z.min (1000 * 2 ^ Z.of_nat retries) 10000 in
              let p := sleep delay p in
              let retries := S retries in
              let p :=
                if 3 <=? rateLimitCount (rpcStats p)
                then rotateRpcEndpoint p else p in
              backoff_loop fuel' retries p
            else (Threw error, p)
        end
      else (Returned None, p)
  end.

(** [callWithBackoff(apiFunction, maxRetries)]: every iteration that does not
    leave the loop increments [retries], so [maxRetries + 1] iterations are
    all there can be. *)
Definition callWithBackoff (p : pool) : outcome (option A) * pool :=
  backoff_loop (S maxRetries) 0 p.

End Call.
End Caller.

End Rpc.

(** * The tracker: subscribers, classifier, aggregator, poller *)
Module Engine.

(** ** Objects shared by reference

    Settings objects hold references to [Map]s, an array and a plain object.
    Those live in a store of objects indexed by location, so that two
    settings objects holding the same location see each other's writes. *)
Definition loc := nat.

(** An entry of [settings.userWallets]. *)
Record user_wallet := {
  uw_address : string;
  uw_privateKey : string;
  uw_label : string;
  uw_created : Z
}.

Inductive object :=
  | JsMap (entries : gmap string string)
  | JsArray (items : list user_wallet)
  | JsObject (props : gmap string Z).

(** A settings object: [defaultSettings] and the values of [userSettings]. *)
Record settings := {
  solThreshold : Q;
  requiredWallets : Z;
  wallets : loc;
  isPaused : bool;
  lastProcessedSignatures : loc;
  userWallets : loc;
  monitoringStartTimes : loc
}.

(** ** Transactions as the chain query interface returns them *)
Record ui_token_amount := { uiAmount : option Q }.

Record token_balance := {
  owner : option string;
  mint : string;
  uiTokenAmount : option ui_token_amount
}.

(** [meta.preBalances] and [meta.postBalances]: the lamport balances of the
    accounts of the transaction, the fee payer first, as the integers the
    numbers of the client stand for.  Every transaction has a fee payer, so
    they are never empty. *)
Record balances := { balance0 : Z; balances_rest : list Z }.

Record tx_meta := {
  preBalances : option balances;
  postBalances : option balances;
  preTokenBalances : option (list token_balance);
  postTokenBalances : option (list token_balance)
}.

Record transaction := { meta : option tx_meta }.

(** An entry of [getSignaturesForAddress]. *)
Record sig_info := { signature : string; blockTime : option Z }.

(** What the classifier returns: the buy signal.  The enrichment fields
    besides the display name are not read by the engine and are left out. *)
Record token_info := {
  tokenAddress : string;
  tokenName : string;
  tokenAmount : Q;
  solAmount : Q
}.

(** A value of [recentTransactions]: [buyers] in insertion order. *)
Record window := {
  buyers : list (string * Q);
  timestamp : Z;
  firstSeen : Z
}.

(** What [setInterval] keeps of the polling closure. *)
Record poll_task := {
  task_address : string;
  task_chatId : Z;
  task_monitoringStartTime : Z
}.

(** Effects in program order. *)
Inductive event :=
  | EvCursor (chatId : Z) (address sig : string)
  | EvGetTransaction (sig : string)
  | EvAlert (chatId : Z) (tokenAddress tokenName : string)
            (buyersMap : list (string * Q)) (totalSolSpentOnToken : Q).

(** Whether an effect is a write of a cursor. *)
Definition writes_cursor (e : event) : bool :=
  match e with
  | EvCursor _ _ _ => true
  | _ => false
  end.

Record tracker := {
  heap : gmap loc object;
  userSettings : gmap Z settings;
  recentTransactions : gmap string window;
  monitoringIntervals : gmap string nat;
  intervals : gmap nat poll_task;
  trace : list event
}.

Definition set_heap (f : gmap loc object → gmap loc object) (t : tracker) :=
  {| heap := f (heap t); userSettings := userSettings t;
     recentTransactions := recentTransactions t;
     monitoringIntervals := monitoringIntervals t;
     intervals := intervals t; trace := trace t |}.

Definition set_userSettings (f : gmap Z settings → gmap Z settings) (t : tracker) :=
  {| heap := heap t; userSettings := f (userSettings t);
     recentTransactions := recentTransactions t;
     monitoringIntervals := monitoringIntervals t;
     intervals := intervals t; trace := trace t |}.

Definition set_recentTransactions
    (f : gmap string window → gmap string window) (t : tracker) :=
  {| heap := heap t; userSettings := userSettings t;
     recentTransactions := f (recentTransactions t);
     monitoringIntervals := monitoringIntervals t;
     intervals := intervals t; trace := trace t |}.

Definition set_monitoringIntervals
    (f : gmap string nat → gmap string nat) (t : tracker) :=
  {| heap := heap t; userSettings := userSettings t;
     recentTransactions := recentTransactions t;
     monitoringIntervals := f (monitoringIntervals t);
     intervals := intervals t; trace := trace t |}.

Definition set_intervals
    (f : gmap nat poll_task → gmap nat poll_task) (t : tracker) :=
  {| heap := heap t; userSettings := userSettings t;
     recentTransactions := recentTransactions t;
     monitoringIntervals := monitoringIntervals t;
     intervals := f (intervals t); trace := trace t |}.

Definition emit (e : event) (t : tracker) :=
  {| heap := heap t; userSettings := userSettings t;
     recentTransactions := recentTransactions t;
     monitoringIntervals := monitoringIntervals t;
     intervals := intervals t; trace := trace t ++ [e] |}.

(** Methods run in a state monad over the tracker. *)
Definition M (A : Type) : Type := tracker → A * tracker.

#[global] Instance M_ret : MRet M := λ A a t, (a, t).
#[global] Instance M_bind : MBind M :=
  λ A B f m t, let '(a, t') := m t in f a t'.

Definition gets {A} (f : tracker → A) : M A := λ t, (f t, t).
Definition modify (f : tracker → tracker) : M unit := λ t, ((), f t).

Fixpoint forM_ {A} (l : list A) (f : A → M unit) : M unit :=
  match l with
  | [] => mret ()
  | x :: l => f x;; forM_ l f
  end.

(** ** Reads and writes through a location *)

(** [m.get(k)] *)
Definition map_get (l : loc) (k : string) (h : gmap loc object) : option string :=
  match h !! l with
  | Some (JsMap m) => m !! k
  | _ => None
  end.

(** [m.set(k, v)] *)
Definition map_set (l : loc) (k v : string) (h : gmap loc object) : gmap loc object :=
  match h !! l with
  | Some (JsMap m) => <[l := JsMap (<[k := v]> m)]> h
  | _ => h
  end.

(** [m.delete(k)] *)
Definition map_delete (l : loc) (k : string) (h : gmap loc object) : gmap loc object :=
  match h !! l with
  | Some (JsMap m) => <[l := JsMap (delete k m)]> h
  | _ => h
  end.

(** [o[k]] *)
Definition object_get (l : loc) (k : string) (h : gmap loc object) : option Z :=
  match h !! l with
  | Some (JsObject o) => o !! k
  | _ => None
  end.

(** [o[k] = v] *)
Definition object_set (l : loc) (k : string) (v : Z) (h : gmap loc object) : gmap loc object :=
  match h !! l with
  | Some (JsObject o) => <[l := JsObject (<[k := v]> o)]> h
  | _ => h
  end.

(** The items of an array. *)
Definition array_items (l : loc) (h : gmap loc object) : list user_wallet :=
  match h !! l with
  | Some (JsArray a) => a
  | _ => []
  end.

(** [a.push(x)] *)
Definition array_push (l : loc) (x : user_wallet) (h : gmap loc object) : gmap loc object :=
  match h !! l with
  | Some (JsArray a) => <[l := JsArray (a ++ [x])]> h
  | _ => h
  end.

(** ** Construction and per-subscriber settings *)

(** [this.defaultSettings]: its four objects are the first four of the
    store.  No method assigns to its fields. *)
Definition defaultSettings : settings :=
  {| solThreshold := 1 # 2;
     requiredWallets := 3;
     wallets := 0;
     isPaused := false;
     lastProcessedSignatures := 1;
     userWallets := 2;
     monitoringStartTimes := 3 |}.

(** The state variables after the constructor ran. *)
Definition new_WalletTracker : tracker :=
  {| heap := <[0 := JsMap ∅]> (<[1 := JsMap ∅]> (<[2 := JsArray []]>
               (<[3 := JsObject ∅]> ∅)));
     userSettings := ∅;
     recentTransactions := ∅;
     monitoringIntervals := ∅;
     intervals := ∅;
     trace := [] |}.

(** [getUserSettings(chatId)]: the spread copies the fields of
    [defaultSettings], references included; only [wallets] is a new map. *)
Definition getUserSettings (chatId : Z) : M settings := λ t,
  match userSettings t !! chatId with
  | Some s => (s, t)
  | None =>
      let l := fresh (dom (heap t)) in
      let s :=
        {| solThreshold := solThreshold defaultSettings;
           requiredWallets := requiredWallets defaultSettings;
           wallets := l;
           isPaused := isPaused defaultSettings;
           lastProcessedSignatures := lastProcessedSignatures defaultSettings;
           userWallets := userWallets defaultSettings;
           monitoringStartTimes := monitoringStartTimes defaultSettings |} in
      (s, set_userSettings (insert chatId s) (set_heap (insert l (JsMap ∅)) t))
  end.

(** [`${chatId}:${suffix}`], the key of [monitoringIntervals] and of
    [recentTransactions]. *)
Definition key_of (chatId : Z) (suffix : string) : string :=
  pretty chatId +:+ ":" +:+ suffix.

(** ** Front-end commands that write the settings *)

Definition update_settings (chatId : Z) (f : settings → settings) : M unit :=
  modify (set_userSettings (λ us,
    match us !! chatId with
    | Some s => <[chatId := f s]> us
    | None => us
    end)).

(** [setThreshold(msg, threshold)]; [threshold] is the argument after
    [parseFloat], [None] standing for [NaN]. *)
Definition setThreshold (chatId : Z) (threshold : option Q) : M unit :=
  _ ← getUserSettings chatId;
  match threshold with
  | Some newThreshold =>
      if Qle_bool newThreshold 0 then mret ()
      else update_settings chatId (λ s,
        {| solThreshold := newThreshold;
           requiredWallets := requiredWallets s; wallets := wallets s;
           isPaused := isPaused s;
           lastProcessedSignatures := lastProcessedSignatures s;
           userWallets := userWallets s;
           monitoringStartTimes := monitoringStartTimes s |})
  | None => mret ()
  end.

(** [setWalletCount(msg, count)]; [count] is the argument after [parseInt]. *)
Definition setWalletCount (chatId : Z) (count : option Z) : M unit :=
  _ ← getUserSettings chatId;
  match count with
  | Some newCount =>
      if (newCount <=? 0)%Z then mret ()
      else update_settings chatId (λ s,
        {| solThreshold := solThreshold s;
           requiredWallets := newCount; wallets := wallets s;
           isPaused := isPaused s;
           lastProcessedSignatures := lastProcessedSignatures s;
           userWallets := userWallets s;
           monitoringStartTimes := monitoringStartTimes s |})
  | None => mret ()
  end.

(** [pauseMonitoring(msg)] *)
Definition pauseMonitoring (chatId : Z) : M unit :=
  _ ← getUserSettings chatId;
  update_settings chatId (λ s,
    {| solThreshold := solThreshold s;
       requiredWallets := requiredWallets s; wallets := wallets s;
       isPaused := true;
       lastProcessedSignatures := lastProcessedSignatures s;
       userWallets := userWallets s;
       monitoringStartTimes := monitoringStartTimes s |}).

(** [handleCreateWallet(msg)]: [publicKey] and [privateKey] are what
    [Keypair.generate()] gave, [now] is [Date.now()].  The guard
    [!userSettings.userWallets] never fires: the field holds a reference. *)
Definition handleCreateWallet (chatId : Z) (publicKey privateKey : string)
    (now : Z) : M unit :=
  userSettings ← getUserSettings chatId;
  items ← gets (λ t, array_items (userWallets userSettings) (heap t));
  let walletName := "Wallet " +:+ pretty (length items + 1) in
  modify (set_heap (array_push (userWallets userSettings)
    {| uw_address := publicKey; uw_privateKey := privateKey;
       uw_label := walletName; uw_created := now |})).

(** ** Starting and stopping a wallet poller *)

(** [clearInterval(handle)] *)
Definition clearInterval (handle : nat) : M unit :=
  modify (set_intervals (delete handle)).

(** [setInterval(task, 30000)]: a handle no running interval has. *)
Definition setInterval (task : poll_task) : M nat := λ t,
  let handle := fresh (dom (intervals t)) in
  (handle, set_intervals (insert handle task) t).

(** [settings.lastProcessedSignatures.set(address, sig)] *)
Definition set_cursor (chatId : Z) (settings : settings) (address sig : string)
    : M unit :=
  modify (set_heap (map_set (lastProcessedSignatures settings) address sig));;
  modify (emit (EvCursor chatId address sig)).

(** How the awaited calls of a start end: the first [bot.sendMessage]
    rejects; or it resolves and [new PublicKey(address)] throws; or both
    succeed and [getSignaturesForAddress(pubkey, {limit: 1})] resolves to
    [initialSigs], [None] when it threw. *)
Inductive start_run :=
  | SendMessageThrew
  | PublicKeyThrew
  | Fetched (initialSigs : option (list sig_info)).

(** [startMonitoringWallet(address, chatId)].  [now] is [Date.now()].  A
    throw of [bot.sendMessage] or of [new PublicKey] leaves the [try]: what
    follows it is skipped, what was done before it stays.  The [||]
    defaults on [monitoringStartTimes] and [lastProcessedSignatures] never
    fire: both fields hold references.  The messages sent once the interval
    is registered, and in the [catch], change no state. *)
Definition startMonitoringWallet (address : string) (chatId : Z) (now : Z)
    (run : start_run) : M unit :=
  let key := key_of chatId address in
  running ← gets (λ t, monitoringIntervals t !! key);
  match running with
  | Some handle =>
      clearInterval handle;; modify (set_monitoringIntervals (delete key))
  | None => mret ()
  end;;
  settings ← getUserSettings chatId;
  let monitoringStartTime := (now `div` 1000)%Z in
  let record_start :=
    modify (set_heap
      (object_set (monitoringStartTimes settings) address monitoringStartTime)) in
  match run with
  | SendMessageThrew => mret ()
  | PublicKeyThrew => record_start
  | Fetched initialSigs =>
      record_start;;
      match initialSigs with
      | Some (sig :: _) => set_cursor chatId settings address (signature sig)
      | _ => mret ()
      end;;
      interval ← setInterval
        {| task_address := address; task_chatId := chatId;
           task_monitoringStartTime := monitoringStartTime |};
      modify (set_monitoringIntervals (insert key interval))
  end.

(** [deleteWallet(chatId, address)] *)
Definition deleteWallet (chatId : Z) (address : string) : M unit :=
  settings ← getUserSettings chatId;
  let key := key_of chatId address in
  running ← gets (λ t, monitoringIntervals t !! key);
  match running with
  | Some handle =>
      clearInterval handle;; modify (set_monitoringIntervals (delete key))
  | None => mret ()
  end;;
  modify (set_heap (map_delete (wallets settings) address));;
  modify (set_heap (map_delete (lastProcessedSignatures settings) address)).

(** ** TransactionClassifier *)

(** [x || 0] on a number that may be missing *)
Definition or_zero (x : option Q) : Q :=
  match x with Some q => q | None => 0 end.

(** [lamports / 1e9], a division of doubles *)
Definition lamports_to_SOL (lamports : Z) : Q :=
  Double.div (inject_Z lamports) 1000000000.

(** Step 1: net SOL spent at balance index 0,
    [Math.max(0, preSOL - postSOL)] with the subtraction of doubles. *)
Definition solAmount_of (m : tx_meta) : Q :=
  match preBalances m, postBalances m with
  | Some pre, Some post =>
      let preSOL := lamports_to_SOL (balance0 pre) in
      let postSOL := lamports_to_SOL (balance0 post) in
      Qmax 0 (Double.sub preSOL postSOL)
  | _, _ => 0
  end.

(** [bal.owner === walletAddress] *)
Definition owned_by (walletAddress : string) (bal : token_balance) : bool :=
  bool_decide (owner bal = Some walletAddress).

(** [bal.uiTokenAmount?.uiAmount || 0] *)
Definition ui_amount (bal : token_balance) : Q :=
  match uiTokenAmount bal with
  | Some u => or_zero (uiAmount u)
  | None => 0
  end.

(** Step 3: the wallet's token balances before the transaction, by mint. *)
Definition preBalanceMap_of (walletAddress : string)
    (pre : option (list token_balance)) : gmap string Q :=
  match pre with
  | Some bals =>
      foldl (λ m bal,
               if owned_by walletAddress bal
               then <[mint bal := ui_amount bal]> m else m)
            ∅ bals
  | None => ∅
  end.

(** [postAmount - preAmount] of one post-state entry *)
Definition diff_of (preBalanceMap : gmap string Q) (bal : token_balance) : Q :=
  let preAmount := or_zero (preBalanceMap !! mint bal) in
  let postAmount := ui_amount bal in
  Double.sub postAmount preAmount.

(** Step 4, one iteration: the pair is [(tokenAddress, tokenAmount)]. *)
Definition scan_step (walletAddress : string) (preBalanceMap : gmap string Q)
    (best : option string * Q) (bal : token_balance) : option string * Q :=
  if owned_by walletAddress bal then
    let diff := diff_of preBalanceMap bal in
    if QMicromega.Qlt_bool best.2 diff then (Some (mint bal), diff) else best
  else best.

Definition largest_increase (walletAddress : string)
    (preBalanceMap : gmap string Q) (post : option (list token_balance))
    : option string * Q :=
  match post with
  | Some bals => foldl (scan_step walletAddress preBalanceMap) (None, 0%Q) bals
  | None => (None, 0%Q)
  end.

(** Step 5: [if (!tokenAddress) tokenAddress = 'unknown']; the empty string
    is falsy as well. *)
Definition or_unknown (tokenAddress : option string) : string :=
  match tokenAddress with
  | Some "" | None => "unknown"
  | Some a => a
  end.

Record token_metadata := { symbol : string; name : string }.

Section Classifier.

(** [getTokenMetadata]: the enrichment lookup.  It catches its own failures
    and answers with placeholders. *)
Variable getTokenMetadata : string → token_metadata.

(** [extractTokenInfoFromTx(tx, chatId, walletAddress)] *)
Definition extractTokenInfoFromTx (tx : option transaction) (chatId : Z)
    (walletAddress : string) : M (option token_info) :=
  match tx with
  | None | Some {| meta := None |} => mret None
  | Some {| meta := Some m |} =>
      settings ← getUserSettings chatId;
      let solAmount := solAmount_of m in
      if QMicromega.Qlt_bool solAmount (solThreshold settings) then mret None
      else
        let preBalanceMap := preBalanceMap_of walletAddress (preTokenBalances m) in
        let '(tokenAddress, tokenAmount) :=
          largest_increase walletAddress preBalanceMap (postTokenBalances m) in
        let tokenAddress := or_unknown tokenAddress in
        let tokenName :=
          if decide (tokenAddress = "unknown") then "Unknown"
          else match symbol (getTokenMetadata tokenAddress) with
               | "" => "Unknown"
               | sym => sym
               end in
        mret (Some {| tokenAddress := tokenAddress; tokenName := tokenName;
                      tokenAmount := tokenAmount; solAmount := solAmount |})
  end.

End Classifier.

(** ** SignalAggregator *)

(** [buyers.get(k)] *)
Fixpoint buyers_get (k : string) (b : list (string * Q)) : option Q :=
  match b with
  | [] => None
  | (k', v) :: b => if decide (k' = k) then Some v else buyers_get k b
  end.

(** [buyers.set(k, v)]: an existing key keeps its place. *)
Fixpoint buyers_set (k : string) (v : Q) (b : list (string * Q))
    : list (string * Q) :=
  match b with
  | [] => [(k, v)]
  | (k', v') :: b =>
      if decide (k' = k) then (k, v) :: b else (k', v') :: buyers_set k v b
  end.

(** [Array.from(buyers.values()).reduce((sum, amount) => sum + amount, 0)] *)
Definition total_spent (b : list (string * Q)) : Q :=
  foldl (λ sum amount, Double.add sum amount) 0%Q (b.*2).

(** The update of the buyer's running total, on the window object. *)
Definition record_buy (walletAddress : string) (solAmount : Q) (txData : window)
    : window :=
  let previousAmount := or_zero (buyers_get walletAddress (buyers txData)) in
  {| buyers := buyers_set walletAddress (Double.add previousAmount solAmount)
                 (buyers txData);
     timestamp := timestamp txData;
     firstSeen := firstSeen txData |}.

(** The alert condition. *)
Definition alert_due (settings : settings) (txData : window) : bool :=
  (requiredWallets settings <=? Z.of_nat (length (buyers txData)))%Z
  && Qle_bool (solThreshold settings) (total_spent (buyers txData)).

(** The cleanup loop: every entry with [now - data.timestamp > 3600000]
    is deleted. *)
Definition sweep (now : Z) (m : gmap string window) : gmap string window :=
  filter (λ kd, ¬ (now - timestamp kd.2 > 3600000)%Z) m.

(** [sendAlert(chatId, tokenAddress, tokenName, buyersMap, total)]: the
    hand-off to the alert dispatcher.  It catches its own failures. *)
Definition sendAlert (chatId : Z) (tokenAddress tokenName : string)
    (buyersMap : list (string * Q)) (totalSolSpentOnToken : Q) : M unit :=
  modify (emit (EvAlert chatId tokenAddress tokenName buyersMap totalSolSpentOnToken)).

Section Aggregator.

Variable getTokenMetadata : string → token_metadata.

(** [processTransaction(signature, chatId, walletAddress, tx, tokenInfo)].
    [now_insert] is [Date.now()] where a new window is stamped, [now_sweep]
    is [Date.now()] at the cleanup. *)
Definition processTransaction (sig : string) (chatId : Z)
    (walletAddress : string) (tx : option transaction)
    (tokenInfo : option token_info) (now_insert now_sweep : Z) : M unit :=
  tokenInfo ← match tokenInfo with
              | Some info => mret (Some info)
              | None => extractTokenInfoFromTx getTokenMetadata tx chatId walletAddress
              end;
  match tokenInfo with
  | None => mret ()
  | Some info =>
      settings ← getUserSettings chatId;
      let key := key_of chatId (tokenAddress info) in
      known ← gets (λ t, recentTransactions t !! key);
      let txData :=
        match known with
        | Some txData => txData
        | None => {| buyers := []; timestamp := now_insert; firstSeen := now_insert |}
        end in
      let txData := record_buy walletAddress (solAmount info) txData in
      modify (set_recentTransactions (insert key txData));;
      let totalSolSpentOnToken := total_spent (buyers txData) in
      (if alert_due settings txData then
         sendAlert chatId (tokenAddress info) (tokenName info) (buyers txData)
                   totalSolSpentOnToken;;
         modify (set_recentTransactions (delete key))
       else mret ());;
      modify (set_recentTransactions (sweep now_sweep))
  end.

End Aggregator.

(** ** WalletPoller *)

(** The signatures not processed yet: those before the cursor. *)
Fixpoint newSignatures_of (newSigs : list sig_info)
    (lastProcessedSig : option string) : list sig_info :=
  match newSigs with
  | [] => []
  | sig :: newSigs =>
      if decide (Some (signature sig) = lastProcessedSig) then []
      else sig :: newSignatures_of newSigs lastProcessedSig
  end.

(** [sig.blockTime && sig.blockTime < monitoringStartTime] *)
Definition too_old (monitoringStartTime : Z) (sig : sig_info) : bool :=
  match blockTime sig with
  | Some b => negb (b =? 0)%Z && (b <? monitoringStartTime)%Z
  | None => false
  end.

(** What [getTransaction] does for a signature. *)
Inductive fetched :=
  | FetchThrew
  | FetchNull
  | FetchTx (tx : transaction).

Section Poller.

Variable getTokenMetadata : string → token_metadata.

(** [this.connection.getTransaction(sig, ...)] *)
Variable getTransaction : string → fetched.

(** The two [Date.now()] readings of [processTransaction] while the
    transaction with the given signature is aggregated. *)
Variable clock : string → Z * Z.

(** The body of the loop over the new signatures.  The 500 ms pause
    after it is not modelled. *)
Definition process_signature (address : string) (chatId : Z)
    (monitoringStartTime : Z) (sig : sig_info) : M unit :=
  if too_old monitoringStartTime sig then mret ()
  else
    modify (emit (EvGetTransaction (signature sig)));;
    match getTransaction (signature sig) with
    | FetchThrew | FetchNull => mret ()
    | FetchTx tx =>
        tokenInfo ← extractTokenInfoFromTx getTokenMetadata (Some tx) chatId address;
        match tokenInfo with
        | Some info =>
            if negb (bool_decide (tokenAddress info = "unknown"))
               && QMicromega.Qlt_bool 0 (tokenAmount info)
            then processTransaction getTokenMetadata (signature sig) chatId
                   address (Some tx) (Some info)
                   (clock (signature sig)).1 (clock (signature sig)).2
            else mret ()
        | None => mret ()
        end
    end.

(** One run of the interval callback of [startMonitoringWallet].
    [newSigs] is what [getSignaturesForAddress(pubkey, {limit: 2})] resolved
    to, [None] when it threw; [settings] of the closure is the settings
    object of [chatId]. *)
Definition tick (task : poll_task) (newSigs : option (list sig_info)) : M unit :=
  let address := task_address task in
  let chatId := task_chatId task in
  settings ← gets (λ t, userSettings t !! chatId);
  match settings, newSigs with
  | Some settings, Some newSigs =>
      if isPaused settings then mret ()
      else
        lastProcessedSig ←
          gets (λ t, map_get (lastProcessedSignatures settings) address (heap t));
        match newSignatures_of newSigs lastProcessedSig with
        | [] => mret ()
        | newest :: older =>
            set_cursor chatId settings address (signature newest);;
            forM_ (rev (newest :: older))
                  (process_signature address chatId (task_monitoringStartTime task))
        end
  | _, _ => mret ()
  end.

End Poller.

(** ** Webhook *)

Record http_response := { status : nat; body : string }.

(** The body of a POST to [/webhook]. *)
Record webhook_body := { wb_signature : string; wb_accountKeys : list string }.

(** [this.handleTransaction]: the class has no method of that name, so the
    property is [undefined]. *)
Definition handleTransaction : option (string → list string → M unit) := None.

(** The handler of [POST /webhook].  Calling [undefined] throws a
    [TypeError], which the [catch] turns into the 500 answer. *)
Definition webhook (req_body : webhook_body) : M http_response :=
  match handleTransaction with
  | Some method =>
      method (wb_signature req_body) (wb_accountKeys req_body);;
      mret {| status := 200; body := "OK" |}
  | None => mret {| status := 500; body := "Error processing webhook" |}
  end.

End Engine.

(** * Inputs of the end-to-end scenarios *)
Module Scenario.
Import Engine.

(** A transaction whose fee payer goes from [pre] to [post] lamports and in
    which [wallet], holding none of [asset] before, holds [received] of it
    afterwards. *)
Definition buy_tx (wallet asset : string) (pre post : Z) (received : Q)
    : transaction :=
  {| meta := Some
       {| preBalances := Some {| balance0 := pre; balances_rest := [] |};
          postBalances := Some {| balance0 := post; balances_rest := [] |};
          preTokenBalances := Some [];
          postTokenBalances :=
            Some [ {| owner := Some wallet; mint := asset;
                      uiTokenAmount := Some {| uiAmount := Some received |} |} ] |} |}.

(** A buy signal of [spent] SOL for [asset]. *)
Definition signal (asset : string) (spent : Q) : token_info :=
  {| tokenAddress := asset; tokenName := "Unknown";
     tokenAmount := 1; solAmount := spent |}.

(** The enrichment service when it knows no token. *)
Definition no_metadata (tokenAddress : string) : token_metadata :=
  {| symbol := "Unknown"; name := "Unknown" |}.

(** Subscriber 1 after a first contact: the default settings. *)
Definition subscribed : tracker := (getUserSettings 1 new_WalletTracker).2.

(** The settings object of subscriber 1 then. *)
Definition settings1 : settings := (getUserSettings 1 new_WalletTracker).1.

(** Subscriber 1 after [/walletcount 2]. *)
Definition subscribed_quorum2 : tracker :=
  (setWalletCount 1 (Some 2%Z) new_WalletTracker).2.

(** The newest signature of wallet A when its tracking starts. *)
Definition sig0 : sig_info :=
  {| signature := "sig0"; blockTime := Some 1699999000%Z |}.

(** Subscriber 1 tracks wallet A: [processWalletAddition] stores the
    nickname and starts the poller, at epoch second 1700000000. *)
Definition tracking : tracker :=
  ((settings ← getUserSettings 1;
    modify (set_heap (map_set (wallets settings) "walletA" "Main"));;
    startMonitoringWallet "walletA" 1 1700000000000 (Fetched (Some [sig0])))
     new_WalletTracker).2.

(** The polling closure of that poller. *)
Definition taskA : poll_task :=
  {| task_address := "walletA"; task_chatId := 1;
     task_monitoringStartTime := 1700000000 |}.

(** Subscriber 1 after [/walletcount 2] and [/threshold 0.3]: the number
    [parseFloat] makes of the text is the double nearest to 0.3. *)
Definition subscribed_low : tracker :=
  (setThreshold 1 (Some (Double.round (3 # 10))) subscribed_quorum2).2.

(** The settings object of subscriber 1 then. *)
Definition settings_low : settings := (getUserSettings 1 subscribed_low).1.

End Scenario.

(** * The specification's wording, for comparison with the code *)
Module Spec.
Import Engine.

(** A token balance of the wallet. *)
Definition owns (walletAddress : string) (bal : token_balance) : Prop :=
  owner bal = Some walletAddress.

#[global] Instance owns_dec walletAddress bal : Decision (owns walletAddress bal) :=
  decide (owner bal = Some walletAddress).

(** The amount a token balance shows, zero when it shows none. *)
Definition amount (bal : token_balance) : Q :=
  match uiTokenAmount bal with
  | Some {| uiAmount := Some q |} => q
  | _ => 0%Q
  end.

(** Section 4.3, step 2: the pre-balance of a mint is the amount of the
    wallet's pre-state balance for the mint, of the last one listed if there
    are several, and zero if there is none. *)
Definition preAmount (walletAddress : string) (pre : list token_balance)
    (mt : string) : Q :=
  match last (filter (λ bal, owns walletAddress bal ∧ mint bal = mt) pre) with
  | Some bal => amount bal
  | None => 0%Q
  end.

(** Step 3: [delta = postAmount - preAmount(mint)], a difference of
    numbers of the program *)
Definition delta (walletAddress : string) (pre : list token_balance)
    (bal : token_balance) : Q :=
  Double.sub (amount bal) (preAmount walletAddress pre (mint bal)).

(** Steps 3 to 5: among the post-state token balances owned by the wallet,
    the asset is the mint with the largest positive [delta], the first-listed
    one among equal deltas; without a positive delta it is ["unknown"], with
    amount zero. *)
Definition acquired_asset (walletAddress : string)
    (pre post : list token_balance) (asset : string) (assetAmount : Q) : Prop :=
  let delta := delta walletAddress pre in
  ((∀ bal, bal ∈ post → owns walletAddress bal → (delta bal <= 0)%Q) →
   asset = "unknown" ∧ assetAmount = 0%Q)
  ∧ ((∃ bal, bal ∈ post ∧ owns walletAddress bal ∧ (0 < delta bal)%Q) →
     ∃ i best,
       post !! i = Some best
       ∧ owns walletAddress best
       ∧ asset = mint best
       ∧ assetAmount = delta best
       ∧ (0 < delta best)%Q
       ∧ (∀ bal, bal ∈ post → owns walletAddress bal →
            (delta bal <= delta best)%Q)
       ∧ (∀ j bal, j < i → post !! j = Some bal →
            owns walletAddress bal → (delta bal < delta best)%Q)).

(** Section 4.4: the per-wallet running totals of a window, in the order
    the wallets came in, with the spend of a signal added to the total of
    its wallet. *)
Definition add_buy (wallet : string) (solSpent : Q)
    (perWallet : list (string * Q)) : list (string * Q) :=
  if decide (wallet ∈ perWallet.*1)
  then (λ entry, if decide (entry.1 = wallet)
                 then (wallet, Double.add entry.2 solSpent) else entry)
         <$> perWallet
  else perWallet ++ [(wallet, Double.add 0 solSpent)].

(** [totalSpent = sum(window.perWallet.values())], summed in that order *)
Definition total (perWallet : list (string * Q)) : Q :=
  foldl (λ sum entry, Double.add sum entry.2) 0%Q perWallet.

End Spec.

(** * Invariants and observations used by the further properties *)
Module Invariant.
Import Rpc Engine.

(** The active index names the endpoint the connection was built for, and
    the strike counter is below the rotation mark. *)
Definition pool_ok (p : pool) : Prop :=
  rpcEndpoints p !! currentRpcIndex p = Some (rpcEndpoint (connection p))
  ∧ rateLimitCount (rpcStats p) < 3.

(** The delay slept before attempt number [retries + 1]. *)
Definition backoff_delay (retries : nat) : Z :=
  Z.min (1000 * 2 ^ Z.of_nat retries) 10000.

(** Every subscriber's threshold and quorum are positive. *)
Definition settings_valid (t : tracker) : Prop :=
  ∀ chatId s, userSettings t !! chatId = Some s →
    (0 < solThreshold s)%Q ∧ (0 < requiredWallets s)%Z.

(** Every settings object holds the cursor map, the personal-wallet array
    and the start-time record of [defaultSettings]. *)
Definition shares_defaults (t : tracker) : Prop :=
  ∀ chatId s, userSettings t !! chatId = Some s →
    lastProcessedSignatures s = lastProcessedSignatures defaultSettings
    ∧ userWallets s = userWallets defaultSettings
    ∧ monitoringStartTimes s = monitoringStartTimes defaultSettings.

(** The signatures whose bodies were asked for, oldest request first. *)
Definition fetched_signatures (evs : list event) : list string :=
  omap (λ e, match e with EvGetTransaction sig => Some sig | _ => None end) evs.

(** The alerts handed off, oldest first. *)
Definition alerts (evs : list event) : list event :=
  omap (λ e, match e with EvAlert _ _ _ _ _ => Some e | _ => None end) evs.

(** The transaction metadata with the token balances of other owners
    removed. *)
Definition own_entries (walletAddress : string) (m : tx_meta) : tx_meta :=
  {| preBalances := preBalances m;
     postBalances := postBalances m;
     preTokenBalances :=
       filter (λ bal, owned_by walletAddress bal) <$> preTokenBalances m;
     postTokenBalances :=
       filter (λ bal, owned_by walletAddress bal) <$> postTokenBalances m |}.

(** The fee payer's lamport balance did not go down, or a balance array is
    missing. *)
Definition no_outflow (m : tx_meta) : Prop :=
  match preBalances m, postBalances m with
  | Some pre, Some post => (balance0 pre <= balance0 post)%Z
  | _, _ => True
  end.

End Invariant.

(** * The token metadata lookup and its cache *)
Module Enrichment.

(** The [data] object of a [/token/metadata] answer.  A field is [None]
    when it is absent; [deploy_timestamp] holds the time value of
    [new Date(data.deploy_timestamp)], [None] when that date is invalid. *)
Record response_data := {
  rd_symbol : option string;
  rd_name : option string;
  rd_deployer : option string;
  rd_deploy_timestamp : option Z;
  rd_is_complete : option bool;
  rd_twitter : option string;
  rd_telegram : option string;
  rd_website : option string
}.

Record api_response := { success : bool; response_body : option response_data }.

(** What [callCallStaticAPI('/token/metadata', {token})] does: it throws on
    a network error or a status outside 2xx, and resolves to the parsed JSON
    otherwise, which may be [null]. *)
Inductive api_outcome :=
  | ApiThrew
  | ApiResolved (response : option api_response).

(** The fields of [tokenData] that only a successful lookup fills.
    [deployTime] is kept as the time value of the ISO string. *)
Record token_details := {
  deployer : option string;
  deployTime : Z;
  isComplete : option bool;
  twitter : option string;
  telegram : option string;
  website : option string
}.

Record token_data := {
  symbol : string;
  name : string;
  details : option token_details
}.

(** A value of [tokenCache]. *)
Record cached := { data : token_data; timestamp : Z }.

(** [v || 'Unknown'] *)
Definition or_Unknown (v : option string) : string :=
  match v with
  | Some "" | None => "Unknown"
  | Some s => s
  end.

(** The object returned when no metadata could be had. *)
Definition basic_info : token_data :=
  {| symbol := "Unknown"; name := "Unknown"; details := None |}.

Section Lookup.

Variable callCallStaticAPI : string → api_outcome.

(** The part of [getTokenMetadata] after the cache check.
    [toISOString] throws a [RangeError] on an invalid date, inside the
    [try]. *)
Definition fetch_metadata (tokenAddress : string) (now_store : Z)
    (tokenCache : gmap string cached) : token_data * gmap string cached :=
  match callCallStaticAPI tokenAddress with
  | ApiResolved (Some {| success := true; response_body := Some d |}) =>
      match rd_deploy_timestamp d with
      | Some time =>
          let tokenData :=
            {| symbol := or_Unknown (rd_symbol d);
               name := or_Unknown (rd_name d);
               details := Some {| deployer := rd_deployer d;
                                  deployTime := time;
                                  isComplete := rd_is_complete d;
                                  twitter := rd_twitter d;
                                  telegram := rd_telegram d;
                                  website := rd_website d |} |} in
          (tokenData,
           <[tokenAddress := {| data := tokenData; timestamp := now_store |}]>
             tokenCache)
      | None => (basic_info, tokenCache)
      end
  | _ => (basic_info, tokenCache)
  end.

(** [getTokenMetadata(tokenAddress)].  [now_check] is [Date.now()] at the
    cache check, [now_store] is [Date.now()] where the answer is cached. *)
Definition getTokenMetadata (tokenAddress : string) (now_check now_store : Z)
    (tokenCache : gmap string cached) : token_data * gmap string cached :=
  match tokenCache !! tokenAddress with
  | Some cachedData =>
      if (now_check - timestamp cachedData <? 10 * 60 * 1000)%Z
      then (data cachedData, tokenCache)
      else fetch_metadata tokenAddress now_store tokenCache
  | None => fetch_metadata tokenAddress now_store tokenCache
  end.

End Lookup.

(** Whether a lookup at [now_check] is answered from the cache. *)
Definition served_from_cache (tokenAddress : string) (now_check : Z)
    (tokenCache : gmap string cached) : Prop :=
  ∃ cachedData, tokenCache !! tokenAddress = Some cachedData
                ∧ (now_check - timestamp cachedData < 600000)%Z.

(** Whether the metadata service gave an answer [getTokenMetadata] uses. *)
Definition usable (o : api_outcome) : Prop :=
  ∃ d time, o = ApiResolved (Some {| success := true; response_body := Some d |})
            ∧ rd_deploy_timestamp d = Some time.

(** Every cached symbol and name is a non-empty string. *)
Definition cache_named (tokenCache : gmap string cached) : Prop :=
  map_Forall (λ _ c, symbol (data c) ≠ "" ∧ name (data c) ≠ "") tokenCache.

(** A metadata service that knows one token. *)
Definition one_token (tokenAddress : string) : api_outcome :=
  if decide (tokenAddress = "mintX")
  then ApiResolved (Some {| success := true;
                            response_body := Some
                              {| rd_symbol := Some "XTK"; rd_name := Some "";
                                 rd_deployer := Some "dev1";
                                 rd_deploy_timestamp := Some 1699990000000%Z;
                                 rd_is_complete := Some false;
                                 rd_twitter := None; rd_telegram := None;
                                 rd_website := None |} |})
  else ApiResolved (Some {| success := false; response_body := None |}).

End Enrichment.

(** * Properties of the endpoint pool and the retrying caller *)

Import Rpc.

Lemma rotate_index valid_endpoint (p : pool) :
  currentRpcIndex (rotateRpcEndpoint valid_endpoint p)
  = (currentRpcIndex p + 1) mod length (rpcEndpoints p).
Proof.
  unfold rotateRpcEndpoint.
  destruct (rpcEndpoints p !! _) as [url|]; [|done].
  by destruct (new_Connection valid_endpoint url).
Qed.

Lemma rotate_endpoints valid_endpoint (p : pool) :
  rpcEndpoints (rotateRpcEndpoint valid_endpoint p) = rpcEndpoints p.
Proof.
  unfold rotateRpcEndpoint.
  destruct (rpcEndpoints p !! _) as [url|]; [|done].
  by destruct (new_Connection valid_endpoint url).
Qed.

(** On a non-empty pool of endpoints the connection constructor accepts, a
    rotation takes the successful path. *)
Lemma rotate_ok valid_endpoint (p : pool) :
  rpcEndpoints p ≠ [] →
  (∀ url, url ∈ rpcEndpoints p → valid_endpoint url = true) →
  let i := (currentRpcIndex p + 1) mod length (rpcEndpoints p) in
  ∃ url, rpcEndpoints p !! i = Some url ∧
    rotateRpcEndpoint valid_endpoint p =
      {| rpcEndpoints := rpcEndpoints p;
         currentRpcIndex := i;
         connection := {| rpcEndpoint := url |};
         rpcStats := {| rateLimitCount := 0;
                        totalRequests := totalRequests (rpcStats p);
                        totalRotations := totalRotations (rpcStats p) + 1 |};
         sleeps := sleeps p |}.
Proof.
  intros Hne Hvalid i.
  assert (Hi : i < length (rpcEndpoints p)).
  { apply Nat.mod_upper_bound. by destruct (rpcEndpoints p). }
  destruct (lookup_lt_is_Some_2 _ _ Hi) as [url Hurl].
  exists url. split; [done|].
  unfold rotateRpcEndpoint. fold i. rewrite Hurl.
  unfold new_Connection.
  rewrite Hvalid; [done|]. by eapply list_elem_of_lookup_2.
Qed.



(** The fuel of [callWithBackoff] is enough: the loop is always left by a
    [return] or a [throw] of its body, never by its condition. *)
Lemma backoff_loop_leaves_by_body valid_endpoint {A}
    (apiFunction : nat → Connection → outcome A) maxRetries fuel retries (p : pool) :
  retries + fuel = S maxRetries → 0 < fuel →
  (backoff_loop valid_endpoint apiFunction maxRetries fuel retries p).1
  ≠ Returned None.
Proof.
  revert retries p. induction fuel as [|fuel IH]; intros retries p Hsum Hpos; [lia|].
  cbn [backoff_loop].
  assert ((retries <=? maxRetries) = true) as -> by (apply Nat.leb_le; lia).
  destruct (apiFunction retries _) as [a|e]; [done|].
  destruct (isRateLimit e && (retries <? maxRetries)) eqn:Hretry; [|done].
  apply andb_true_iff in Hretry as [_ Hlt%Nat.ltb_lt].
  apply IH; lia.
Qed.





(** * Properties of the arithmetic of JavaScript numbers *)

Section DoubleFacts.
Import Double.
Local Open Scope Q_scope.

Ltac compare_spec H :=
  first [ apply (proj2 (Qeq_alt _ _)) in H
        | apply (proj2 (Qlt_alt _ _)) in H
        | apply (proj2 (Qgt_alt _ _)) in H ].

Lemma pow2_pos (e : Z) : (0 < 2 ^ e)%Q.
Proof. by apply Qpower_0_lt. Qed.

Lemma pow2_le (a b : Z) : (a ≤ b)%Z → (2 ^ a <= 2 ^ b)%Q.
Proof. intros H. by apply Qpower_le_compat_l. Qed.

Lemma pow2_lt_inv (a b : Z) : (2 ^ a < 2 ^ b)%Q → (a < b)%Z.
Proof. intros H. by apply (Qpower_lt_compat_l_inv 2). Qed.

Lemma pow2_plus (a b : Z) : (2 ^ (a + b) == 2 ^ a * 2 ^ b)%Q.
Proof. by apply Qpower_plus. Qed.

Lemma pow2_inject (a : Z) : (0 ≤ a)%Z → (inject_Z (2 ^ a)%Z == 2 ^ a)%Q.
Proof. intros H. by rewrite Zpower_Qpower. Qed.

Lemma ilog2_spec (x : Q) :
  (0 < x)%Q → (2 ^ ilog2 x <= x)%Q ∧ (x < 2 ^ (ilog2 x + 1))%Q.
Proof.
  intros Hx. unfold ilog2.
  destruct x as [n d]. cbn [Qnum Qden].
  assert (Hn : (0 < n)%Z).
  { unfold Qlt in Hx. cbn in Hx. lia. }
  set (a := Z.log2 n). set (b := Z.log2 (Z.pos d)).
  pose proof (Z.log2_spec n Hn) as [Ha1 Ha2]. fold a in Ha1, Ha2.
  pose proof (Z.log2_spec (Z.pos d) eq_refl) as [Hb1 Hb2]. fold b in Hb1, Hb2.
  assert (Ha0 : (0 ≤ a)%Z) by apply Z.log2_nonneg.
  assert (Hb0 : (0 ≤ b)%Z) by apply Z.log2_nonneg.
  assert (Hxd : (n # d) * inject_Z (Z.pos d) == inject_Z n).
  { unfold Qeq, Qmult, inject_Z. cbn. lia. }
  assert (HD : 0 < inject_Z (Z.pos d)) by (unfold Qlt; cbn; lia).
  assert (HA1 : 2 ^ a <= inject_Z n).
  { rewrite <- pow2_inject by done. by rewrite <- Zle_Qle. }
  assert (HA2 : inject_Z n < 2 ^ (a + 1)).
  { rewrite <- pow2_inject by lia. rewrite <- Zlt_Qlt. by rewrite <- Z.add_1_r in Ha2. }
  assert (HB1 : 2 ^ b <= inject_Z (Z.pos d)).
  { rewrite <- pow2_inject by done. by rewrite <- Zle_Qle. }
  assert (HB2 : inject_Z (Z.pos d) < 2 ^ (b + 1)).
  { rewrite <- pow2_inject by lia. rewrite <- Zlt_Qlt. by rewrite <- Z.add_1_r in Hb2. }
  pose proof (pow2_pos b) as HBp.
  destruct (Qle_bool (2 ^ (a - b)) (n # d)) eqn:E.
  - apply Qle_bool_iff in E. split; [done|].
    assert (HP : 2 ^ (a - b + 1) * 2 ^ b == 2 ^ (a + 1)).
    { rewrite <- pow2_plus. by replace (a - b + 1 + b)%Z with (a + 1)%Z by lia. }
    pose proof (pow2_pos (a - b + 1)) as HPp.
    set (P := 2 ^ (a - b + 1)) in *. set (B := 2 ^ b) in *.
    set (A1 := 2 ^ (a + 1)) in *. set (D := inject_Z (Z.pos d)) in *.
    set (N := inject_Z n) in *. set (x := n # d) in *.
    clearbody P B A1 D N x. clear -HP HPp HBp HB1 HA2 Hxd HD.
    apply Qnot_le_lt. intros Hle.
    assert (P * B <= x * D) by nra. lra.
  - assert (Hlt : (n # d) < 2 ^ (a - b)).
    { apply Qnot_le_lt. intros H. apply Qle_bool_iff in H. congruence. }
    split; [|by replace (a - b - 1 + 1)%Z with (a - b)%Z by lia].
    assert (HP : 2 ^ (a - b - 1) * 2 ^ (b + 1) == 2 ^ a).
    { rewrite <- pow2_plus. by replace (a - b - 1 + (b + 1))%Z with a by lia. }
    pose proof (pow2_pos (a - b - 1)) as HPp.
    set (P := 2 ^ (a - b - 1)) in *. set (B1 := 2 ^ (b + 1)) in *.
    set (A := 2 ^ a) in *. set (D := inject_Z (Z.pos d)) in *.
    set (N := inject_Z n) in *. set (x := n # d) in *.
    clearbody P B1 A D N x. clear -HP HPp HB2 HA1 Hxd HD.
    apply Qnot_lt_le. intros Hle.
    assert (x * D < P * B1) by nra. lra.
Qed.

Lemma ilog2_lt (x : Q) (k : Z) : 0 < x → x < 2 ^ k → (ilog2 x < k)%Z.
Proof.
  intros Hx Hk. destruct (ilog2_spec x Hx) as [Hl _].
  apply pow2_lt_inv. lra.
Qed.

Lemma ilog2_ge (x : Q) (k : Z) : 2 ^ k <= x → (k ≤ ilog2 x)%Z.
Proof.
  intros Hk. pose proof (pow2_pos k) as Hp.
  destruct (ilog2_spec x) as [_ Hu]; [lra|].
  assert (k < ilog2 x + 1)%Z; [|lia]. apply pow2_lt_inv. lra.
Qed.

Lemma ilog2_mono (x y : Q) : 0 < x → x <= y → (ilog2 x ≤ ilog2 y)%Z.
Proof.
  intros Hx Hxy. apply ilog2_ge.
  destruct (ilog2_spec x Hx) as [Hl _]. lra.
Qed.

Lemma round_half_even_floor (x : Q) :
  (Qfloor x ≤ round_half_even x ≤ Qfloor x + 1)%Z.
Proof.
  unfold round_half_even.
  destruct (_ ?= _); [destruct (Z.even _)| |]; lia.
Qed.

Lemma round_half_even_error (x : Q) :
  x - (1 # 2) <= inject_Z (round_half_even x)
  ∧ inject_Z (round_half_even x) <= x + (1 # 2).
Proof.
  pose proof (Qfloor_le x) as Hl. pose proof (Qlt_floor x) as Hu.
  rewrite inject_Z_plus in Hu. change (inject_Z 1) with 1 in Hu.
  unfold round_half_even.
  destruct (x - inject_Z (Qfloor x) ?= 1 # 2) eqn:E.
  - apply (proj2 (Qeq_alt _ _)) in E.
    destruct (Z.even _); [|rewrite inject_Z_plus; change (inject_Z 1) with 1]; lra.
  - apply (proj2 (Qlt_alt _ _)) in E. lra.
  - apply (proj2 (Qgt_alt _ _)) in E. rewrite inject_Z_plus. change (inject_Z 1) with 1. lra.
Qed.

Lemma round_half_even_Z (n : Z) : round_half_even (inject_Z n) = n.
Proof.
  unfold round_half_even. rewrite Qfloor_Z.
  assert ((inject_Z n - inject_Z n ?= 1 # 2) = Lt) as ->; [|done].
  apply (proj1 (Qlt_alt _ _)). lra.
Qed.

Lemma round_half_even_mono (x y : Q) :
  x <= y → (round_half_even x ≤ round_half_even y)%Z.
Proof.
  intros Hxy. pose proof (Qfloor_resp_le x y Hxy) as Hf.
  destruct (decide (Qfloor x = Qfloor y)) as [E|Hne].
  - unfold round_half_even. rewrite <- E.
    destruct (x - inject_Z (Qfloor x) ?= 1 # 2) eqn:Ex;
      destruct (y - inject_Z (Qfloor x) ?= 1 # 2) eqn:Ey;
      try destruct (Z.even _); try lia;
      compare_spec Ex; compare_spec Ey; lra.
  - pose proof (round_half_even_floor x). pose proof (round_half_even_floor y). lia.
Qed.

Lemma scaled_bounds (x : Q) :
  0 < x →
  inject_Z (2 ^ 52)%Z <= x / 2 ^ (ilog2 x - 52)
  ∧ x / 2 ^ (ilog2 x - 52) <= inject_Z (2 ^ 53)%Z.
Proof.
  intros Hx. destruct (ilog2_spec x Hx) as [Hl Hu].
  pose proof (pow2_pos (ilog2 x - 52)) as Hq.
  rewrite !pow2_inject by lia.
  assert (H52 : 2 ^ ilog2 x == 2 ^ 52 * 2 ^ (ilog2 x - 52)).
  { rewrite <- pow2_plus. by replace (52 + (ilog2 x - 52))%Z with (ilog2 x) by lia. }
  assert (H53 : 2 ^ (ilog2 x + 1) == 2 ^ 53 * 2 ^ (ilog2 x - 52)).
  { rewrite <- pow2_plus. by replace (53 + (ilog2 x - 52))%Z with (ilog2 x + 1)%Z by lia. }
  split.
  - apply Qle_shift_div_l; [done|]. lra.
  - apply Qle_shift_div_r; [done|]. lra.
Qed.

(** The result lies in the binade of the argument, ends included. *)
Lemma round_pos_bounds (x : Q) :
  0 < x → 2 ^ ilog2 x <= round_pos x ∧ round_pos x <= 2 ^ (ilog2 x + 1).
Proof.
  intros Hx. destruct (scaled_bounds x Hx) as [Hl Hu].
  apply round_half_even_mono in Hl, Hu. rewrite round_half_even_Z in Hl, Hu.
  pose proof (pow2_pos (ilog2 x - 52)) as Hq.
  unfold round_pos. cbv zeta.
  assert (H52 : 2 ^ ilog2 x == inject_Z (2 ^ 52)%Z * 2 ^ (ilog2 x - 52)).
  { rewrite pow2_inject by lia. rewrite <- pow2_plus.
    by replace (52 + (ilog2 x - 52))%Z with (ilog2 x) by lia. }
  assert (H53 : 2 ^ (ilog2 x + 1) == inject_Z (2 ^ 53)%Z * 2 ^ (ilog2 x - 52)).
  { rewrite pow2_inject by lia. rewrite <- pow2_plus.
    by replace (53 + (ilog2 x - 52))%Z with (ilog2 x + 1)%Z by lia. }
  rewrite H52, H53. rewrite Zle_Qle in Hl, Hu.
  split; apply Qmult_le_compat_r; lra.
Qed.

(** The rounding error is at most half a unit in the last place. *)
Lemma round_pos_error (x : Q) :
  0 < x →
  x - 2 ^ (ilog2 x - 53) <= round_pos x ∧ round_pos x <= x + 2 ^ (ilog2 x - 53).
Proof.
  intros Hx. pose proof (pow2_pos (ilog2 x - 52)) as Hq.
  destruct (round_half_even_error (x / 2 ^ (ilog2 x - 52))) as [Hl Hu].
  unfold round_pos. cbv zeta.
  set (m := inject_Z (round_half_even _)) in *.
  assert (Hh : 2 ^ (ilog2 x - 53) == (1 # 2) * 2 ^ (ilog2 x - 52)).
  { replace (ilog2 x - 53)%Z with (-1 + (ilog2 x - 52))%Z by lia.
    by rewrite pow2_plus. }
  assert (Hs : x == x / 2 ^ (ilog2 x - 52) * 2 ^ (ilog2 x - 52)).
  { field. lra. }
  rewrite Hh. set (s := x / 2 ^ (ilog2 x - 52)) in *.
  set (u := 2 ^ (ilog2 x - 52)) in *. clearbody m s u.
  assert ((s - (1 # 2)) * u <= m * u) by (apply Qmult_le_compat_r; lra).
  assert (m * u <= (s + (1 # 2)) * u) by (apply Qmult_le_compat_r; lra).
  split; nra.
Qed.

Lemma round_pos_mono (x y : Q) : 0 < x → x <= y → round_pos x <= round_pos y.
Proof.
  intros Hx Hxy. assert (Hy : 0 < y) by lra.
  pose proof (ilog2_mono x y Hx Hxy) as He.
  destruct (decide (ilog2 x = ilog2 y)) as [E|Hne].
  - unfold round_pos. cbv zeta. rewrite E.
    pose proof (pow2_pos (ilog2 y - 52)) as Hq.
    apply Qmult_le_compat_r; [|lra].
    rewrite <- Zle_Qle. apply round_half_even_mono.
    apply Qmult_le_compat_r; [done|]. apply Qlt_le_weak, Qinv_lt_0_compat. done.
  - destruct (round_pos_bounds x Hx) as [_ Hu].
    destruct (round_pos_bounds y Hy) as [Hl _].
    assert (2 ^ (ilog2 x + 1) <= 2 ^ ilog2 y) by (apply pow2_le; lia).
    lra.
Qed.

Lemma round_pos_pos (x : Q) : 0 < x → 0 < round_pos x.
Proof.
  intros Hx. destruct (round_pos_bounds x Hx) as [Hl _].
  pose proof (pow2_pos (ilog2 x)). lra.
Qed.

Lemma round_cases (x : Q) :
  (0 < x ∧ round x = round_pos x)
  ∨ (x < 0 ∧ round x = - round_pos (- x))
  ∨ (x == 0 ∧ round x = 0).
Proof.
  unfold round. destruct (x ?= 0) eqn:E.
  - right. right. by apply (proj2 (Qeq_alt _ _)) in E.
  - right. left. by apply (proj2 (Qlt_alt _ _)) in E.
  - left. by apply (proj2 (Qgt_alt _ _)) in E.
Qed.

(** Rounding keeps the order. *)
Lemma round_mono (x y : Q) : x <= y → round x <= round y.
Proof.
  intros Hxy.
  destruct (round_cases x) as [[Hx ->] | [[Hx ->] | [Hx ->]]];
    destruct (round_cases y) as [[Hy ->] | [[Hy ->] | [Hy ->]]]; try lra.
  - by apply round_pos_mono.
  - pose proof (round_pos_pos (- x)). pose proof (round_pos_pos y). lra.
  - assert (round_pos (- y) <= round_pos (- x)) by (apply round_pos_mono; lra). lra.
  - pose proof (round_pos_pos (- x)). lra.
  - pose proof (round_pos_pos y). lra.
Qed.

Lemma round_nonpos (x : Q) : x <= 0 → round x <= 0.
Proof. intros H. apply (round_mono x 0) in H. exact H. Qed.

Lemma round_nonneg (x : Q) : 0 <= x → 0 <= round x.
Proof. intros H. apply (round_mono 0 x) in H. exact H. Qed.

Lemma round_pos_iff (x : Q) : 0 < round x ↔ 0 < x.
Proof.
  destruct (round_cases x) as [[Hx ->] | [[Hx ->] | [Hx ->]]].
  - pose proof (round_pos_pos x Hx). tauto.
  - pose proof (round_pos_pos (- x)). split; intros; lra.
  - split; intros; lra.
Qed.

(** Below [2 ^ k] in magnitude, rounding moves a number by at most
    [2 ^ (k - 54)]. *)
Lemma round_error (x : Q) (k : Z) :
  - 2 ^ k < x → x < 2 ^ k →
  x - 2 ^ (k - 54) <= round x ∧ round x <= x + 2 ^ (k - 54).
Proof.
  intros Hl Hu. pose proof (pow2_pos (k - 54)) as Hk.
  destruct (round_cases x) as [[Hx ->] | [[Hx ->] | [Hx ->]]].
  - destruct (round_pos_error x Hx) as [H1 H2].
    assert (2 ^ (ilog2 x - 53) <= 2 ^ (k - 54)).
    { apply pow2_le. pose proof (ilog2_lt x k Hx Hu). lia. }
    lra.
  - destruct (round_pos_error (- x)) as [H1 H2]; [lra|].
    assert (2 ^ (ilog2 (- x) - 53) <= 2 ^ (k - 54)).
    { apply pow2_le. assert (ilog2 (- x) < k)%Z by (apply ilog2_lt; lra). lia. }
    lra.
  - lra.
Qed.

(** Rounding respects the equality of rationals. *)
Lemma round_comp (x y : Q) : x == y → round x == round y.
Proof.
  intros H. apply Qle_antisym; apply round_mono; lra.
Qed.

Lemma ilog2_unique (x : Q) (e : Z) : 2 ^ e <= x → x < 2 ^ (e + 1) → ilog2 x = e.
Proof.
  intros Hl Hu. pose proof (pow2_pos e).
  assert (e ≤ ilog2 x)%Z by by apply ilog2_ge.
  assert (ilog2 x < e + 1)%Z by (apply ilog2_lt; lra).
  lia.
Qed.

Lemma round_half_even_comp (x : Q) (n : Z) :
  x == inject_Z n → round_half_even x = n.
Proof.
  intros H. unfold round_half_even.
  assert (Qfloor x = n) as -> by (by rewrite H, Qfloor_Z).
  assert ((x - inject_Z n ?= 1 # 2) = Lt) as ->; [|done].
  apply (proj1 (Qlt_alt _ _)). lra.
Qed.

(** A rounded number rounds to itself. *)
Lemma round_pos_idem (x : Q) : 0 < x → round_pos (round_pos x) == round_pos x.
Proof.
  intros Hx. destruct (scaled_bounds x Hx) as [Hl Hu].
  apply round_half_even_mono in Hl, Hu. rewrite round_half_even_Z in Hl, Hu.
  pose proof (pow2_pos (ilog2 x - 52)) as Hq.
  unfold round_pos at 2 3. cbv zeta.
  set (q := (ilog2 x - 52)%Z) in *.
  set (m := round_half_even (x / 2 ^ q)) in *.
  assert (H52 : 2 ^ (q + 52) == inject_Z (2 ^ 52)%Z * 2 ^ q).
  { rewrite pow2_inject by lia. rewrite <- pow2_plus. by rewrite (Z.add_comm q). }
  assert (H53 : 2 ^ (q + 53) == inject_Z (2 ^ 53)%Z * 2 ^ q).
  { rewrite pow2_inject by lia. rewrite <- pow2_plus. by rewrite (Z.add_comm q). }
  destruct (decide (m = 2 ^ 53)%Z) as [E|Hne].
  - assert (He : ilog2 (inject_Z m * 2 ^ q) = (q + 53)%Z).
    { apply ilog2_unique.
      - rewrite E, H53. lra.
      - rewrite E, <- H53. apply Qpower_lt_compat_l; [lia|done]. }
    unfold round_pos. cbv zeta. rewrite He.
    replace (q + 53 - 52)%Z with (1 + q)%Z by lia.
    rewrite (round_half_even_comp _ (2 ^ 52)%Z).
    + rewrite E, pow2_plus. change (inject_Z (2 ^ 53)%Z) with (2 * inject_Z (2 ^ 52)%Z).
      change (2 ^ 1) with 2. ring.
    + rewrite E, pow2_plus. change (inject_Z (2 ^ 53)%Z) with (2 * inject_Z (2 ^ 52)%Z).
      change (2 ^ 1) with 2. field. lra.
  - assert (He : ilog2 (inject_Z m * 2 ^ q) = (q + 52)%Z).
    { apply ilog2_unique.
      - rewrite H52. apply Qmult_le_compat_r; [by rewrite <- Zle_Qle|lra].
      - replace (q + 52 + 1)%Z with (q + 53)%Z by lia. rewrite H53.
        apply Qmult_lt_compat_r; [done|]. rewrite <- Zlt_Qlt. lia. }
    unfold round_pos. cbv zeta. rewrite He.
    replace (q + 52 - 52)%Z with q by lia.
    rewrite (round_half_even_comp _ m); [done|]. field. lra.
Qed.

Lemma round_idem (x : Q) : round (round x) == round x.
Proof.
  destruct (round_cases x) as [[Hx E] | [[Hx E] | [Hx E]]]; rewrite E.
  - pose proof (round_pos_pos x Hx) as Hp.
    destruct (round_cases (round_pos x)) as [[_ ->] | [[? _] | [? _]]]; try lra.
    by apply round_pos_idem.
  - assert (Hx' : 0 < - x) by lra.
    pose proof (round_pos_pos (- x) Hx') as Hp.
    destruct (round_cases (- round_pos (- x))) as [[? _] | [[_ ->] | [? _]]];
      try lra.
    assert (round_pos (- - round_pos (- x)) == round_pos (- x)) as ->; [|done].
    rewrite <- (round_pos_idem (- x) Hx') at 2.
    assert (Hrp : ∀ a b, 0 < a → a == b → round_pos a == round_pos b).
    { intros a b Ha Hab. apply Qle_antisym; apply round_pos_mono; lra. }
    apply Hrp; [lra|ring].
  - reflexivity.
Qed.

(** The values the arithmetic produces: the rationals that rounding leaves
    as they are. *)
Lemma add_0_l (x : Q) : round x == x → add 0 x == x.
Proof.
  intros H. unfold add. rewrite <- H at 2. apply round_comp. ring.
Qed.

Lemma add_mono (x x' y y' : Q) : x <= x' → y <= y' → add x y <= add x' y'.
Proof. intros Hx Hy. apply round_mono. lra. Qed.

End DoubleFacts.

(** * Properties of the transaction classifier *)

Import Engine.

(** [getUserSettings] answers with the stored object when there is one. *)
Lemma getUserSettings_known chatId (t : tracker) s :
  userSettings t !! chatId = Some s → getUserSettings chatId t = (s, t).
Proof. intros H. unfold getUserSettings. by rewrite H. Qed.

(** The classifier on a transaction with metadata, in terms of the settings
    object [getUserSettings] answers with. *)
Lemma extractTokenInfoFromTx_meta getTokenMetadata m chatId walletAddress (t : tracker) :
  extractTokenInfoFromTx getTokenMetadata (Some {| meta := Some m |}) chatId
    walletAddress t
  = let '(settings, t') := getUserSettings chatId t in
    if QMicromega.Qlt_bool (solAmount_of m) (solThreshold settings) then (None, t')
    else
      let best := largest_increase walletAddress
                    (preBalanceMap_of walletAddress (preTokenBalances m))
                    (postTokenBalances m) in
      let tokenAddress := or_unknown best.1 in
      (Some {| tokenAddress := tokenAddress;
               tokenName :=
                 if decide (tokenAddress = "unknown") then "Unknown"
                 else match symbol (getTokenMetadata tokenAddress) with
                      | "" => "Unknown"
                      | sym => sym
                      end;
               tokenAmount := best.2;
               solAmount := solAmount_of m |}, t').
Proof.
  unfold extractTokenInfoFromTx, mbind, M_bind.
  destruct (getUserSettings chatId t) as [settings t'].
  destruct (QMicromega.Qlt_bool _ _); [done|].
  by destruct (largest_increase _ _ _).
Qed.

Ltac by_billion :=
  unfold Qdiv in *; change (/ 1000000000)%Q with (1 # 1000000000)%Q in *.

(** The conversion to SOL keeps the order of the lamport balances. *)
Lemma lamports_to_SOL_mono (a b : Z) :
  (a ≤ b)%Z → (lamports_to_SOL a <= lamports_to_SOL b)%Q.
Proof.
  intros H. unfold lamports_to_SOL, Double.div. apply round_mono.
  apply Qmult_le_compat_r; [by rewrite <- Zle_Qle|done].
Qed.

(** The spend the classifier computes is zero when the fee payer's balance
    did not go down. *)
Lemma spent_zero (pre post : Z) :
  (pre ≤ post)%Z →
  (Qmax 0 (Double.sub (lamports_to_SOL pre) (lamports_to_SOL post)) == 0)%Q.
Proof.
  intros H. apply Q.max_l. unfold Double.sub. apply round_nonpos.
  pose proof (lamports_to_SOL_mono pre post H). lra.
Qed.

(** A balance in the range of lamports converts with an error of at most
    [2 ^ -19] SOL. *)
Lemma lamports_to_SOL_error (l : Z) :
  (0 ≤ l < 2 ^ 64)%Z →
  (inject_Z l / 1000000000 - (1 # 524288) <= lamports_to_SOL l
   ∧ lamports_to_SOL l <= inject_Z l / 1000000000 + (1 # 524288))%Q.
Proof.
  intros [Hl Hu]. rewrite Zle_Qle in Hl. rewrite Zlt_Qlt in Hu.
  change (inject_Z 0) with 0%Q in Hl.
  change (inject_Z (2 ^ 64)) with 18446744073709551616%Q in Hu.
  unfold lamports_to_SOL, Double.div.
  apply (round_error _ 35); change (2 ^ 35)%Q with 34359738368%Q;
    by_billion; lra.
Qed.

(** For balances in the range of lamports, the spend the classifier computes
    from a decrease is within [2 ^ -17] SOL of the decrease. *)
Lemma spent_near (pre post : Z) :
  (0 ≤ post)%Z → (post ≤ pre)%Z → (pre < 2 ^ 64)%Z →
  let spent := Qmax 0 (Double.sub (lamports_to_SOL pre) (lamports_to_SOL post)) in
  (inject_Z (pre - post) / 1000000000 - (1 # 131072) <= spent
   ∧ spent <= inject_Z (pre - post) / 1000000000 + (1 # 131072))%Q.
Proof.
  intros H0 Hle Hu spent.
  destruct (lamports_to_SOL_error pre) as [Ha1 Ha2]; [lia|].
  destruct (lamports_to_SOL_error post) as [Hb1 Hb2]; [lia|].
  rewrite Zle_Qle in H0. change (inject_Z 0) with 0%Q in H0.
  rewrite Zlt_Qlt in Hu.
  change (inject_Z (2 ^ 64)) with 18446744073709551616%Q in Hu.
  rewrite Zle_Qle in Hle.
  assert (Hd : (inject_Z (pre - post) == inject_Z pre - inject_Z post)%Q).
  { unfold Z.sub. by rewrite inject_Z_plus, inject_Z_opp. }
  destruct (round_error (lamports_to_SOL pre - lamports_to_SOL post) 36)
    as [Hs1 Hs2].
  { change (2 ^ 36)%Q with 68719476736%Q. by_billion. lra. }
  { change (2 ^ 36)%Q with 68719476736%Q. by_billion. lra. }
  change (2 ^ (36 - 54))%Q with (1 # 262144)%Q in Hs1, Hs2.
  fold (Double.sub (lamports_to_SOL pre) (lamports_to_SOL post)) in Hs1, Hs2.
  subst spent. set (v := Double.sub _ _) in *.
  set (a := lamports_to_SOL pre) in *. set (b := lamports_to_SOL post) in *.
  clearbody v a b. by_billion.
  destruct (Q.max_spec 0 v) as [[? ->] | [? ->]]; split; lra.
Qed.

(** C5. The classifier computes [spent = max(0, preBalance - postBalance)]
    from the balances at index 0, converted to SOL, in the arithmetic of
    the program, and answers [null] whenever [spent] is below the
    subscriber's [solThreshold], whatever the token balances are; a signal
    it does emit carries [spent].  A decrease of 0.2 SOL, between balances
    in the range of lamports, under a threshold of 0.5 SOL yields no
    signal. *)
Theorem classifier_rejects_below_threshold
    (getTokenMetadata : string → token_metadata) (t : tracker) (chatId : Z)
    (walletAddress : string) (m : tx_meta) (pre post : balances) :
  preBalances m = Some pre →
  postBalances m = Some post →
  let settings := (getUserSettings chatId t).1 in
  let spent :=
    Qmax 0 (Double.sub (lamports_to_SOL (balance0 pre))
                       (lamports_to_SOL (balance0 post))) in
  let result :=
    (extractTokenInfoFromTx getTokenMetadata (Some {| meta := Some m |})
       chatId walletAddress t).1 in
  ((spent < solThreshold settings)%Q → result = None)
  ∧ (∀ info, result = Some info →
       solAmount info = spent ∧ ¬ (spent < solThreshold settings)%Q)
  ∧ ((0 ≤ balance0 post)%Z → (balance0 pre < 2 ^ 64)%Z →
     (balance0 pre - balance0 post = 200000000)%Z →
     (solThreshold settings == 1 # 2)%Q → result = None).
Proof.
  intros Hpre Hpost settings spent result.
  assert (Hspent : solAmount_of m = spent).
  { unfold solAmount_of. by rewrite Hpre, Hpost. }
  assert (Hbelow : (spent < solThreshold settings)%Q → result = None).
  { intros Hlt. subst result settings.
    rewrite extractTokenInfoFromTx_meta.
    destruct (getUserSettings chatId t) as [s t']. simpl in *.
    rewrite Hspent.
    apply QMicromega.Qlt_bool_iff in Hlt. by rewrite Hlt. }
  split; [done|]. split.
  - subst result settings. rewrite extractTokenInfoFromTx_meta.
    destruct (getUserSettings chatId t) as [s t']. simpl.
    rewrite Hspent.
    destruct (QMicromega.Qlt_bool spent (solThreshold s)) eqn:Hlt; [done|].
    intros info [= <-]. simpl. split; [done|].
    intros H%QMicromega.Qlt_bool_iff. congruence.
  - intros H0 Hu Hdiff Hthr. apply Hbelow. rewrite Hthr.
    destruct (spent_near (balance0 pre) (balance0 post)) as [_ Hnear];
      [lia..|].
    fold spent in Hnear. rewrite Hdiff in Hnear.
    change (inject_Z 200000000 / 1000000000)%Q with (200000000 # 1000000000)%Q
      in Hnear.
    clearbody spent. lra.
Qed.

(** A transaction that takes 0.2 SOL from the fee payer and adds 1000 units
    of a token to the wallet, for a new subscriber (threshold 0.5 SOL). *)
Lemma classifier_rejects_below_threshold_witness :
  let m := {| preBalances := Some {| balance0 := 1000000000; balances_rest := [] |};
              postBalances := Some {| balance0 := 800000000; balances_rest := [] |};
              preTokenBalances := Some [];
              postTokenBalances :=
                Some [ {| owner := Some "walletA"; mint := "mintX";
                          uiTokenAmount := Some {| uiAmount := Some 1000%Q |} |} ] |} in
  (extractTokenInfoFromTx (λ _, {| symbol := "X"; name := "X" |})
     (Some {| meta := Some m |}) 7 "walletA" new_WalletTracker).1 = None.
Proof.
  intros m.
  refine (proj2 (proj2 (classifier_rejects_below_threshold _ new_WalletTracker 7
            "walletA" m _ _ eq_refl eq_refl)) _ _ _ _).
  - vm_compute. discriminate.
  - reflexivity.
  - reflexivity.
  - reflexivity.
Defined.

Lemma scan_step_other walletAddress pm best bal :
  owned_by walletAddress bal = false → scan_step walletAddress pm best bal = best.
Proof. intros H. unfold scan_step. by rewrite H. Qed.

Lemma scan_step_owned walletAddress pm best bal :
  owned_by walletAddress bal = true →
  scan_step walletAddress pm best bal
  = if QMicromega.Qlt_bool best.2 (diff_of pm bal)
    then (Some (mint bal), diff_of pm bal) else best.
Proof. intros H. unfold scan_step. by rewrite H. Qed.

(** The scan of the post-state balances, started from [(null, 0)]: either
    nothing owned rose and the pair is unchanged, or the pair names the
    first entry whose rise is the largest. *)
Lemma scan_largest walletAddress pm (bals : list token_balance) :
  let r := foldl (scan_step walletAddress pm) (None, 0%Q) bals in
  (r = (None, 0%Q)
   ∧ ∀ bal, bal ∈ bals → owned_by walletAddress bal = true →
       (diff_of pm bal <= 0)%Q)
  ∨ (∃ i best,
       bals !! i = Some best
       ∧ owned_by walletAddress best = true
       ∧ r = (Some (mint best), diff_of pm best)
       ∧ (0 < diff_of pm best)%Q
       ∧ (∀ bal, bal ∈ bals → owned_by walletAddress bal = true →
            (diff_of pm bal <= diff_of pm best)%Q)
       ∧ (∀ j bal, j < i → bals !! j = Some bal →
            owned_by walletAddress bal = true →
            (diff_of pm bal < diff_of pm best)%Q)).
Proof.
  induction bals as [|x bals IH] using rev_ind; intros r.
  { left. split; [done|]. intros bal Hin. by apply elem_of_nil in Hin. }
  subst r. rewrite foldl_snoc.
  destruct (owned_by walletAddress x) eqn:Hown.
  - destruct IH as [[Hr Hle] | (i & best & Hi & Hbo & Hr & Hpos & Hmax & Hfirst)];
      rewrite scan_step_owned, Hr by done; cbn [snd].
    + destruct (QMicromega.Qlt_bool 0 (diff_of pm x)) eqn:Hlt.
      * apply QMicromega.Qlt_bool_iff in Hlt. right.
        exists (length bals), x. split_and!; try done.
        -- by apply list_lookup_middle.
        -- intros bal [Hin | ->%list_elem_of_singleton]%elem_of_app Hb.
           ++ specialize (Hle bal Hin Hb). lra.
           ++ lra.
        -- intros j bal Hj Hjb Hb. rewrite lookup_app_l in Hjb by done.
           apply list_elem_of_lookup_2 in Hjb. specialize (Hle bal Hjb Hb). lra.
      * left. split; [done|].
        assert (¬ (0 < diff_of pm x)%Q) as Hn.
        { intros H%QMicromega.Qlt_bool_iff. congruence. }
        intros bal [Hin | ->%list_elem_of_singleton]%elem_of_app Hb.
        -- by apply Hle.
        -- lra.
    + right. destruct (QMicromega.Qlt_bool (diff_of pm best) (diff_of pm x)) eqn:Hlt.
      * apply QMicromega.Qlt_bool_iff in Hlt.
        exists (length bals), x. split_and!; try done.
        -- by apply list_lookup_middle.
        -- lra.
        -- intros bal [Hin | ->%list_elem_of_singleton]%elem_of_app Hb.
           ++ specialize (Hmax bal Hin Hb). lra.
           ++ lra.
        -- intros j bal Hj Hjb Hb. rewrite lookup_app_l in Hjb by done.
           apply list_elem_of_lookup_2 in Hjb. specialize (Hmax bal Hjb Hb). lra.
      * assert (¬ (diff_of pm best < diff_of pm x)%Q) as Hn.
        { intros H%QMicromega.Qlt_bool_iff. congruence. }
        exists i, best. split_and!; try done.
        -- apply lookup_app_l_Some. done.
        -- intros bal [Hin | ->%list_elem_of_singleton]%elem_of_app Hb.
           ++ by apply Hmax.
           ++ lra.
        -- intros j bal Hj Hjb Hb.
           assert (j < length bals) by (apply lookup_lt_Some in Hi; lia).
           rewrite lookup_app_l in Hjb by done. by eapply Hfirst.
  - rewrite scan_step_other by done.
    destruct IH as [[Hr Hle] | (i & best & Hi & Hbo & Hr & Hpos & Hmax & Hfirst)].
    + left. split; [done|].
      intros bal [Hin | ->%list_elem_of_singleton]%elem_of_app Hb;
        [by apply Hle | congruence].
    + right. exists i, best. split_and!; try done.
      * by apply lookup_app_l_Some.
      * intros bal [Hin | ->%list_elem_of_singleton]%elem_of_app Hb;
          [by apply Hmax | congruence].
      * intros j bal Hj Hjb Hb.
        assert (j < length bals) by (apply lookup_lt_Some in Hi; lia).
        rewrite lookup_app_l in Hjb by done. by eapply Hfirst.
Qed.

(** Step 3 in closed form: the pre-transaction amount of a mint is that of
    the last pre-state entry of the wallet for it. *)
Lemma preBalanceMap_of_lookup walletAddress (pre : list token_balance) (mt : string) :
  preBalanceMap_of walletAddress (Some pre) !! mt
  = ui_amount <$>
      last (filter (λ bal, owned_by walletAddress bal = true ∧ mint bal = mt) pre).
Proof.
  unfold preBalanceMap_of.
  induction pre as [|x pre IH] using rev_ind; [done|].
  rewrite foldl_snoc, filter_app, filter_cons, filter_nil.
  destruct (owned_by walletAddress x) eqn:Hown.
  - destruct (decide (mint x = mt)) as [<-|Hne].
    + rewrite lookup_insert_eq, decide_True by done. by rewrite last_snoc.
    + rewrite lookup_insert_ne, decide_False by (try intros [? ?]; done).
      by rewrite app_nil_r.
  - rewrite decide_False by (intros [? ?]; congruence). by rewrite app_nil_r.
Qed.

Lemma owned_by_owns walletAddress bal :
  owned_by walletAddress bal = true ↔ Spec.owns walletAddress bal.
Proof. unfold owned_by, Spec.owns. by rewrite bool_decide_eq_true. Qed.

Lemma ui_amount_amount bal : ui_amount bal = Spec.amount bal.
Proof.
  unfold ui_amount, Spec.amount.
  by destruct (uiTokenAmount bal) as [[[q|]]|].
Qed.

(** The difference the scan computes for a post-state entry is the delta of
    the specification. *)
Lemma diff_of_delta walletAddress (pre : option (list token_balance)) bal :
  diff_of (preBalanceMap_of walletAddress pre) bal
  = Spec.delta walletAddress (default [] pre) bal.
Proof.
  unfold diff_of, Spec.delta, Spec.preAmount. rewrite ui_amount_amount. f_equal.
  destruct pre as [pre|]; [|unfold preBalanceMap_of; by rewrite lookup_empty].
  rewrite preBalanceMap_of_lookup. cbn [default].
  assert (filter (λ b, owned_by walletAddress b = true ∧ mint b = mint bal) pre
          = filter (λ b, Spec.owns walletAddress b ∧ mint b = mint bal) pre) as ->.
  { apply list_filter_iff. intros b. by rewrite owned_by_owns. }
  destruct (last _) as [b|]; cbn; [apply ui_amount_amount|done].
Qed.

(** C6. When the spend passes the threshold, the classifier reports, among
    the post-state token balances owned by the wallet, the mint with the
    largest strictly positive [postAmount - preAmount(mint)], where the
    pre-amount of a mint is that of the wallet's pre-state balance for it;
    of several entries with that delta the first-listed wins; without a
    positive delta it reports ["unknown"] with amount zero. *)
Theorem classifier_selects_largest_increase
    (getTokenMetadata : string → token_metadata) (t : tracker) (chatId : Z)
    (walletAddress : string) (m : tx_meta) :
  let settings := (getUserSettings chatId t).1 in
  let pre := default [] (preTokenBalances m) in
  let post := default [] (postTokenBalances m) in
  ¬ (solAmount_of m < solThreshold settings)%Q →
  (∀ bal, bal ∈ post → mint bal ≠ "") →
  ∃ info,
    (extractTokenInfoFromTx getTokenMetadata (Some {| meta := Some m |})
       chatId walletAddress t).1 = Some info
    ∧ Spec.acquired_asset walletAddress pre post
        (tokenAddress info) (tokenAmount info).
Proof.
  intros settings pre post Hpass Hmint.
  rewrite extractTokenInfoFromTx_meta. subst settings.
  destruct (getUserSettings chatId t) as [s t']. cbn [fst] in *.
  destruct (QMicromega.Qlt_bool _ _) eqn:Hlt.
  { by apply QMicromega.Qlt_bool_iff in Hlt. }
  eexists. split; [done|]. cbn [tokenAddress tokenAmount].
  assert (Hscan : largest_increase walletAddress
            (preBalanceMap_of walletAddress (preTokenBalances m))
            (postTokenBalances m)
          = foldl (scan_step walletAddress
                     (preBalanceMap_of walletAddress (preTokenBalances m)))
                  (None, 0%Q) post).
  { subst post. unfold largest_increase. by destruct (postTokenBalances m). }
  rewrite Hscan. unfold Spec.acquired_asset. cbv zeta.
  assert (Hd : ∀ bal, Spec.delta walletAddress pre bal
                      = diff_of (preBalanceMap_of walletAddress (preTokenBalances m))
                          bal).
  { intros bal. subst pre. by rewrite diff_of_delta. }
  destruct (scan_largest walletAddress
              (preBalanceMap_of walletAddress (preTokenBalances m)) post)
    as [[-> Hle] | (i & best & Hi & Hbo & -> & Hpos & Hmax & Hfirst)];
    cbn [fst snd or_unknown].
  - split; [done|].
    intros (bal & Hin & Hb%owned_by_owns & Hgt). rewrite Hd in Hgt.
    specialize (Hle bal Hin Hb). lra.
  - split.
    + intros Hle.
      specialize (Hle best (list_elem_of_lookup_2 _ _ _ Hi)
                    (proj1 (owned_by_owns _ _) Hbo)).
      rewrite Hd in Hle. lra.
    + intros _. exists i, best. rewrite !Hd. split_and!; try done.
      * by apply owned_by_owns.
      * specialize (Hmint best (list_elem_of_lookup_2 _ _ _ Hi)).
        by destruct (mint best).
      * intros bal Hin Hb%owned_by_owns. rewrite Hd. by apply Hmax.
      * intros j bal Hj Hjb Hb%owned_by_owns. rewrite Hd. by eapply Hfirst.
Qed.

(** The wallet, holding 1 unit of [mintX], gains 5 units of [mintX] and
    then 5 units of [mintY], and another owner gains more of [mintZ]: the
    classifier reports [mintX] with amount 5. *)
Lemma classifier_selects_largest_increase_witness :
  let entry o mt q :=
    {| owner := Some o; mint := mt;
       uiTokenAmount := Some {| uiAmount := Some q |} |} in
  let m := {| preBalances := Some {| balance0 := 2000000000; balances_rest := [] |};
              postBalances := Some {| balance0 := 1000000000; balances_rest := [] |};
              preTokenBalances := Some [entry "walletA" "mintX" 1%Q];
              postTokenBalances :=
                Some [entry "walletA" "mintX" 6%Q; entry "walletA" "mintY" 5%Q;
                      entry "walletB" "mintZ" 100%Q] |} in
  ∃ info,
    (extractTokenInfoFromTx (λ _, {| symbol := "X"; name := "X" |})
       (Some {| meta := Some m |}) 7 "walletA" new_WalletTracker).1 = Some info
    ∧ Spec.acquired_asset "walletA"
        (default [] (preTokenBalances m)) (default [] (postTokenBalances m))
        (tokenAddress info) (tokenAmount info).
Proof.
  intros entry m.
  apply (classifier_selects_largest_increase _ new_WalletTracker 7 "walletA" m).
  - intros H. vm_compute in H. discriminate.
  - intros bal Hin. simpl in Hin.
    repeat (apply elem_of_cons in Hin as [-> | Hin]); try done.
    by apply elem_of_nil in Hin.
Defined.

Example classifier_tie_first_listed :
  let entry o mt q :=
    {| owner := Some o; mint := mt;
       uiTokenAmount := Some {| uiAmount := Some q |} |} in
  largest_increase "walletA"
    (preBalanceMap_of "walletA" (Some [entry "walletA" "mintX" 1%Q]))
    (Some [entry "walletA" "mintX" 6%Q; entry "walletA" "mintY" 5%Q;
           entry "walletB" "mintZ" 100%Q])
  = (Some "mintX", Double.sub 6 1).
Proof. vm_compute. reflexivity. Qed.

(** * Properties of the signal aggregator *)

(** What the sweep keeps. *)
Lemma sweep_lookup (now : Z) (m : gmap string window) (k : string) (d : window) :
  sweep now m !! k = Some d ↔ m !! k = Some d ∧ (now - timestamp d ≤ 3600000)%Z.
Proof.
  unfold sweep. rewrite map_lookup_filter_Some. cbn [snd]. split.
  - intros [? ?]. split; [done|lia].
  - intros [? ?]. split; [done|lia].
Qed.

(** Ingesting a signal, for a subscriber whose settings object exists:
    the window is created if absent, the buyer's total is updated, the alert
    is handed off and the window deleted if the condition holds, and the
    store is swept. *)
Lemma processTransaction_signal getTokenMetadata sig chatId walletAddress tx info
    now_insert now_sweep (t : tracker) settings :
  userSettings t !! chatId = Some settings →
  let key := key_of chatId (tokenAddress info) in
  let txData :=
    record_buy walletAddress (solAmount info)
      (default {| buyers := []; timestamp := now_insert; firstSeen := now_insert |}
               (recentTransactions t !! key)) in
  processTransaction getTokenMetadata sig chatId walletAddress tx (Some info)
    now_insert now_sweep t
  = ((), if alert_due settings txData
         then set_recentTransactions
                (λ _, sweep now_sweep (delete key (recentTransactions t)))
                (emit (EvAlert chatId (tokenAddress info) (tokenName info)
                         (buyers txData) (total_spent (buyers txData))) t)
         else set_recentTransactions
                (λ _, sweep now_sweep (<[key := txData]> (recentTransactions t)))
                t).
Proof.
  intros Hs key txData.
  unfold processTransaction, mbind, M_bind, mret, M_ret.
  rewrite (getUserSettings_known _ _ _ Hs).
  unfold gets, modify, sendAlert. fold key. subst txData.
  destruct (recentTransactions t !! key) as [old|]; cbn [default];
    destruct (alert_due settings _);
    cbv beta iota delta [modify set_recentTransactions emit heap userSettings
      recentTransactions monitoringIntervals intervals trace];
    by rewrite ?delete_insert_eq.
Qed.

(** C2, as the code has it. On every ingest of a signal the sweep deletes
    exactly the windows whose [timestamp] lies more than one hour before the
    sweep, and [timestamp] is the time the window was created: a later
    signal for the window leaves it as it is. *)
Theorem sweep_expires_by_creation_time
    (getTokenMetadata : string → token_metadata) (sig : string) (chatId : Z)
    (walletAddress : string) (tx : option transaction) (info : token_info)
    (now_insert now_sweep : Z) (t : tracker) (settings : settings) :
  userSettings t !! chatId = Some settings →
  let key := key_of chatId (tokenAddress info) in
  let txData :=
    record_buy walletAddress (solAmount info)
      (default {| buyers := []; timestamp := now_insert; firstSeen := now_insert |}
               (recentTransactions t !! key)) in
  let t' := (processTransaction getTokenMetadata sig chatId walletAddress tx
               (Some info) now_insert now_sweep t).2 in
  timestamp txData
    = match recentTransactions t !! key with
      | Some old => timestamp old
      | None => now_insert
      end
  ∧ ∀ k d,
      recentTransactions t' !! k = Some d
      ↔ (now_sweep - timestamp d ≤ 3600000)%Z
        ∧ if decide (k = key)
          then alert_due settings txData = false ∧ d = txData
          else recentTransactions t !! k = Some d.
Proof.
  intros Hs key txData t'. split.
  { subst txData. by destruct (recentTransactions t !! key). }
  intros k d. subst t'.
  rewrite (processTransaction_signal _ _ _ _ _ _ _ _ _ _ Hs).
  fold key. fold txData.
  destruct (alert_due settings txData); cbn [snd recentTransactions
    set_recentTransactions]; rewrite sweep_lookup.
  - destruct (decide (k = key)) as [->|Hne].
    + rewrite lookup_delete_eq. intuition congruence.
    + rewrite lookup_delete_ne by done. tauto.
  - destruct (decide (k = key)) as [->|Hne].
    + rewrite lookup_insert_eq. intuition congruence.
    + rewrite lookup_insert_ne by done. tauto.
Qed.

Lemma sweep_lookup_None (now : Z) (m : gmap string window) (k : string) :
  m !! k = None → sweep now m !! k = None.
Proof.
  intros H. apply eq_None_not_Some. intros [d Hd].
  apply sweep_lookup in Hd as [Hd _]. congruence.
Qed.

Lemma sweep_lookup_fresh (now : Z) (m : gmap string window) (k : string) d :
  m !! k = Some d → (now - timestamp d ≤ 3600000)%Z → sweep now m !! k = Some d.
Proof. intros. by apply sweep_lookup. Qed.

(** The alert condition, spelled out. *)
Lemma alert_due_iff settings txData :
  alert_due settings txData = true
  ↔ (requiredWallets settings ≤ Z.of_nat (length (buyers txData)))%Z
    ∧ (solThreshold settings <= total_spent (buyers txData))%Q.
Proof.
  unfold alert_due. rewrite andb_true_iff, Z.leb_le, Qle_bool_iff. done.
Qed.

(** A signal that leaves the window short of buyers: no alert, and the
    window stays if it is young enough at the sweep. *)
Lemma processTransaction_short getTokenMetadata sig chatId walletAddress tx info
    now_insert now_sweep (t : tracker) settings :
  userSettings t !! chatId = Some settings →
  let key := key_of chatId (tokenAddress info) in
  let txData :=
    record_buy walletAddress (solAmount info)
      (default {| buyers := []; timestamp := now_insert; firstSeen := now_insert |}
               (recentTransactions t !! key)) in
  let t' := (processTransaction getTokenMetadata sig chatId walletAddress tx
               (Some info) now_insert now_sweep t).2 in
  (Z.of_nat (length (buyers txData)) < requiredWallets settings)%Z →
  (now_sweep - timestamp txData ≤ 3600000)%Z →
  userSettings t' = userSettings t
  ∧ trace t' = trace t
  ∧ recentTransactions t' !! key = Some txData.
Proof.
  intros Hs key txData t' Hshort Hyoung. subst t'.
  rewrite (processTransaction_signal _ _ _ _ _ _ _ _ _ _ Hs).
  fold key. fold txData.
  assert (alert_due settings txData = false) as ->.
  { apply not_true_is_false. intros [? _]%alert_due_iff. lia. }
  cbn. split_and!; try done.
  apply sweep_lookup_fresh; [|done]. by rewrite lookup_insert_eq.
Qed.

(** A signal that completes the quorum and the threshold: one alert with the
    per-wallet map and the total, and the window is gone. *)
Lemma processTransaction_alert getTokenMetadata sig chatId walletAddress tx info
    now_insert now_sweep (t : tracker) settings :
  userSettings t !! chatId = Some settings →
  let key := key_of chatId (tokenAddress info) in
  let txData :=
    record_buy walletAddress (solAmount info)
      (default {| buyers := []; timestamp := now_insert; firstSeen := now_insert |}
               (recentTransactions t !! key)) in
  let t' := (processTransaction getTokenMetadata sig chatId walletAddress tx
               (Some info) now_insert now_sweep t).2 in
  (requiredWallets settings ≤ Z.of_nat (length (buyers txData)))%Z →
  (solThreshold settings <= total_spent (buyers txData))%Q →
  userSettings t' = userSettings t
  ∧ trace t' = trace t ++ [EvAlert chatId (tokenAddress info) (tokenName info)
                             (buyers txData) (total_spent (buyers txData))]
  ∧ recentTransactions t' !! key = None.
Proof.
  intros Hs key txData t' Hquorum Hspent. subst t'.
  rewrite (processTransaction_signal _ _ _ _ _ _ _ _ _ _ Hs).
  fold key. fold txData.
  assert (alert_due settings txData = true) as -> by by apply alert_due_iff.
  cbn. split_and!; try done.
  apply sweep_lookup_None. by rewrite lookup_delete_eq.
Qed.

Lemma buyers_get_set k v (b : list (string * Q)) :
  buyers_get k (buyers_set k v b) = Some v.
Proof.
  induction b as [|[k' v'] b IH]; cbn [buyers_set buyers_get].
  - by rewrite decide_True.
  - destruct (decide (k' = k)) as [->|Hne]; cbn [buyers_get].
    + by rewrite decide_True.
    + by rewrite decide_False.
Qed.

Lemma buyers_get_set_ne k k' v (b : list (string * Q)) :
  k' ≠ k → buyers_get k' (buyers_set k v b) = buyers_get k' b.
Proof.
  intros Hne. induction b as [|[k0 v0] b IH]; cbn [buyers_set buyers_get].
  - by rewrite decide_False.
  - destruct (decide (k0 = k)) as [->|Hne0]; cbn [buyers_get].
    + by rewrite !decide_False.
    + by rewrite IH.
Qed.

Lemma buyers_set_keys k v (b : list (string * Q)) :
  (buyers_set k v b).*1
  = match buyers_get k b with Some _ => b.*1 | None => b.*1 ++ [k] end.
Proof.
  induction b as [|[k' v'] b IH]; cbn [buyers_set buyers_get]; [done|].
  destruct (decide (k' = k)) as [->|Hne]; [done|].
  cbn [fmap list_fmap fst]. fold (fst <$> buyers_set k v b). fold (fst <$> b).
  rewrite IH. by destruct (buyers_get k b).
Qed.

Lemma buyers_get_None k (b : list (string * Q)) :
  buyers_get k b = None ↔ k ∉ b.*1.
Proof.
  induction b as [|[k' v'] b IH]; cbn [buyers_get].
  - split; [|done]. intros _ H. by apply elem_of_nil in H.
  - cbn [fmap list_fmap fst]. fold (fst <$> b). rewrite not_elem_of_cons.
    destruct (decide (k' = k)) as [->|Hne].
    + split; [done|]. by intros [? _].
    + rewrite IH. split; [|tauto]. intros H. split; [congruence|done].
Qed.

(** The list of buyers, read as a map. *)
Lemma buyers_get_lookup k (b : list (string * Q)) :
  buyers_get k b = (list_to_map b : gmap string Q) !! k.
Proof.
  induction b as [|[k' v'] b IH]; cbn [buyers_get list_to_map foldr]; [done|].
  destruct (decide (k' = k)) as [->|Hne].
  - by rewrite lookup_insert_eq.
  - by rewrite lookup_insert_ne.
Qed.

Lemma buyers_set_insert k v (b : list (string * Q)) :
  (list_to_map (buyers_set k v b) : gmap string Q) = <[k := v]> (list_to_map b).
Proof.
  induction b as [|[k' v'] b IH]; cbn [buyers_set list_to_map foldr]; [done|].
  destruct (decide (k' = k)) as [->|Hne]; cbn [list_to_map foldr fst snd].
  - by rewrite insert_insert_eq.
  - rewrite IH. by apply insert_insert_ne.
Qed.

Lemma buyers_set_length k v (b : list (string * Q)) :
  length (buyers_set k v b)
  = length b + (if decide (k ∈ b.*1) then 0 else 1).
Proof.
  rewrite <- (length_fmap fst (buyers_set _ _ _)), buyers_set_keys.
  destruct (buyers_get k b) eqn:E.
  - rewrite length_fmap, decide_True; [lia|].
    destruct (decide (k ∈ b.*1)) as [|Hn]; [done|].
    apply buyers_get_None in Hn. congruence.
  - rewrite length_app, length_fmap, decide_False; [done|].
    by apply buyers_get_None.
Qed.

(** The total the code computes is the sum of the specification. *)
Lemma total_spent_total (b : list (string * Q)) : total_spent b = Spec.total b.
Proof. unfold total_spent, Spec.total. by rewrite foldl_fmap. Qed.

(** The update of the buyers is the one of the specification. *)
Lemma record_buy_add_buy w a (txData : window) :
  NoDup (buyers txData).*1 →
  buyers (record_buy w a txData) = Spec.add_buy w a (buyers txData).
Proof.
  unfold record_buy, Spec.add_buy. cbn [buyers].
  set (F := λ entry : string * Q,
              if decide (entry.1 = w) then (w, Double.add entry.2 a) else entry).
  induction (buyers txData) as [|[k v] b IH]; intros Hnd.
  { reflexivity. }
  apply NoDup_cons in Hnd as [Hk Hnd]. specialize (IH Hnd).
  destruct (decide (w ∈ ((k, v) :: b).*1)) as [Hin|Hnin];
    cbn [buyers_get buyers_set]; destruct (decide (k = w)) as [->|Hne].
  - cbn [or_zero]. rewrite fmap_cons. unfold F at 1. cbn [fst snd].
    rewrite decide_True by done. f_equal.
    clear IH Hnd Hin. induction b as [|[k' v'] b IHb]; [done|].
    apply not_elem_of_cons in Hk as [Hne Hk].
    rewrite fmap_cons. unfold F at 1. cbn [fst snd].
    rewrite decide_False by done. f_equal. by apply IHb.
  - apply elem_of_cons in Hin as [Hin|Hin]; [done|].
    rewrite decide_True in IH by done.
    rewrite IH, fmap_cons. unfold F at 2. cbn [fst snd].
    by rewrite decide_False by done.
  - exfalso. apply Hnin. by left.
  - assert (w ∉ b.*1) as Hb by (intros ?; apply Hnin; by right).
    rewrite decide_False in IH by done. by rewrite IH.
Qed.

(** C3. For a subscriber with [requiredWallets = 3] and
    [solThreshold = 0.5], three buy signals for one asset from three distinct
    wallets with a total spend of at least 0.5 SOL, the first two of them
    swept within the hour after the first created the window, dispatch
    exactly one alert, carrying the asset, the per-wallet spend map and the
    total, and delete the window; a fourth signal for the asset then creates
    a fresh window.  For any subscriber and signal the alert is dispatched
    exactly when [buyerCount >= requiredWallets] and
    [totalSpent >= solThreshold], counted over the window of the subscriber
    and the asset with the spend of the signal added to the running total of
    its wallet; the alert carries that map and that total. *)
Theorem three_buyers_trigger_one_alert
    (getTokenMetadata : string → token_metadata) (t : tracker) (chatId : Z)
    (settings : settings) (asset : string)
    (w1 w2 w3 : string) (info1 info2 info3 : token_info)
    (sig1 sig2 sig3 : string) (tx1 tx2 tx3 : option transaction)
    (n1 s1 n2 s2 n3 s3 : Z) :
  let ingest sig w tx info n s u :=
    (processTransaction getTokenMetadata sig chatId w tx (Some info) n s u).2 in
  let key_for asset := pretty chatId +:+ ":" +:+ asset in
  (∀ u su sig w tx info n s,
     userSettings u !! chatId = Some su →
     let window := recentTransactions u !! key_for (tokenAddress info) in
     let before := from_option buyers [] window in
     NoDup before.*1 →
     let perWallet := Spec.add_buy w (solAmount info) before in
     let buyerCount := length perWallet in
     let totalSpent := Spec.total perWallet in
     let u' := ingest sig w tx info n s u in
     ((requiredWallets su ≤ Z.of_nat buyerCount)%Z
      ∧ (solThreshold su <= totalSpent)%Q →
      trace u' = trace u ++ [EvAlert chatId (tokenAddress info) (tokenName info)
                               perWallet totalSpent]
      ∧ recentTransactions u' !! key_for (tokenAddress info) = None)
     ∧ (¬ ((requiredWallets su ≤ Z.of_nat buyerCount)%Z
           ∧ (solThreshold su <= totalSpent)%Q) →
        trace u' = trace u
        ∧ ∀ d, recentTransactions u' !! key_for (tokenAddress info) = Some d →
               buyers d = perWallet
               ∧ timestamp d = from_option timestamp n window))
  ∧ (userSettings t !! chatId = Some settings →
     requiredWallets settings = 3%Z →
     (solThreshold settings == 1 # 2)%Q →
     recentTransactions t !! key_for asset = None →
     w1 ≠ w2 → w1 ≠ w3 → w2 ≠ w3 →
     tokenAddress info1 = asset → tokenAddress info2 = asset →
     tokenAddress info3 = asset →
     let perWallet := [(w1, Double.add 0 (solAmount info1));
                       (w2, Double.add 0 (solAmount info2));
                       (w3, Double.add 0 (solAmount info3))] in
     (1 # 2 <= Spec.total perWallet)%Q →
     (s1 - n1 ≤ 3600000)%Z → (s2 - n1 ≤ 3600000)%Z →
     let t1 := ingest sig1 w1 tx1 info1 n1 s1 t in
     let t2 := ingest sig2 w2 tx2 info2 n2 s2 t1 in
     let t3 := ingest sig3 w3 tx3 info3 n3 s3 t2 in
     trace t1 = trace t
     ∧ trace t2 = trace t
     ∧ trace t3 = trace t ++ [EvAlert chatId asset (tokenName info3) perWallet
                                (Spec.total perWallet)]
     ∧ recentTransactions t3 !! key_for asset = None
     ∧ ∀ sig4 w4 tx4 info4 n4 s4,
         tokenAddress info4 = asset →
         (s4 - n4 ≤ 3600000)%Z →
         let t4 := ingest sig4 w4 tx4 info4 n4 s4 t3 in
         trace t4 = trace t3
         ∧ recentTransactions t4 !! key_for asset
           = Some {| buyers := [(w4, Double.add 0 (solAmount info4))];
                     timestamp := n4; firstSeen := n4 |}).
Proof.
  intros ingest key_for.
  change key_for with (key_of chatId). clear key_for.
  split.
  { intros u su sig w tx info n s Hsu window before Hnd perWallet buyerCount
      totalSpent u'.
    subst u' ingest. cbv beta.
    rewrite (processTransaction_signal _ _ _ _ _ _ _ _ _ _ Hsu). cbv zeta.
    fold window.
    set (old := default {| buyers := []; timestamp := n; firstSeen := n |} window).
    assert (Hold : buyers old = before).
    { subst old before. by destruct window. }
    assert (Hstamp : timestamp old = from_option timestamp n window).
    { subst old. by destruct window. }
    set (txData := record_buy w (solAmount info) old).
    assert (Hb : buyers txData = perWallet).
    { subst txData perWallet. rewrite record_buy_add_buy; by rewrite Hold. }
    assert (Htot : total_spent (buyers txData) = totalSpent).
    { subst totalSpent. by rewrite total_spent_total, Hb. }
    split.
    - intros [Hq Ht].
      assert (alert_due su txData = true) as ->.
      { apply alert_due_iff. rewrite Htot, Hb. done. }
      cbn [snd trace emit set_recentTransactions recentTransactions].
      rewrite Htot, Hb. split; [done|].
      apply sweep_lookup_None. by rewrite lookup_delete_eq.
    - intros Hn.
      assert (alert_due su txData = false) as ->.
      { apply not_true_is_false. intros H%alert_due_iff.
        rewrite Htot, Hb in H. done. }
      cbn [snd trace set_recentTransactions recentTransactions].
      split; [done|]. intros d [Hd _]%sweep_lookup.
      rewrite lookup_insert_eq in Hd. injection Hd as <-. done. }
  set (key := key_of chatId asset).
  intros Hs Hreq Hthr Hnone H12 H13 H23 <- Ha2 Ha3 perWallet Htotal Hs1 Hs2 t1 t2 t3.
  subst ingest. cbv beta in *.
  (* first signal *)
  pose proof (processTransaction_short getTokenMetadata sig1 chatId w1 tx1 info1
                n1 s1 t settings Hs) as H1.
  cbv zeta in H1. fold key in H1. rewrite Hnone in H1.
  change (processTransaction _ sig1 _ _ _ _ _ _ t).2 with t1 in H1.
  clearbody t1. cbn in H1.
  destruct H1 as (Hu1 & Htr1 & Hw1); [lia..|].
  (* second signal *)
  assert (Hs' : userSettings t1 !! chatId = Some settings) by by rewrite Hu1.
  pose proof (processTransaction_short getTokenMetadata sig2 chatId w2 tx2 info2
                n2 s2 t1 settings Hs') as H2.
  cbv zeta in H2. rewrite Ha2 in H2. fold key in H2. rewrite Hw1 in H2.
  change (processTransaction _ sig2 _ _ _ _ _ _ t1).2 with t2 in H2.
  clearbody t2.
  repeat (progress (cbn in H2; rewrite ?decide_False in H2 by done)).
  destruct H2 as (Hu2 & Htr2 & Hw2); [lia..|].
  (* third signal *)
  assert (Hs'' : userSettings t2 !! chatId = Some settings) by by rewrite Hu2, Hu1.
  pose proof (processTransaction_alert getTokenMetadata sig3 chatId w3 tx3 info3
                n3 s3 t2 settings Hs'') as H3.
  cbv zeta in H3. rewrite Ha3 in H3. fold key in H3. rewrite Hw2 in H3.
  change (processTransaction _ sig3 _ _ _ _ _ _ t2).2 with t3 in H3.
  clearbody t3.
  repeat (progress (cbn -[total_spent] in H3; rewrite ?decide_False in H3 by done)).
  fold perWallet in H3. rewrite total_spent_total in H3.
  destruct H3 as (Hu3 & Htr3 & Hw3); [lia| by rewrite Hthr |].
  split_and!; try done.
  - by rewrite Htr2.
  - by rewrite Htr3, Htr2, Htr1.
  - intros sig4 w4 tx4 info4 n4 s4 Ha4 Hs4 t4.
    assert (Hs3 : userSettings t3 !! chatId = Some settings)
      by by rewrite Hu3, Hu2, Hu1.
    pose proof (processTransaction_short getTokenMetadata sig4 chatId w4 tx4 info4
                  n4 s4 t3 settings Hs3) as H4.
    cbv zeta in H4. rewrite Ha4 in H4. fold key in H4. rewrite Hw3 in H4.
    change (processTransaction _ sig4 _ _ _ _ _ _ t3).2 with t4 in H4.
    clearbody t4. cbn in H4.
    destruct H4 as (Hu4 & Htr4 & Hw4); [lia..|]. done.
Qed.

(** The same, at a concrete subscriber and three signals of 0.6 SOL. *)
Lemma three_buyers_trigger_one_alert_witness :
  let spent := Double.round (6 # 10) in
  let ingest sig w n u :=
    (processTransaction Scenario.no_metadata sig 1 w None
       (Some (Scenario.signal "mintX" spent)) n n u).2 in
  let t3 := ingest "sig3" "walletC" 1200000%Z
              (ingest "sig2" "walletB" 600000%Z
                 (ingest "sig1" "walletA" 0%Z Scenario.subscribed)) in
  let perWallet := [("walletA", Double.add 0 spent); ("walletB", Double.add 0 spent);
                    ("walletC", Double.add 0 spent)] in
  trace t3 = [EvAlert 1 "mintX" "Unknown" perWallet (Spec.total perWallet)]
  ∧ recentTransactions t3 !! "1:mintX" = None.
Proof.
  intros spent ingest t3 perWallet.
  destruct (three_buyers_trigger_one_alert Scenario.no_metadata
              Scenario.subscribed 1 Scenario.settings1 "mintX"
              "walletA" "walletB" "walletC"
              (Scenario.signal "mintX" spent) (Scenario.signal "mintX" spent)
              (Scenario.signal "mintX" spent)
              "sig1" "sig2" "sig3" None None None
              0 0 600000 600000 1200000 1200000) as [_ H].
  destruct H as (_ & _ & Htrace & Hgone & _).
  - vm_compute. reflexivity.
  - reflexivity.
  - reflexivity.
  - vm_compute. reflexivity.
  - discriminate.
  - discriminate.
  - discriminate.
  - reflexivity.
  - reflexivity.
  - reflexivity.
  - vm_compute. discriminate.
  - lia.
  - lia.
  - exact (conj Htrace Hgone).
Defined.

(** C3, as stated, fails. Subscriber 1 has the default settings (three
    wallets, 0.5 SOL).  Wallets A, B and C buy [mintX] for 0.6 SOL each, at
    minutes 0, 61 and 62.  The second ingest adds wallet B to the window and
    its sweep deletes the window, created 61 minutes before; the third
    creates a new window with wallet C alone.  No alert is dispatched. *)
Lemma late_second_buyer_raises_no_alert :
  let spent := Double.round (6 # 10) in
  let ingest sig w n u :=
    (processTransaction Scenario.no_metadata sig 1 w None
       (Some (Scenario.signal "mintX" spent)) n n u).2 in
  let t1 := ingest "sig1" "walletA" 0%Z Scenario.subscribed in
  let t2 := ingest "sig2" "walletB" 3660000%Z t1 in
  let t3 := ingest "sig3" "walletC" 3720000%Z t2 in
  (requiredWallets <$> userSettings Scenario.subscribed !! 1%Z) = Some 3%Z
  ∧ (solThreshold <$> userSettings Scenario.subscribed !! 1%Z) = Some (1 # 2)%Q
  ∧ (buyers <$> recentTransactions t1 !! "1:mintX")
    = Some [("walletA", Double.add 0 spent)]
  ∧ recentTransactions t2 !! "1:mintX" = None
  ∧ (buyers <$> recentTransactions t3 !! "1:mintX")
    = Some [("walletC", Double.add 0 spent)]
  ∧ trace t3 = [].
Proof. vm_compute. repeat split; congruence. Qed.

(** C2, as stated, fails. Subscriber 1 (three wallets required): wallet A
    buys [mintX] at time 0, wallet B buys it 50 minutes later, and at minute
    61 wallet C buys another asset.  The window of [mintX] got its last
    signal 11 minutes before the third sweep, and that sweep deletes it. *)
Lemma sweep_deletes_recently_updated_window :
  let ingest sig w asset n u :=
    (processTransaction Scenario.no_metadata sig 1 w None
       (Some (Scenario.signal asset (6 # 10))) n n u).2 in
  let t1 := ingest "sig1" "walletA" "mintX" 0%Z Scenario.subscribed in
  let t2 := ingest "sig2" "walletB" "mintX" 3000000%Z t1 in
  let t3 := ingest "sig3" "walletC" "mintY" 3660000%Z t2 in
  (buyers <$> recentTransactions t1 !! key_of 1 "mintX")
    = Some [("walletA", Double.add 0 (6 # 10))]
  ∧ (buyers <$> recentTransactions t2 !! key_of 1 "mintX")
    = Some [("walletA", Double.add 0 (6 # 10)); ("walletB", Double.add 0 (6 # 10))]
  ∧ (3660000 - 3000000 ≤ 3600000)%Z
  ∧ recentTransactions t3 !! key_of 1 "mintX" = None
  ∧ trace t3 = [].
Proof. vm_compute. repeat split; congruence. Qed.

(** A first signal at the default settings, swept one second after the
    window was created: the window is kept. *)
Lemma sweep_expires_by_creation_time_witness :
  let info := Scenario.signal "mintX" (6 # 10) in
  let t' := (processTransaction Scenario.no_metadata "sig1" 1 "walletA" None
               (Some info) 0 1000 Scenario.subscribed).2 in
  recentTransactions t' !! key_of 1 "mintX"
  = Some (record_buy "walletA" (6 # 10)
            {| buyers := []; timestamp := 0; firstSeen := 0 |}).
Proof.
  intros info t'.
  apply (proj2 (sweep_expires_by_creation_time Scenario.no_metadata "sig1" 1
                  "walletA" None info 0 1000 Scenario.subscribed
                  Scenario.settings1 ltac:(vm_compute; reflexivity))).
  split.
  - vm_compute. discriminate.
  - vm_compute. split; reflexivity.
Defined.

(** * The end-to-end scenario: classifier, then aggregator *)

(** Without a signal handed in, [processTransaction] classifies first. *)
Lemma processTransaction_classifies getTokenMetadata sig chatId walletAddress tx
    now_insert now_sweep (t : tracker) :
  processTransaction getTokenMetadata sig chatId walletAddress tx None
    now_insert now_sweep t
  = match extractTokenInfoFromTx getTokenMetadata tx chatId walletAddress t with
    | (Some info, t') =>
        processTransaction getTokenMetadata sig chatId walletAddress tx (Some info)
          now_insert now_sweep t'
    | (None, t') => ((), t')
    end.
Proof.
  unfold processTransaction at 1. unfold mbind at 1. unfold M_bind at 1.
  destruct (extractTokenInfoFromTx _ _ _ _ _) as [[info|] t']; done.
Qed.

(** The classifier on a plain buy: what it spends decides. *)
Lemma extractTokenInfoFromTx_buy getTokenMetadata wallet asset pre post received
    chatId (t : tracker) settings :
  userSettings t !! chatId = Some settings →
  asset ≠ "" →
  (0 < received)%Q →
  let spent :=
    Qmax 0 (Double.sub (lamports_to_SOL pre) (lamports_to_SOL post)) in
  extractTokenInfoFromTx getTokenMetadata
    (Some (Scenario.buy_tx wallet asset pre post received)) chatId wallet t
  = (if QMicromega.Qlt_bool spent (solThreshold settings) then None
     else Some {| tokenAddress := asset;
                  tokenName :=
                    if decide (asset = "unknown") then "Unknown"
                    else match symbol (getTokenMetadata asset) with
                         | "" => "Unknown"
                         | sym => sym
                         end;
                  tokenAmount := Double.sub received 0;
                  solAmount := spent |}, t).
Proof.
  intros Hs Hasset Hpos spent. unfold Scenario.buy_tx.
  rewrite extractTokenInfoFromTx_meta, (getUserSettings_known _ _ _ Hs).
  change (solAmount_of _) with spent.
  destruct (QMicromega.Qlt_bool spent (solThreshold settings)); [done|].
  assert (Hbest : largest_increase wallet (preBalanceMap_of wallet (Some []))
            (Some [ {| owner := Some wallet; mint := asset;
                       uiTokenAmount := Some {| uiAmount := Some received |} |} ])
          = (Some asset, Double.sub received 0)).
  { cbn -[Double.sub]. unfold scan_step, owned_by. cbn -[Double.sub].
    rewrite bool_decide_eq_true_2 by done.
    unfold diff_of, ui_amount. cbn -[Double.sub]. rewrite lookup_empty.
    cbn -[Double.sub].
    assert (QMicromega.Qlt_bool 0 (Double.sub received 0) = true) as ->; [|done].
    apply QMicromega.Qlt_bool_iff. apply round_pos_iff. lra. }
  cbn [preTokenBalances postTokenBalances]. rewrite Hbest. cbn [fst snd].
  assert (or_unknown (Some asset) = asset) as ->; [|done].
  unfold or_unknown. by destruct asset.
Qed.

(** A fee payer that is 0.3 SOL poorer, with balances in the range of
    lamports, spent 0.3 SOL up to [2 ^ -17]. *)
Lemma spent_three_tenths (pre post : Z) :
  (0 ≤ post)%Z → (pre < 2 ^ 64)%Z → (pre - post = 300000000)%Z →
  let spent := Qmax 0 (Double.sub (lamports_to_SOL pre) (lamports_to_SOL post)) in
  ((3 # 10) - (1 # 131072) <= spent ∧ spent <= (3 # 10) + (1 # 131072))%Q.
Proof.
  intros H0 Hu Hd spent.
  destruct (spent_near pre post) as [H1 H2]; [lia..|].
  fold spent in H1, H2. rewrite Hd in H1, H2.
  change (inject_Z 300000000 / 1000000000)%Q with (300000000 # 1000000000)%Q
    in H1, H2.
  clearbody spent. split; lra.
Qed.

(** The spend the classifier computes is a number of the program. *)
Lemma spent_is_double (pre post : Z) :
  let spent := Qmax 0 (Double.sub (lamports_to_SOL pre) (lamports_to_SOL post)) in
  (Double.round spent == spent)%Q.
Proof.
  intros spent. subst spent.
  destruct (Q.max_spec 0 (Double.sub (lamports_to_SOL pre) (lamports_to_SOL post)))
    as [[_ E] | [_ E]].
  - rewrite (round_comp _ _ E), E. apply round_idem.
  - by rewrite (round_comp _ _ E), E.
Qed.

(** C1, as the code has it. For a subscriber with [requiredWallets = 2],
    wallet A's transaction takes 0.3 SOL from its fee payer for asset X and
    wallet B's takes 0.3 SOL for X fifteen minutes later.  The classifier
    computes the spend of each in the arithmetic of the program and rejects
    a transaction whose computed spend is below [solThreshold].  With
    [solThreshold = 0.5] it rejects both: nothing changes.  With a
    threshold that both computed spends reach, processing B's transaction
    dispatches the alert with the two buyers and the sum of the computed
    spends, which is 0.6 up to [2 ^ -15], and deletes the window of X, and
    a later buy of X that passes the threshold starts a new window with
    that buy alone. *)
Theorem two_buyers_alert_behind_spend_gate
    (getTokenMetadata : string → token_metadata) (t : tracker) (chatId : Z)
    (settings : settings) (A B X : string) (sigA sigB : string)
    (preA postA preB postB : Z) (qA qB : Q) (n1 s1 s2 : Z) :
  userSettings t !! chatId = Some settings →
  requiredWallets settings = 2%Z →
  A ≠ B → X ≠ "" → (0 < qA)%Q → (0 < qB)%Q →
  (0 ≤ postA)%Z → (preA < 2 ^ 64)%Z → (preA - postA = 300000000)%Z →
  (0 ≤ postB)%Z → (preB < 2 ^ 64)%Z → (preB - postB = 300000000)%Z →
  let spent pre post :=
    Qmax 0 (Double.sub (lamports_to_SOL pre) (lamports_to_SOL post)) in
  let process sig w pre post q n s u :=
    (processTransaction getTokenMetadata sig chatId w
       (Some (Scenario.buy_tx w X pre post q)) None n s u).2 in
  let key := pretty chatId +:+ ":" +:+ X in
  let t1 := process sigA A preA postA qA n1 s1 t in
  let t2 := process sigB B preB postB qB (n1 + 900000)%Z s2 t1 in
  ((solThreshold settings == 1 # 2)%Q → t1 = t ∧ t2 = t)
  ∧ ((spent preA postA < solThreshold settings)%Q → t1 = t)
  ∧ ((solThreshold settings <= spent preA postA)%Q →
     (solThreshold settings <= spent preB postB)%Q →
     recentTransactions t !! key = None →
     (s1 - n1 ≤ 3600000)%Z →
     ∃ name a b total,
       trace t1 = trace t
       ∧ trace t2 = trace t ++ [EvAlert chatId X name [(A, a); (B, b)] total]
       ∧ (a == spent preA postA)%Q ∧ (b == spent preB postB)%Q
       ∧ (total == Double.add (spent preA postA) (spent preB postB))%Q
       ∧ ((6 # 10) - (1 # 32768) <= total ∧ total <= (6 # 10) + (1 # 32768))%Q
       ∧ recentTransactions t2 !! key = None
       ∧ ∀ sigC C preC postC qC n3 s3,
           (0 < qC)%Q →
           (solThreshold settings <= spent preC postC)%Q →
           (s3 - n3 ≤ 3600000)%Z →
           let t3 := process sigC C preC postC qC n3 s3 t2 in
           trace t3 = trace t2
           ∧ ∃ c, (c == spent preC postC)%Q
               ∧ recentTransactions t3 !! key
                 = Some {| buyers := [(C, c)]; timestamp := n3; firstSeen := n3 |}).
Proof.
  intros Hs Hreq HAB HX HqA HqB HA0 HAu HA HB0 HBu HB spent process key t1 t2.
  change key with (key_of chatId X) in *.
  pose proof (spent_three_tenths _ _ HA0 HAu HA) as HspA.
  pose proof (spent_three_tenths _ _ HB0 HBu HB) as HspB.
  cbv zeta in HspA, HspB.
  fold (spent preA postA) in HspA. fold (spent preB postB) in HspB.
  assert (Hrej : ∀ sig w pre post q n s,
            (0 < q)%Q → (spent pre post < solThreshold settings)%Q →
            process sig w pre post q n s t = t).
  { intros sig w pre post q n s Hq Hlt. subst process. cbv beta.
    rewrite processTransaction_classifies.
    rewrite (extractTokenInfoFromTx_buy _ _ _ _ _ _ _ _ _ Hs HX Hq).
    cbv zeta. fold (spent pre post).
    apply QMicromega.Qlt_bool_iff in Hlt. by rewrite Hlt. }
  assert (Hacc : ∀ sig w pre post q n s u,
            userSettings u !! chatId = Some settings →
            (0 < q)%Q → (solThreshold settings <= spent pre post)%Q →
            ∃ info, tokenAddress info = X
              ∧ solAmount info = spent pre post
              ∧ process sig w pre post q n s u
                = (processTransaction getTokenMetadata sig chatId w
                     (Some (Scenario.buy_tx w X pre post q)) (Some info) n s u).2).
  { intros sig w pre post q n s u Hu Hq Hge. subst process. cbv beta.
    rewrite processTransaction_classifies.
    rewrite (extractTokenInfoFromTx_buy _ _ _ _ _ _ _ _ _ Hu HX Hq).
    cbv zeta. fold (spent pre post).
    assert (QMicromega.Qlt_bool (spent pre post) (solThreshold settings) = false)
      as ->.
    { apply not_true_is_false. intros Hlt%QMicromega.Qlt_bool_iff. lra. }
    eexists. split_and!; [| |reflexivity]; done. }
  split_and!.
  - (* threshold 0.5 *)
    intros Hthr.
    assert (t1 = t) as E1.
    { subst t1. apply Hrej; [done|]. rewrite Hthr. lra. }
    split; [done|]. subst t2. rewrite E1. apply Hrej; [done|]. rewrite Hthr. lra.
  - intros Hlt. subst t1. by apply Hrej.
  - (* both computed spends reach the threshold *)
    intros HthrA HthrB Hnone Hs1.
    (* A's transaction *)
    destruct (Hacc sigA A preA postA qA n1 s1 t Hs HqA HthrA)
      as (iA & HXA & HsA & E1).
    fold t1 in E1.
    pose proof (processTransaction_short getTokenMetadata sigA chatId A
                  (Some (Scenario.buy_tx A X preA postA qA)) iA n1 s1 t settings Hs) as H1.
    cbv zeta in H1. rewrite HXA, HsA in H1. rewrite Hnone, <- E1 in H1.
    clearbody t1. cbn -[Double.add] in H1.
    destruct H1 as (Hu1 & Htr1 & Hw1); [lia..|].
    (* B's transaction *)
    assert (Hs' : userSettings t1 !! chatId = Some settings) by by rewrite Hu1.
    destruct (Hacc sigB B preB postB qB (n1 + 900000)%Z s2 t1 Hs' HqB HthrB)
      as (iB & HXB & HsB & E2).
    fold t2 in E2.
    pose proof (processTransaction_alert getTokenMetadata sigB chatId B
                  (Some (Scenario.buy_tx B X preB postB qB)) iB (n1 + 900000)%Z s2
                  t1 settings Hs') as H2.
    cbv zeta in H2. rewrite HXB, HsB in H2. rewrite Hw1, <- E2 in H2.
    clearbody t2.
    repeat (progress (cbn -[total_spent Double.add] in H2;
                      rewrite ?decide_False in H2 by done)).
    pose proof (spent_is_double preA postA) as HdA.
    pose proof (spent_is_double preB postB) as HdB.
    cbv zeta in HdA, HdB.
    fold (spent preA postA) in HdA. fold (spent preB postB) in HdB.
    pose proof (add_0_l _ HdA) as HaA. pose proof (add_0_l _ HdB) as HaB.
    assert (Htot : (total_spent [(A, Double.add 0 (spent preA postA));
                                 (B, Double.add 0 (spent preB postB))]
                    == Double.add (spent preA postA) (spent preB postB))%Q).
    { unfold total_spent. cbn [fmap list_fmap snd foldl].
      apply round_comp. rewrite HaB.
      rewrite (add_0_l (Double.add 0 (spent preA postA))); [by rewrite HaA|].
      apply round_idem. }
    assert (Hnear : ((6 # 10) - (1 # 32768)
                     <= Double.add (spent preA postA) (spent preB postB)
                     ∧ Double.add (spent preA postA) (spent preB postB)
                       <= (6 # 10) + (1 # 32768))%Q).
    { destruct (round_error (spent preA postA + spent preB postB) 0) as [R1 R2].
      - change (2 ^ 0)%Q with 1%Q. lra.
      - change (2 ^ 0)%Q with 1%Q. lra.
      - change (2 ^ (0 - 54))%Q with (1 # 18014398509481984)%Q in R1, R2.
        fold (Double.add (spent preA postA) (spent preB postB)) in R1, R2.
        split; lra. }
    destruct H2 as (Hu2 & Htr2 & Hw2); [lia| rewrite Htot; lra |].
    exists (tokenName iB), (Double.add 0 (spent preA postA)),
      (Double.add 0 (spent preB postB)),
      (total_spent [(A, Double.add 0 (spent preA postA));
                    (B, Double.add 0 (spent preB postB))]).
    split_and!; try done.
    + by rewrite Htr2, Htr1.
    + rewrite Htot. lra.
    + rewrite Htot. lra.
    + intros sigC C preC postC qC n3 s3 HqC HthrC Hs3 t3.
      assert (Hs'' : userSettings t2 !! chatId = Some settings) by by rewrite Hu2, Hu1.
      destruct (Hacc sigC C preC postC qC n3 s3 t2 Hs'' HqC HthrC)
        as (iC & HXC & HsC & E3).
      fold t3 in E3.
      pose proof (processTransaction_short getTokenMetadata sigC chatId C
                    (Some (Scenario.buy_tx C X preC postC qC)) iC n3 s3 t2
                    settings Hs'') as H3.
      cbv zeta in H3. rewrite HXC, HsC in H3. rewrite Hw2, <- E3 in H3.
      clearbody t3. cbn -[Double.add] in H3.
      destruct H3 as (Hu3 & Htr3 & Hw3); [lia..|].
      split; [done|]. exists (Double.add 0 (spent preC postC)).
      split; [|done]. apply add_0_l.
      pose proof (spent_is_double preC postC) as HdC. exact HdC.
Qed.

(** C1, as stated, fails. Subscriber 1 has [solThreshold = 0.5] and
    [requiredWallets = 2]; wallet A's transaction spends 0.3 SOL on [mintX]
    and wallet B's spends 0.3 SOL on it fifteen minutes later.  After both
    are processed no alert was dispatched and no window exists. *)
Lemma below_threshold_buys_raise_no_alert :
  let process sig w n u :=
    (processTransaction Scenario.no_metadata sig 1 w
       (Some (Scenario.buy_tx w "mintX" 1000000000 700000000 1000)) None n n u).2 in
  let t2 := process "sigB" "walletB" 900000%Z
              (process "sigA" "walletA" 0%Z Scenario.subscribed_quorum2) in
  (solThreshold <$> userSettings Scenario.subscribed_quorum2 !! 1%Z) = Some (1 # 2)%Q
  ∧ (requiredWallets <$> userSettings Scenario.subscribed_quorum2 !! 1%Z) = Some 2%Z
  ∧ trace t2 = []
  ∧ recentTransactions t2 = ∅.
Proof. vm_compute. repeat split. Qed.

(** The scenario at the threshold the subscriber gets by [/threshold 0.3],
    with fee payers going from 1.0 to 0.7 SOL: each computed spend is
    0.30000000000000004. *)
Lemma two_buyers_alert_behind_spend_gate_witness :
  let process sig w n u :=
    (processTransaction Scenario.no_metadata sig 1 w
       (Some (Scenario.buy_tx w "mintX" 1000000000 700000000 1000)) None n n u).2 in
  let t2 := process "sigB" "walletB" 900000%Z
              (process "sigA" "walletA" 0%Z Scenario.subscribed_low) in
  let spent := Qmax 0 (Double.sub (lamports_to_SOL 1000000000)
                                  (lamports_to_SOL 700000000)) in
  (spent == 1351079888211149 # 4503599627370496)%Q
  ∧ ∃ name a b total,
      trace t2 = [EvAlert 1 "mintX" name [("walletA", a); ("walletB", b)] total]
      ∧ (a == spent)%Q ∧ (b == spent)%Q
      ∧ (total == Double.add spent spent)%Q
      ∧ recentTransactions t2 !! "1:mintX" = None.
Proof.
  intros process t2 spent. split; [vm_compute; reflexivity|].
  destruct (two_buyers_alert_behind_spend_gate Scenario.no_metadata
              Scenario.subscribed_low 1 Scenario.settings_low
              "walletA" "walletB" "mintX" "sigA" "sigB"
              1000000000 700000000 1000000000 700000000 1000 1000 0 0 900000)
    as (_ & _ & H).
  - vm_compute. reflexivity.
  - reflexivity.
  - discriminate.
  - discriminate.
  - reflexivity.
  - reflexivity.
  - vm_compute. discriminate.
  - reflexivity.
  - reflexivity.
  - vm_compute. discriminate.
  - reflexivity.
  - reflexivity.
  - destruct H as (name & a & b & total & _ & Htr & Ha & Hb & Htot & _ & Hgone & _).
    + vm_compute. discriminate.
    + vm_compute. discriminate.
    + vm_compute. reflexivity.
    + lia.
    + exists name, a, b, total.
      exact (conj Htr (conj Ha (conj Hb (conj Htot Hgone)))).
Defined.

(** A fee payer going from 0.7 to 0.4 SOL: the computed spend is
    0.29999999999999993, below the threshold 0.3 of the subscriber, and the
    two buys raise no alert. *)
Lemma spend_rounded_below_threshold :
  let process sig w n u :=
    (processTransaction Scenario.no_metadata sig 1 w
       (Some (Scenario.buy_tx w "mintX" 700000000 400000000 1000)) None n n u).2 in
  let t2 := process "sigB" "walletB" 900000%Z
              (process "sigA" "walletA" 0%Z Scenario.subscribed_low) in
  (Qmax 0 (Double.sub (lamports_to_SOL 700000000) (lamports_to_SOL 400000000))
   == 2702159776422297 # 9007199254740992)%Q
  ∧ (solThreshold Scenario.settings_low == 5404319552844595 # 18014398509481984)%Q
  ∧ trace t2 = []
  ∧ recentTransactions t2 = ∅.
Proof. vm_compute. repeat split. Qed.

(** * Properties of the wallet poller *)

Lemma map_get_set l k v (h : gmap loc object) m :
  h !! l = Some (JsMap m) → map_get l k (map_set l k v h) = Some v.
Proof.
  intros H. unfold map_get, map_set. rewrite H, lookup_insert_eq.
  by rewrite lookup_insert_eq.
Qed.

(** The classifier leaves the tracker of a known subscriber as it is. *)
Lemma extractTokenInfoFromTx_state getTokenMetadata tx chatId walletAddress
    (t : tracker) s :
  userSettings t !! chatId = Some s →
  (extractTokenInfoFromTx getTokenMetadata tx chatId walletAddress t).2 = t.
Proof.
  intros Hs. destruct tx as [[[m|]]|]; [|done..].
  rewrite extractTokenInfoFromTx_meta, (getUserSettings_known _ _ _ Hs).
  by destruct (QMicromega.Qlt_bool _ _).
Qed.

(** Ingesting a signal writes no cursor and leaves the settings and the
    shared objects alone. *)
Lemma processTransaction_frame getTokenMetadata sig chatId walletAddress tx info
    now_insert now_sweep (t : tracker) s :
  userSettings t !! chatId = Some s →
  let t' := (processTransaction getTokenMetadata sig chatId walletAddress tx
               (Some info) now_insert now_sweep t).2 in
  heap t' = heap t ∧ userSettings t' = userSettings t
  ∧ ∃ evs, trace t' = trace t ++ evs ∧ Forall (λ e, writes_cursor e = false) evs.
Proof.
  intros Hs t'. subst t'.
  rewrite (processTransaction_signal _ _ _ _ _ _ _ _ _ _ Hs).
  destruct (alert_due _ _); cbn.
  - split_and!; try done. eexists. split; [done|]. by repeat constructor.
  - split_and!; try done. exists []. by rewrite app_nil_r.
Qed.

Lemma process_signature_frame getTokenMetadata getTransaction clock address chatId
    monitoringStartTime sig (t : tracker) s :
  userSettings t !! chatId = Some s →
  let t' := (process_signature getTokenMetadata getTransaction clock address
               chatId monitoringStartTime sig t).2 in
  heap t' = heap t ∧ userSettings t' = userSettings t
  ∧ ∃ evs, trace t' = trace t ++ evs ∧ Forall (λ e, writes_cursor e = false) evs.
Proof.
  intros Hs t'. subst t'. unfold process_signature.
  destruct (too_old monitoringStartTime sig).
  { split_and!; try done. exists []. by rewrite app_nil_r. }
  unfold mbind, M_bind, modify. cbv beta iota.
  set (t1 := emit (EvGetTransaction (signature sig)) t).
  assert (Hs1 : userSettings t1 !! chatId = Some s) by done.
  assert (Hquiet : heap t1 = heap t ∧ userSettings t1 = userSettings t
            ∧ ∃ evs, trace t1 = trace t ++ evs
                ∧ Forall (λ e, writes_cursor e = false) evs).
  { split_and!; try done. eexists. split; [done|]. by repeat constructor. }
  destruct (getTransaction (signature sig)) as [| |tx]; [done..|].
  pose proof (extractTokenInfoFromTx_state getTokenMetadata (Some tx) chatId
                address t1 s Hs1) as Hex.
  destruct (extractTokenInfoFromTx _ _ _ _ t1) as [[info|] t2]; cbn in Hex; subst t2;
    [|done].
  destruct (_ && _); [|done].
  destruct (processTransaction_frame getTokenMetadata (signature sig) chatId
              address (Some tx) info (clock (signature sig)).1
              (clock (signature sig)).2 t1 s Hs1) as (Hh & Hu & evs & Htr & Hev).
  destruct Hquiet as (Hh1 & Hu1 & evs1 & Htr1 & Hev1).
  split_and!; [congruence..|].
  exists (evs1 ++ evs). split.
  - rewrite Htr, Htr1. by rewrite app_assoc.
  - by apply Forall_app.
Qed.

Lemma forM_cons {A} (x : A) (l : list A) (f : A → M unit) (t : tracker) :
  forM_ (x :: l) f t = forM_ l f (f x t).2.
Proof.
  cbn [forM_]. unfold mbind, M_bind. by destruct (f x t) as [[] t1].
Qed.

Lemma forM_process_frame getTokenMetadata getTransaction clock address chatId
    monitoringStartTime (sigs : list sig_info) (t : tracker) s :
  userSettings t !! chatId = Some s →
  let t' := (forM_ sigs (process_signature getTokenMetadata getTransaction clock
                           address chatId monitoringStartTime) t).2 in
  heap t' = heap t ∧ userSettings t' = userSettings t
  ∧ ∃ evs, trace t' = trace t ++ evs ∧ Forall (λ e, writes_cursor e = false) evs.
Proof.
  revert t. induction sigs as [|sig sigs IH]; intros t Hs t'; subst t'.
  { split_and!; try done. exists []. by rewrite app_nil_r. }
  rewrite forM_cons.
  destruct (process_signature_frame getTokenMetadata getTransaction clock address
              chatId monitoringStartTime sig t s Hs) as (Hh1 & Hu1 & evs1 & Htr1 & Hev1).
  set (t1 := (process_signature _ _ _ _ _ _ sig t).2) in *. clearbody t1.
  assert (Hs1 : userSettings t1 !! chatId = Some s) by by rewrite Hu1.
  destruct (IH t1 Hs1) as (Hh & Hu & evs & Htr & Hev).
  split_and!; [by rewrite Hh, Hh1 | by rewrite Hu, Hu1 |].
  exists (evs1 ++ evs). split.
  - rewrite Htr, Htr1. by rewrite app_assoc.
  - by apply Forall_app.
Qed.

(** The new signatures are a prefix of the fetched ones. *)
Lemma newSignatures_of_head newSigs cursor newest older :
  newSignatures_of newSigs cursor = newest :: older →
  ∃ rest, newSigs = newest :: rest.
Proof.
  destruct newSigs as [|sig rest]; [done|]. cbn.
  destruct (decide _); [done|]. intros [= -> _]. by exists rest.
Qed.

Lemma newSignatures_of_at_cursor sig rest :
  newSignatures_of (sig :: rest) (Some (signature sig)) = [].
Proof. cbn. by rewrite decide_True. Qed.

(** One tick of an unpaused poller, by the signatures that are new. *)
Lemma tick_run getTokenMetadata getTransaction clock task newSigs (t : tracker)
    settings :
  userSettings t !! task_chatId task = Some settings →
  isPaused settings = false →
  let cursor :=
    map_get (lastProcessedSignatures settings) (task_address task) (heap t) in
  (tick getTokenMetadata getTransaction clock task (Some newSigs) t).2
  = match newSignatures_of newSigs cursor with
    | [] => t
    | newest :: older =>
        (forM_ (rev (newest :: older))
           (process_signature getTokenMetadata getTransaction clock
              (task_address task) (task_chatId task)
              (task_monitoringStartTime task))
           (emit (EvCursor (task_chatId task) (task_address task) (signature newest))
              (set_heap (map_set (lastProcessedSignatures settings)
                           (task_address task) (signature newest)) t))).2
    end.
Proof.
  intros Hs Hp cursor. unfold tick, mbind, M_bind, gets.
  rewrite Hs, Hp. fold cursor.
  destruct (newSignatures_of newSigs cursor) as [|newest older]; [done|].
  unfold set_cursor, mbind, M_bind, modify.
  by destruct (forM_ _ _ _).
Qed.

(** C8. On a poll tick the cursor is set to the newest fetched signature
    before any transaction body is fetched, and nothing after that writes
    the cursor; a tick whose fetched list starts with the cursor (or is
    empty) changes nothing; so a second tick over the same fetched list
    changes nothing and fetches no body again. *)
Theorem tick_advances_cursor_first
    (getTokenMetadata : string → token_metadata)
    (getTransaction : string → fetched) (clock : string → Z * Z)
    (task : poll_task) (newSigs : list sig_info) (t : tracker)
    (settings : settings) (cursors : gmap string string) :
  userSettings t !! task_chatId task = Some settings →
  isPaused settings = false →
  heap t !! lastProcessedSignatures settings = Some (JsMap cursors) →
  let run u := (tick getTokenMetadata getTransaction clock task (Some newSigs) u).2 in
  let cursor u :=
    map_get (lastProcessedSignatures settings) (task_address task) (heap u) in
  (newSigs = [] → run t = t)
  ∧ (∀ sig rest, newSigs = sig :: rest → cursor t = Some (signature sig) →
       run t = t)
  ∧ (∀ newest older,
       newSignatures_of newSigs (cursor t) = newest :: older →
       head newSigs = Some newest
       ∧ cursor (run t) = Some (signature newest)
       ∧ ∃ evs,
           trace (run t)
           = trace t
             ++ EvCursor (task_chatId task) (task_address task) (signature newest)
                :: evs
           ∧ Forall (λ e, writes_cursor e = false) evs)
  ∧ run (run t) = run t.
Proof.
  intros Hs Hp Hm run cursor.
  assert (Hrun : ∀ u, userSettings u !! task_chatId task = Some settings →
            run u = match newSignatures_of newSigs (cursor u) with
                    | [] => u
                    | newest :: older =>
                        (forM_ (rev (newest :: older))
                           (process_signature getTokenMetadata getTransaction clock
                              (task_address task) (task_chatId task)
                              (task_monitoringStartTime task))
                           (emit (EvCursor (task_chatId task) (task_address task)
                                    (signature newest))
                              (set_heap (map_set (lastProcessedSignatures settings)
                                           (task_address task) (signature newest)) u))).2
                    end).
  { intros u Hu. subst run. cbv beta. by rewrite (tick_run _ _ _ _ _ _ _ Hu Hp). }
  assert (Hnew : ∀ newest older,
            newSignatures_of newSigs (cursor t) = newest :: older →
            head newSigs = Some newest
            ∧ cursor (run t) = Some (signature newest)
            ∧ userSettings (run t) = userSettings t
            ∧ ∃ evs,
                trace (run t)
                = trace t
                  ++ EvCursor (task_chatId task) (task_address task)
                       (signature newest) :: evs
                ∧ Forall (λ e, writes_cursor e = false) evs).
  { intros newest older Hnew. rewrite (Hrun t Hs), Hnew.
    destruct (newSignatures_of_head _ _ _ _ Hnew) as [rest ->].
    set (t1 := emit _ (set_heap _ t)).
    assert (Hs1 : userSettings t1 !! task_chatId task = Some settings) by done.
    destruct (forM_process_frame getTokenMetadata getTransaction clock
                (task_address task) (task_chatId task)
                (task_monitoringStartTime task) (rev (newest :: older)) t1
                settings Hs1) as (Hh & Hu & evs & Htr & Hev).
    subst cursor. cbv beta. rewrite Hh, Hu, Htr.
    split_and!; try done.
    - subst t1. cbn [heap emit set_heap]. by eapply map_get_set.
    - exists evs. split; [|done]. subst t1. cbn [trace emit set_heap].
      by rewrite <- app_assoc. }
  split_and!.
  - intros ->. by rewrite (Hrun t Hs).
  - intros sig rest -> Hc. rewrite (Hrun t Hs), Hc.
    by rewrite newSignatures_of_at_cursor.
  - intros newest older H. destruct (Hnew newest older H) as (? & ? & _ & ?). done.
  - destruct (newSignatures_of newSigs (cursor t)) as [|newest older] eqn:Hn.
    + assert (run t = t) as -> by by rewrite (Hrun t Hs), Hn.
      by rewrite (Hrun t Hs), Hn.
    + destruct (Hnew newest older eq_refl) as (Hhd & Hc & Hu & _).
      destruct (newSignatures_of_head _ _ _ _ Hn) as [rest Hrest].
      rewrite (Hrun (run t)) by by rewrite Hu.
      by rewrite Hc, Hrest, newSignatures_of_at_cursor.
Qed.

(** Wallet A's poller fetches two signatures it has not seen, whose bodies the
    endpoint does not have yet. *)
Lemma tick_advances_cursor_first_witness :
  let newSigs := [ {| signature := "sig2"; blockTime := Some 1700000200%Z |};
                   {| signature := "sig1"; blockTime := Some 1700000100%Z |} ] in
  let run u :=
    (tick Scenario.no_metadata (λ _, FetchNull) (λ _, (0, 0)%Z) Scenario.taskA
       (Some newSigs) u).2 in
  trace (run Scenario.tracking)
  = trace Scenario.tracking
    ++ [EvCursor 1 "walletA" "sig2"; EvGetTransaction "sig1"; EvGetTransaction "sig2"]
  ∧ run (run Scenario.tracking) = run Scenario.tracking.
Proof.
  intros newSigs run.
  destruct (tick_advances_cursor_first Scenario.no_metadata (λ _, FetchNull)
              (λ _, (0, 0)%Z) Scenario.taskA newSigs Scenario.tracking
              (getUserSettings 1 Scenario.tracking).1
              (<["walletA" := "sig0"]> ∅)) as (_ & _ & _ & Hreplay).
  - vm_compute. reflexivity.
  - reflexivity.
  - vm_compute. reflexivity.
  - split; [|exact Hreplay]. vm_compute. reflexivity.
Defined.

(** * Divergences between the code and the specification *)

(** A new settings object takes the cursor map, the start-time record and
    the personal-wallet array of [defaultSettings] themselves. *)
Lemma getUserSettings_shares_defaults chatId (t : tracker) :
  userSettings t !! chatId = None →
  let s := (getUserSettings chatId t).1 in
  lastProcessedSignatures s = lastProcessedSignatures defaultSettings
  ∧ monitoringStartTimes s = monitoringStartTimes defaultSettings
  ∧ userWallets s = userWallets defaultSettings.
Proof. intros H. unfold getUserSettings. by rewrite H. Qed.

(** C4 fails on the code. Two subscribers make first contact; subscriber 1
    then tracks wallet A and creates a personal wallet.  The [wallets] maps
    of the two settings objects differ, but subscriber 2's cursor map,
    start-time record and personal-wallet array show what subscriber 1
    wrote. *)
Theorem subscribers_share_settings_objects :
  let s1 := (getUserSettings 1 new_WalletTracker).1 in
  let t1 := (getUserSettings 1 new_WalletTracker).2 in
  let s2 := (getUserSettings 2 t1).1 in
  let t2 := (getUserSettings 2 t1).2 in
  let t3 := (startMonitoringWallet "walletA" 1 1700000000000
               (Fetched (Some [Scenario.sig0])) t2).2 in
  let t4 := (handleCreateWallet 1 "pubkey1" "secret1" 1700000000500 t3).2 in
  wallets s1 ≠ wallets s2
  ∧ map_get (lastProcessedSignatures s2) "walletA" (heap t2) = None
  ∧ map_get (lastProcessedSignatures s2) "walletA" (heap t4) = Some "sig0"
  ∧ object_get (monitoringStartTimes s2) "walletA" (heap t2) = None
  ∧ object_get (monitoringStartTimes s2) "walletA" (heap t4) = Some 1700000000%Z
  ∧ array_items (userWallets s2) (heap t2) = []
  ∧ array_items (userWallets s2) (heap t4)
    = [ {| uw_address := "pubkey1"; uw_privateKey := "secret1";
           uw_label := "Wallet 1"; uw_created := 1700000000500 |} ].
Proof. vm_compute. repeat split; congruence. Qed.

Lemma object_get_map_delete l k l' k' (h : gmap loc object) :
  object_get l k (map_delete l' k' h) = object_get l k h.
Proof.
  unfold object_get, map_delete.
  destruct (h !! l') as [[m|a|o]|] eqn:E; try done.
  destruct (decide (l = l')) as [->|Hne].
  - by rewrite lookup_insert_eq, E.
  - by rewrite lookup_insert_ne.
Qed.

Lemma object_get_getUserSettings chatId (t : tracker) l k :
  object_get l k (heap (getUserSettings chatId t).2) = object_get l k (heap t).
Proof.
  unfold getUserSettings. destruct (userSettings t !! chatId); [done|].
  cbn. unfold object_get.
  destruct (decide (l = fresh (dom (heap t)))) as [->|Hne].
  - rewrite lookup_insert_eq.
    by rewrite (not_elem_of_dom_1 (heap t) _ (is_fresh (dom (heap t)))).
  - by rewrite lookup_insert_ne.
Qed.

(** [deleteWallet] leaves every plain object of the store as it is, the
    start-time records among them. *)
Lemma deleteWallet_keeps_start_times chatId address (t : tracker) l k :
  object_get l k (heap (deleteWallet chatId address t).2) = object_get l k (heap t).
Proof.
  rewrite <- (object_get_getUserSettings chatId t l k).
  unfold deleteWallet, mbind, M_bind.
  destruct (getUserSettings chatId t) as [s t1].
  unfold gets, modify, clearInterval, mbind, M_bind.
  destruct (monitoringIntervals t1 !! _); cbn;
    by rewrite !object_get_map_delete.
Qed.

(** C9 fails on the code. After [deleteWallet] the interval is cleared and
    its handle, the nickname and the cursor of the wallet are gone, but the
    wallet's entry of [monitoringStartTimes] is still there. *)
Theorem deleteWallet_keeps_monitoring_start_time :
  let s := (getUserSettings 1 Scenario.tracking).1 in
  let t' := (deleteWallet 1 "walletA" Scenario.tracking).2 in
  let key := key_of 1 "walletA" in
  (monitoringIntervals Scenario.tracking !! key = Some 0
   ∧ intervals Scenario.tracking !! 0 = Some Scenario.taskA
   ∧ map_get (wallets s) "walletA" (heap Scenario.tracking) = Some "Main"
   ∧ map_get (lastProcessedSignatures s) "walletA" (heap Scenario.tracking)
     = Some "sig0"
   ∧ object_get (monitoringStartTimes s) "walletA" (heap Scenario.tracking)
     = Some 1700000000%Z)
  ∧ (monitoringIntervals t' !! key = None
     ∧ intervals t' !! 0 = None
     ∧ map_get (wallets s) "walletA" (heap t') = None
     ∧ map_get (lastProcessedSignatures s) "walletA" (heap t') = None
     ∧ object_get (monitoringStartTimes s) "walletA" (heap t')
       = Some 1700000000%Z).
Proof. vm_compute. repeat split. Qed.

(** C10 fails on the code. Whatever is posted to [/webhook], the handler
    answers 500 and the tracker is as before: no method [handleTransaction]
    exists, so nothing reaches the classifier. *)
Theorem webhook_always_answers_500 (req_body : webhook_body) (t : tracker) :
  webhook req_body t
  = ({| status := 500; body := "Error processing webhook" |}, t).
Proof. reflexivity. Qed.

(** * Further properties of the endpoint pool and the retrying caller *)

Import Invariant.

Lemma rotate_requests valid_endpoint (p : pool) :
  totalRequests (rpcStats (rotateRpcEndpoint valid_endpoint p))
  = totalRequests (rpcStats p).
Proof.
  unfold rotateRpcEndpoint.
  destruct (rpcEndpoints p !! _) as [url|]; [|done].
  by destruct (new_Connection valid_endpoint url).
Qed.

Lemma rotate_sleeps valid_endpoint (p : pool) :
  sleeps (rotateRpcEndpoint valid_endpoint p) = sleeps p.
Proof.
  unfold rotateRpcEndpoint.
  destruct (rpcEndpoints p !! _) as [url|]; [|done].
  by destruct (new_Connection valid_endpoint url).
Qed.

(** The loop, by the number [k] of retries it makes: [k + 1] requests are
    counted and the [k] delays of the retries are slept, in order. *)
Lemma backoff_loop_attempts valid_endpoint {A}
    (apiFunction : nat → Connection → outcome A) maxRetries fuel retries (p : pool) :
  retries + fuel = S maxRetries → 0 < fuel →
  let p' := (backoff_loop valid_endpoint apiFunction maxRetries fuel retries p).2 in
  ∃ k, k < fuel
    ∧ totalRequests (rpcStats p') = totalRequests (rpcStats p) + k + 1
    ∧ sleeps p' = sleeps p ++ (backoff_delay <$> seq retries k).
Proof.
  revert retries p. induction fuel as [|fuel IH]; intros retries p Hsum Hpos; [lia|].
  cbn [backoff_loop].
  assert ((retries <=? maxRetries) = true) as -> by (apply Nat.leb_le; lia).
  destruct (apiFunction retries _) as [a|e].
  { exists 0. cbn. split_and!; [lia|lia|by rewrite app_nil_r]. }
  destruct (isRateLimit e && (retries <? maxRetries)) eqn:Hretry.
  - apply andb_true_iff in Hretry as [_ Hlt%Nat.ltb_lt].
    match goal with
    | |- context [backoff_loop _ _ _ fuel (S retries) ?q] =>
        destruct (IH (S retries) q) as (k & Hk & Hreq & Hsl); [lia|lia|];
        assert (Hq : totalRequests (rpcStats q) = S (totalRequests (rpcStats p))
                     ∧ sleeps q = sleeps p ++ [backoff_delay retries])
    end.
    { destruct (3 <=? _); rewrite ?rotate_requests, ?rotate_sleeps; done. }
    destruct Hq as [Hq1 Hq2].
    exists (S k). split_and!; [lia| |].
    + rewrite Hreq, Hq1. lia.
    + rewrite Hsl, Hq2. cbn [seq fmap list_fmap]. by rewrite <- app_assoc.
  - exists 0. cbn. split_and!; [lia|lia|by rewrite app_nil_r].
Qed.

(** X1. [callWithBackoff] always ends by a [return] or a [throw] of an
    attempt, never by falling off its loop, and it counts at least one and at
    most [maxRetries + 1] requests. *)
Theorem callWithBackoff_attempts_bounded (valid_endpoint : string → bool)
    (A : Type) (apiFunction : nat → Connection → outcome A) (maxRetries : nat)
    (p : pool) :
  let r := callWithBackoff valid_endpoint apiFunction maxRetries p in
  r.1 ≠ Returned None
  ∧ totalRequests (rpcStats p) + 1 ≤ totalRequests (rpcStats r.2)
  ∧ totalRequests (rpcStats r.2) ≤ totalRequests (rpcStats p) + maxRetries + 1.
Proof.
  intros r. subst r. unfold callWithBackoff. split.
  - apply backoff_loop_leaves_by_body; lia.
  - destruct (backoff_loop_attempts valid_endpoint apiFunction maxRetries
                (S maxRetries) 0 p) as (k & Hk & Hreq & _); lia.
Qed.

Lemma backoff_delay_bounds (retries : nat) :
  (1000 ≤ backoff_delay retries ≤ 10000)%Z.
Proof.
  unfold backoff_delay.
  assert (1 ≤ 2 ^ Z.of_nat retries)%Z by (apply Z.pow_le_mono_r with (b := 0%Z); lia).
  lia.
Qed.

(** X2. The delays [callWithBackoff] sleeps are those of its retries, in
    order: [min(1000 * 2^i, 10000)] for [i = 0, 1, ...], one fewer than the
    requests it counts; each lies between one and ten seconds. *)
Theorem callWithBackoff_delays (valid_endpoint : string → bool)
    (A : Type) (apiFunction : nat → Connection → outcome A) (maxRetries : nat)
    (p : pool) :
  let p' := (callWithBackoff valid_endpoint apiFunction maxRetries p).2 in
  let k := totalRequests (rpcStats p') - totalRequests (rpcStats p) - 1 in
  sleeps p' = sleeps p ++ (backoff_delay <$> seq 0 k)
  ∧ Forall (λ d, 1000 ≤ d ≤ 10000)%Z (backoff_delay <$> seq 0 k).
Proof.
  intros p' k. subst p' k. unfold callWithBackoff.
  destruct (backoff_loop_attempts valid_endpoint apiFunction maxRetries
              (S maxRetries) 0 p) as (k & Hk & Hreq & Hsl); [lia..|].
  rewrite Hreq.
  replace (totalRequests (rpcStats p) + k + 1 - totalRequests (rpcStats p) - 1)
    with k by lia.
  split; [done|].
  apply Forall_fmap, Forall_forall. intros i _. apply backoff_delay_bounds.
Qed.

Lemma rotate_iter_index valid_endpoint (p : pool) (k : nat) :
  rpcEndpoints p ≠ [] →
  rpcEndpoints (Nat.iter k (rotateRpcEndpoint valid_endpoint) p) = rpcEndpoints p
  ∧ currentRpcIndex (Nat.iter k (rotateRpcEndpoint valid_endpoint) p)
    = if k is O then currentRpcIndex p
      else (currentRpcIndex p + k) mod length (rpcEndpoints p).
Proof.
  intros Hne. induction k as [|k [IHe IHi]]; [done|].
  rewrite Nat.iter_succ, rotate_endpoints, rotate_index, IHe, IHi.
  split; [done|].
  assert (length (rpcEndpoints p) ≠ 0) by by destruct (rpcEndpoints p).
  destruct k as [|k]; [done|].
  rewrite Nat.Div0.add_mod_idemp_l. f_equal. lia.
Qed.

Lemma rotate_iter_ok valid_endpoint (p : pool) (k : nat) :
  rpcEndpoints p ≠ [] →
  (∀ url, url ∈ rpcEndpoints p → valid_endpoint url = true) →
  let p' := Nat.iter (S k) (rotateRpcEndpoint valid_endpoint) p in
  rpcEndpoints p' !! currentRpcIndex p' = Some (rpcEndpoint (connection p'))
  ∧ rateLimitCount (rpcStats p') = 0
  ∧ totalRotations (rpcStats p') = totalRotations (rpcStats p) + S k.
Proof.
  intros Hne Hvalid. cbv zeta. induction k as [|k IH].
  - change (Nat.iter 1 (rotateRpcEndpoint valid_endpoint) p)
      with (rotateRpcEndpoint valid_endpoint p).
    destruct (rotate_ok valid_endpoint p Hne Hvalid) as (url & Hurl & ->).
    cbn. split_and!; [done|done|lia].
  - destruct IH as (_ & _ & IHr).
    set (q := Nat.iter (S k) (rotateRpcEndpoint valid_endpoint) p) in *.
    change (Nat.iter (S (S k)) (rotateRpcEndpoint valid_endpoint) p)
      with (rotateRpcEndpoint valid_endpoint q).
    destruct (rotate_iter_index valid_endpoint p (S k) Hne) as [He _].
    fold q in He. clearbody q.
    destruct (rotate_ok valid_endpoint q) as (url & Hurl & ->).
    { by rewrite He. }
    { by rewrite He. }
    cbn. split_and!; [done|done|lia].
Qed.

(** X3. On a non-empty pool whose endpoints the connection constructor
    accepts, as many rotations as the pool has endpoints lead back to the
    endpoint the round started from: the active index is the same again, the
    connection is built for the endpoint at that index, and [totalRotations]
    grew by the pool length. *)
Theorem rotation_round_trip (valid_endpoint : string → bool) (p : pool) :
  rpcEndpoints p ≠ [] →
  (∀ url, url ∈ rpcEndpoints p → valid_endpoint url = true) →
  currentRpcIndex p < length (rpcEndpoints p) →
  let p' := Nat.iter (length (rpcEndpoints p)) (rotateRpcEndpoint valid_endpoint) p in
  currentRpcIndex p' = currentRpcIndex p
  ∧ rpcEndpoints p' = rpcEndpoints p
  ∧ rpcEndpoints p !! currentRpcIndex p = Some (rpcEndpoint (connection p'))
  ∧ totalRotations (rpcStats p')
    = totalRotations (rpcStats p) + length (rpcEndpoints p).
Proof.
  intros Hne Hvalid Hidx p'.
  destruct (rotate_iter_index valid_endpoint p (length (rpcEndpoints p)) Hne)
    as [He Hi].
  fold p' in He, Hi.
  destruct (length (rpcEndpoints p)) as [|n] eqn:Hlen.
  { by destruct (rpcEndpoints p). }
  destruct (rotate_iter_ok valid_endpoint p n Hne Hvalid) as (Hc & _ & Hr).
  fold p' in Hc, Hr.
  assert (Hsame : currentRpcIndex p' = currentRpcIndex p).
  { rewrite Hi.
    replace (currentRpcIndex p + S n) with (currentRpcIndex p + 1 * S n) by lia.
    rewrite Nat.Div0.mod_add. by apply Nat.mod_small. }
  split_and!; try done.
  by rewrite <- Hsame, <- He.
Qed.

Lemma rotation_round_trip_witness :
  let p := {| rpcEndpoints := ["https://a.example"; "https://b.example";
                               "https://c.example"];
              currentRpcIndex := 1;
              connection := {| rpcEndpoint := "https://b.example" |};
              rpcStats := {| rateLimitCount := 2; totalRequests := 9;
                             totalRotations := 4 |};
              sleeps := [] |} in
  let p' := Nat.iter 3 (rotateRpcEndpoint (λ _, true)) p in
  currentRpcIndex p' = 1
  ∧ rpcEndpoint (connection p') = "https://b.example"
  ∧ totalRotations (rpcStats p') = 7.
Proof.
  intros p p'.
  destruct (rotation_round_trip (λ _, true) p) as (H1 & _ & H3 & H4).
  - done.
  - reflexivity.
  - simpl. lia.
  - split_and!; [exact H1 | | exact H4].
    apply (inj Some). symmetry. exact H3.
Defined.

(** X4. On a pool whose endpoints the connection constructor accepts,
    [callWithBackoff] keeps the pool consistent: afterwards the list of
    endpoints is the same, the active index still names the endpoint the
    connection was built for, and the strike counter is still below three,
    whatever the upstream call does and however many retries are allowed. *)
Theorem callWithBackoff_keeps_pool_ok (valid_endpoint : string → bool)
    (A : Type) (apiFunction : nat → Connection → outcome A) (maxRetries : nat)
    (p : pool) :
  (∀ url, url ∈ rpcEndpoints p → valid_endpoint url = true) →
  pool_ok p →
  let p' := (callWithBackoff valid_endpoint apiFunction maxRetries p).2 in
  rpcEndpoints p' = rpcEndpoints p ∧ pool_ok p'.
Proof.
  intros Hvalid Hok p'. subst p'. unfold callWithBackoff.
  generalize (S maxRetries) as fuel. intros fuel. generalize 0 as retries.
  revert p Hvalid Hok.
  induction fuel as [|fuel IH]; intros p Hvalid Hok retries; [by split|].
  cbn [backoff_loop].
  destruct (retries <=? maxRetries); [|by split].
  assert (Hok1 : pool_ok (count_request p)) by (destruct Hok; by split).
  destruct (apiFunction retries _) as [a|e]; [by split|].
  destruct (isRateLimit e && (retries <? maxRetries)); [|by split].
  match goal with
  | |- context [backoff_loop _ _ _ fuel (S retries) ?q] =>
      assert (Hq : rpcEndpoints q = rpcEndpoints p ∧ pool_ok q)
  end.
  { destruct (3 <=? _) eqn:Hmark.
    - match goal with
      | |- context [rotateRpcEndpoint _ ?q] =>
          destruct (rotate_ok valid_endpoint q) as (url & Hurl & ->)
      end.
      + destruct Hok as [Hl _]. cbn. intros E. by rewrite E in Hl.
      + done.
      + split; [done|]. split; cbn; [done|lia].
    - apply Nat.leb_gt in Hmark. destruct Hok as [Hl _].
      split; [done|]. split; [done|]. exact Hmark. }
  destruct Hq as [Hqe Hqok].
  destruct (IH _ ltac:(by rewrite Hqe) Hqok (S retries)) as [He Hp].
  split; [by rewrite He|done].
Qed.

Lemma callWithBackoff_keeps_pool_ok_witness :
  let p := {| rpcEndpoints := ["https://a.example"; "https://b.example"];
              currentRpcIndex := 1;
              connection := {| rpcEndpoint := "https://b.example" |};
              rpcStats := {| rateLimitCount := 2; totalRequests := 7;
                             totalRotations := 2 |};
              sleeps := [] |} in
  let api : nat → Connection → outcome nat :=
    λ k _, if k <? 2
           then Threw {| error_toString := "Error: 429 Too Many Requests";
                         error_message := Some "429 Too Many Requests" |}
           else Returned 5 in
  pool_ok (callWithBackoff (λ _, true) api 3 p).2.
Proof.
  intros p api.
  refine (proj2 (callWithBackoff_keeps_pool_ok (λ _, true) nat api 3 p _ _)).
  - reflexivity.
  - split; [reflexivity | simpl; lia].
Defined.

(** X5. When the connection constructor rejects the next endpoint, a
    rotation still advances the active index but keeps the old connection and
    leaves the counters alone: on a pool of at least two distinct endpoints
    the index then names an endpoint the connection was not built for, and
    the strike counter is not reset. *)
Theorem failed_rotation_desynchronises (valid_endpoint : string → bool) (p : pool)
    (next : string) :
  NoDup (rpcEndpoints p) →
  2 ≤ length (rpcEndpoints p) →
  rpcEndpoints p !! currentRpcIndex p = Some (rpcEndpoint (connection p)) →
  rpcEndpoints p !! ((currentRpcIndex p + 1) mod length (rpcEndpoints p)) = Some next →
  valid_endpoint next = false →
  let p' := rotateRpcEndpoint valid_endpoint p in
  currentRpcIndex p' = (currentRpcIndex p + 1) mod length (rpcEndpoints p)
  ∧ connection p' = connection p
  ∧ rpcStats p' = rpcStats p
  ∧ rpcEndpoints p' !! currentRpcIndex p' ≠ Some (rpcEndpoint (connection p')).
Proof.
  intros Hnd Hlen Hcur Hnext Hbad p'. subst p'.
  unfold rotateRpcEndpoint, new_Connection. rewrite Hnext, Hbad. cbn.
  split_and!; try done.
  rewrite Hnext. intros [= E].
  assert (Hi : currentRpcIndex p < length (rpcEndpoints p))
    by by eapply lookup_lt_Some.
  rewrite E in Hnext.
  pose proof (NoDup_lookup _ _ _ _ Hnd Hnext Hcur) as Heq.
  destruct (decide (currentRpcIndex p + 1 = length (rpcEndpoints p))) as [Hw|Hw].
  - rewrite Hw, Nat.Div0.mod_same in Heq. lia.
  - rewrite Nat.mod_small in Heq by lia. lia.
Qed.

Lemma failed_rotation_desynchronises_witness :
  let p := {| rpcEndpoints := ["https://a.example"; "wss://b.example"];
              currentRpcIndex := 0;
              connection := {| rpcEndpoint := "https://a.example" |};
              rpcStats := {| rateLimitCount := 3; totalRequests := 7;
                             totalRotations := 0 |};
              sleeps := [] |} in
  let p' := rotateRpcEndpoint (λ url, String.prefix "http" url) p in
  currentRpcIndex p' = 1
  ∧ rpcEndpoint (connection p') = "https://a.example"
  ∧ rateLimitCount (rpcStats p') = 3.
Proof.
  intros p p'.
  destruct (failed_rotation_desynchronises (λ url, String.prefix "http" url) p
              "wss://b.example") as (H1 & H2 & H3 & _).
  - apply (bool_decide_unpack _). reflexivity.
  - simpl. lia.
  - reflexivity.
  - reflexivity.
  - reflexivity.
  - fold p' in H1, H2, H3. rewrite H1, H2, H3. done.
Defined.

(** * Further properties of the subscriber settings *)

(** X6. First contact of a subscriber: [getUserSettings] answers with the
    default threshold, quorum and pause flag and a [wallets] map that is
    empty and is no object the store held before; no other object and no
    other subscriber's settings change; asking again gives the same object
    and changes nothing. *)
Theorem getUserSettings_first_contact (chatId : Z) (t : tracker) :
  userSettings t !! chatId = None →
  let s := (getUserSettings chatId t).1 in
  let t' := (getUserSettings chatId t).2 in
  (solThreshold s = 1 # 2 ∧ requiredWallets s = 3%Z ∧ isPaused s = false)
  ∧ heap t !! wallets s = None
  ∧ heap t' !! wallets s = Some (JsMap ∅)
  ∧ (∀ l, l ≠ wallets s → heap t' !! l = heap t !! l)
  ∧ userSettings t' !! chatId = Some s
  ∧ (∀ c, c ≠ chatId → userSettings t' !! c = userSettings t !! c)
  ∧ getUserSettings chatId t' = (s, t').
Proof.
  intros Hnew s t'.
  assert (E : getUserSettings chatId t
            = (s, set_userSettings (insert chatId s)
                    (set_heap (insert (fresh (dom (heap t))) (JsMap ∅)) t))).
  { subst s. unfold getUserSettings. by rewrite Hnew. }
  assert (Hw : wallets s = fresh (dom (heap t))).
  { subst s. unfold getUserSettings. by rewrite Hnew. }
  assert (Hd : solThreshold s = 1 # 2 ∧ requiredWallets s = 3%Z ∧ isPaused s = false).
  { subst s. unfold getUserSettings. by rewrite Hnew. }
  subst t'. rewrite E. cbn [snd]. clearbody s. rewrite Hw.
  cbn [heap set_heap set_userSettings userSettings].
  split; [exact Hd|]. split_and!.
  - apply not_elem_of_dom. apply is_fresh.
  - by rewrite lookup_insert_eq.
  - intros l Hl. by rewrite lookup_insert_ne.
  - by rewrite lookup_insert_eq.
  - intros c Hc. by rewrite lookup_insert_ne.
  - apply getUserSettings_known. cbn. by rewrite lookup_insert_eq.
Qed.

Lemma getUserSettings_first_contact_witness :
  let s := (getUserSettings 5 Scenario.tracking).1 in
  let t' := (getUserSettings 5 Scenario.tracking).2 in
  heap Scenario.tracking !! wallets s = None
  ∧ heap t' !! wallets s = Some (JsMap ∅)
  ∧ getUserSettings 5 t' = (s, t').
Proof.
  intros s t'.
  destruct (getUserSettings_first_contact 5 Scenario.tracking)
    as (_ & H1 & H2 & _ & _ & _ & H3).
  - vm_compute. reflexivity.
  - exact (conj H1 (conj H2 H3)).
Defined.

Lemma update_settings_lookup chatId f (t : tracker) c :
  userSettings (update_settings chatId f t).2 !! c
  = if decide (c = chatId) then f <$> userSettings t !! c
    else userSettings t !! c.
Proof.
  unfold update_settings, modify. cbn.
  destruct (decide (c = chatId)) as [->|Hne].
  - destruct (userSettings t !! chatId) as [s|] eqn:E; cbn.
    + by rewrite lookup_insert_eq.
    + by rewrite E.
  - destruct (userSettings t !! chatId); [|done]. by rewrite lookup_insert_ne.
Qed.

Lemma getUserSettings_lookup chatId (t : tracker) c s :
  userSettings (getUserSettings chatId t).2 !! c = Some s →
  userSettings t !! c = Some s
  ∨ (c = chatId ∧ userSettings t !! chatId = None
     ∧ s = (getUserSettings chatId t).1).
Proof.
  unfold getUserSettings. destruct (userSettings t !! chatId) eqn:E; [by left|].
  cbn. destruct (decide (c = chatId)) as [->|Hne].
  - rewrite lookup_insert_eq. intros [= <-]. by right.
  - rewrite lookup_insert_ne by done. by left.
Qed.

Lemma settings_valid_getUserSettings chatId (t : tracker) :
  settings_valid t → settings_valid (getUserSettings chatId t).2.
Proof.
  intros Hv c s [H | (-> & Hnone & ->)]%getUserSettings_lookup; [by eapply Hv|].
  unfold getUserSettings. rewrite Hnone. cbn. split; [reflexivity|lia].
Qed.

(** X7. The front-end commands keep every subscriber's threshold and quorum
    positive: whatever is passed to [setThreshold] and [setWalletCount]
    (not-a-number, zero and negative values included), and after
    [pauseMonitoring] and [getUserSettings], all stored settings still have
    [solThreshold > 0] and [requiredWallets > 0]. *)
Theorem commands_keep_settings_valid (t : tracker) (chatId : Z)
    (threshold : option Q) (count : option Z) :
  settings_valid t →
  settings_valid (getUserSettings chatId t).2
  ∧ settings_valid (setThreshold chatId threshold t).2
  ∧ settings_valid (setWalletCount chatId count t).2
  ∧ settings_valid (pauseMonitoring chatId t).2.
Proof.
  intros Hv.
  pose proof (settings_valid_getUserSettings chatId t Hv) as Hv1.
  split; [done|].
  unfold setThreshold, setWalletCount, pauseMonitoring, mbind, M_bind.
  destruct (getUserSettings chatId t) as [s0 t1]. cbn [snd] in Hv1.
  split_and!.
  - destruct threshold as [q|]; [|done].
    destruct (Qle_bool q 0) eqn:Hq; [done|].
    intros c s. rewrite update_settings_lookup.
    destruct (decide (c = chatId)); [|by apply Hv1].
    destruct (userSettings t1 !! c) as [s1|] eqn:E; [|done].
    intros [= <-]. cbn. split; [|by eapply Hv1].
    apply Qnot_le_lt. intros H%Qle_bool_iff. congruence.
  - destruct count as [n|]; [|done].
    destruct (n <=? 0)%Z eqn:Hn; [done|].
    intros c s. rewrite update_settings_lookup.
    destruct (decide (c = chatId)); [|by apply Hv1].
    destruct (userSettings t1 !! c) as [s1|] eqn:E; [|done].
    intros [= <-]. cbn. split; [by eapply Hv1|]. by apply Z.leb_gt.
  - intros c s. rewrite update_settings_lookup.
    destruct (decide (c = chatId)); [|by apply Hv1].
    destruct (userSettings t1 !! c) as [s1|] eqn:E; [|done].
    intros [= <-]. cbn. by eapply Hv1.
Qed.

Lemma commands_keep_settings_valid_witness :
  settings_valid (setThreshold 1 (Some (-(3 # 10))%Q) Scenario.subscribed_low).2
  ∧ settings_valid (setWalletCount 1 (Some 0%Z) Scenario.subscribed_low).2.
Proof.
  assert (H0 : settings_valid new_WalletTracker).
  { intros c s Hs. cbn in Hs. by rewrite lookup_empty in Hs. }
  assert (H1 : settings_valid Scenario.subscribed_quorum2).
  { exact (proj1 (proj2 (proj2
             (commands_keep_settings_valid new_WalletTracker 1 None (Some 2%Z) H0)))). }
  assert (H2 : settings_valid Scenario.subscribed_low).
  { exact (proj1 (proj2
             (commands_keep_settings_valid Scenario.subscribed_quorum2 1
                (Some (Double.round (3 # 10))) None H1))). }
  destruct (commands_keep_settings_valid Scenario.subscribed_low 1
              (Some (-(3 # 10))%Q) (Some 0%Z) H2) as (_ & H3 & H4 & _).
  exact (conj H3 H4).
Defined.

Lemma getUserSettings_stored chatId (t : tracker) :
  userSettings (getUserSettings chatId t).2 !! chatId
  = Some (getUserSettings chatId t).1.
Proof.
  unfold getUserSettings. destruct (userSettings t !! chatId) eqn:E; [done|].
  cbn. by rewrite lookup_insert_eq.
Qed.

(** X8. [setThreshold] and [setWalletCount] store a positive value for the
    subscriber, creating the settings on first contact, and touch no other
    subscriber; a value that is not a number, zero or negative is ignored:
    the tracker is as after [getUserSettings] alone. *)
Theorem settings_commands_validate_input (t : tracker) (chatId : Z) :
  (∀ q, (0 < q)%Q →
     let t' := (setThreshold chatId (Some q) t).2 in
     (solThreshold <$> userSettings t' !! chatId) = Some q
     ∧ (requiredWallets <$> userSettings t' !! chatId)
       = Some (requiredWallets (getUserSettings chatId t).1)
     ∧ ∀ c, c ≠ chatId → userSettings t' !! c = userSettings t !! c)
  ∧ (∀ n, (0 < n)%Z →
     let t' := (setWalletCount chatId (Some n) t).2 in
     (requiredWallets <$> userSettings t' !! chatId) = Some n
     ∧ (solThreshold <$> userSettings t' !! chatId)
       = Some (solThreshold (getUserSettings chatId t).1)
     ∧ ∀ c, c ≠ chatId → userSettings t' !! c = userSettings t !! c)
  ∧ (∀ q, (q <= 0)%Q →
     (setThreshold chatId (Some q) t).2 = (getUserSettings chatId t).2)
  ∧ (setThreshold chatId None t).2 = (getUserSettings chatId t).2
  ∧ (∀ n, (n ≤ 0)%Z →
     (setWalletCount chatId (Some n) t).2 = (getUserSettings chatId t).2)
  ∧ (setWalletCount chatId None t).2 = (getUserSettings chatId t).2.
Proof.
  pose proof (getUserSettings_stored chatId t) as Hst.
  assert (Hother : ∀ c, c ≠ chatId →
            userSettings (getUserSettings chatId t).2 !! c = userSettings t !! c).
  { intros c Hc. unfold getUserSettings.
    destruct (userSettings t !! chatId); [done|]. cbn. by rewrite lookup_insert_ne. }
  unfold setThreshold, setWalletCount, mbind, M_bind.
  destruct (getUserSettings chatId t) as [s0 t1]. cbn [fst snd] in *.
  split_and!.
  - intros q Hq. cbv zeta.
    assert (Qle_bool q 0 = false) as ->.
    { apply not_true_is_false. intros H%Qle_bool_iff. lra. }
    split_and!.
    + by rewrite update_settings_lookup, decide_True, Hst.
    + by rewrite update_settings_lookup, decide_True, Hst.
    + intros c Hc. rewrite update_settings_lookup, decide_False by done.
      by apply Hother.
  - intros n Hn. cbv zeta.
    assert ((n <=? 0)%Z = false) as -> by by apply Z.leb_gt.
    split_and!.
    + by rewrite update_settings_lookup, decide_True, Hst.
    + by rewrite update_settings_lookup, decide_True, Hst.
    + intros c Hc. rewrite update_settings_lookup, decide_False by done.
      by apply Hother.
  - intros q Hq. apply Qle_bool_iff in Hq. by rewrite Hq.
  - done.
  - intros n Hn. apply Z.leb_le in Hn. by rewrite Hn.
  - done.
Qed.

(** * Further properties of the poller life cycle *)

(** The interval table and the handle registry after a start. *)
Lemma startMonitoringWallet_intervals address chatId now run (t : tracker) :
  let key := key_of chatId address in
  let t' := (startMonitoringWallet address chatId now run t).2 in
  let cleared := match monitoringIntervals t !! key with
                 | Some h => delete h (intervals t)
                 | None => intervals t
                 end in
  match run with
  | Fetched _ =>
      intervals t'
      = <[fresh (dom cleared) :=
            {| task_address := address; task_chatId := chatId;
               task_monitoringStartTime := (now `div` 1000)%Z |}]> cleared
      ∧ monitoringIntervals t'
        = <[key := fresh (dom cleared)]> (monitoringIntervals t)
  | _ =>
      intervals t' = cleared
      ∧ monitoringIntervals t' = delete key (monitoringIntervals t)
  end.
Proof.
  intros key t' cleared. subst t' cleared.
  unfold startMonitoringWallet, set_cursor, setInterval, clearInterval,
    getUserSettings, gets, modify, mbind, M_bind, mret, M_ret.
  fold key.
  destruct (monitoringIntervals t !! key) as [h|] eqn:Hk;
    cbn [userSettings set_intervals set_monitoringIntervals];
    destruct (userSettings t !! chatId);
    destruct run as [| |[[|sig sigs]|]]; cbn;
    rewrite ?insert_delete_eq, ?(delete_id _ _ Hk); done.
Qed.

(** X9. When its awaited calls succeed, [startMonitoringWallet] leaves
    exactly one running interval for the wallet: the handle registered under
    the wallet's key runs the polling closure with
    [monitoringStartTime = floor(now / 1000)]; an interval that ran for the
    key before is cleared, so restarting a tracked wallet does not change
    the number of running intervals, and starting a new one adds one.  When
    the first message to the chat is rejected, or the address is refused by
    [new PublicKey], it leaves none: the interval that ran for the key
    before is cleared all the same and nothing is registered, so a failed
    restart stops the polling of the wallet. *)
Theorem startMonitoringWallet_one_interval (address : string) (chatId : Z)
    (now : Z) (initialSigs : option (list sig_info)) (t : tracker) :
  let key := key_of chatId address in
  let t' := (startMonitoringWallet address chatId now (Fetched initialSigs) t).2 in
  let task := {| task_address := address; task_chatId := chatId;
                 task_monitoringStartTime := (now `div` 1000)%Z |} in
  (∃ handle, monitoringIntervals t' !! key = Some handle
             ∧ intervals t' !! handle = Some task
             ∧ ∀ h, monitoringIntervals t !! key = Some h → h ≠ handle →
                    intervals t' !! h = None)
  ∧ (∀ k, k ≠ key → monitoringIntervals t' !! k = monitoringIntervals t !! k)
  ∧ (∀ h, monitoringIntervals t !! key = Some h → is_Some (intervals t !! h) →
          size (intervals t') = size (intervals t))
  ∧ (monitoringIntervals t !! key = None →
     size (intervals t') = S (size (intervals t)))
  ∧ (∀ run, run = SendMessageThrew ∨ run = PublicKeyThrew →
       let failed := (startMonitoringWallet address chatId now run t).2 in
       monitoringIntervals failed !! key = None
       ∧ (∀ k, k ≠ key →
            monitoringIntervals failed !! k = monitoringIntervals t !! k)
       ∧ (∀ h, monitoringIntervals t !! key = Some h →
            intervals failed = delete h (intervals t))
       ∧ (monitoringIntervals t !! key = None → intervals failed = intervals t)).
Proof.
  intros key t' task.
  assert (Hfailed : ∀ run, run = SendMessageThrew ∨ run = PublicKeyThrew →
            let failed := (startMonitoringWallet address chatId now run t).2 in
            monitoringIntervals failed !! key = None
            ∧ (∀ k, k ≠ key →
                 monitoringIntervals failed !! k = monitoringIntervals t !! k)
            ∧ (∀ h, monitoringIntervals t !! key = Some h →
                 intervals failed = delete h (intervals t))
            ∧ (monitoringIntervals t !! key = None → intervals failed = intervals t)).
  { intros run Hrun failed.
    pose proof (startMonitoringWallet_intervals address chatId now run t) as H.
    cbv zeta in H. fold key failed in H.
    assert (Hf : intervals failed
                 = match monitoringIntervals t !! key with
                   | Some h => delete h (intervals t)
                   | None => intervals t
                   end
                 ∧ monitoringIntervals failed = delete key (monitoringIntervals t)).
    { by destruct Hrun as [-> | ->]. }
    destruct Hf as [Hi Hm]. rewrite Hi, Hm. split_and!.
    - by rewrite lookup_delete_eq.
    - intros k Hk. by rewrite lookup_delete_ne.
    - by intros h ->.
    - by intros ->. }
  destruct (startMonitoringWallet_intervals address chatId now
              (Fetched initialSigs) t) as [Hi Hm].
  fold key t' task in Hi, Hm. clearbody t'.
  set (cleared := match monitoringIntervals t !! key with
                  | Some h => delete h (intervals t)
                  | None => intervals t
                  end) in *.
  assert (Hfresh : cleared !! fresh (dom cleared) = None).
  { apply not_elem_of_dom, is_fresh. }
  rewrite Hi, Hm. split_and!.
  - exists (fresh (dom cleared)). split_and!.
    + by rewrite lookup_insert_eq.
    + by rewrite lookup_insert_eq.
    + intros h Hh Hne. rewrite lookup_insert_ne by done.
      subst cleared. rewrite Hh. by rewrite lookup_delete_eq.
  - intros k Hk. by rewrite lookup_insert_ne.
  - intros h Hh [task0 Ht0]. rewrite map_size_insert_None by done.
    subst cleared. rewrite Hh.
    rewrite <- (insert_delete_id (intervals t) h task0 Ht0) at 2.
    rewrite map_size_insert_None by by rewrite lookup_delete_eq. done.
  - intros Hnone. rewrite map_size_insert_None by done.
    subst cleared. by rewrite Hnone.
  - exact Hfailed.
Qed.

Lemma map_get_map_delete l k l' k' (h : gmap loc object) :
  map_get l k (map_delete l' k' h)
  = if decide (l = l' ∧ k = k') then None else map_get l k h.
Proof.
  unfold map_get, map_delete.
  destruct (h !! l') as [[m|a|o]|] eqn:E.
  - destruct (decide (l = l')) as [->|Hl].
    + rewrite lookup_insert_eq, E.
      destruct (decide (k = k')) as [->|Hk].
      * rewrite decide_True by done. by rewrite lookup_delete_eq.
      * rewrite decide_False by (intros [_ ?]; done). by rewrite lookup_delete_ne.
    + rewrite lookup_insert_ne by done.
      by rewrite decide_False by (intros [? _]; done).
  - destruct (decide _) as [[-> _]|]; [by rewrite E|done].
  - destruct (decide _) as [[-> _]|]; [by rewrite E|done].
  - destruct (decide _) as [[-> _]|]; [by rewrite E|done].
Qed.

(** The tracker after [deleteWallet], field by field. *)
Lemma deleteWallet_fields chatId address (t : tracker) :
  let s := (getUserSettings chatId t).1 in
  let t1 := (getUserSettings chatId t).2 in
  let t' := (deleteWallet chatId address t).2 in
  let key := key_of chatId address in
  heap t' = map_delete (lastProcessedSignatures s) address
              (map_delete (wallets s) address (heap t1))
  ∧ userSettings t' = userSettings t1
  ∧ monitoringIntervals t' = delete key (monitoringIntervals t)
  ∧ intervals t' = match monitoringIntervals t !! key with
                   | Some h => delete h (intervals t)
                   | None => intervals t
                   end
  ∧ recentTransactions t' = recentTransactions t
  ∧ trace t' = trace t.
Proof.
  intros s t1 t' key. subst s t1 t'.
  unfold deleteWallet, clearInterval, getUserSettings, gets, modify, mbind,
    M_bind, mret, M_ret.
  fold key.
  destruct (userSettings t !! chatId);
    cbn [monitoringIntervals set_userSettings set_heap];
    destruct (monitoringIntervals t !! key) as [h|] eqn:Hk; cbn;
    split_and!; try done.
  all: symmetry; by apply delete_id.
Qed.

(** X10. [deleteWallet] cancels the wallet's poller and forgets the wallet:
    afterwards no handle is registered under its key and the interval that
    was is cleared, and the subscriber's nickname and cursor for the address
    are gone; entries of other addresses, the settings and the trace are as
    after [getUserSettings] alone.  It does not touch the aggregation
    windows: what the wallet bought stays counted in them. *)
Theorem deleteWallet_cancels_and_forgets (chatId : Z) (address : string)
    (t : tracker) :
  let s := (getUserSettings chatId t).1 in
  let t1 := (getUserSettings chatId t).2 in
  let t' := (deleteWallet chatId address t).2 in
  let key := key_of chatId address in
  monitoringIntervals t' !! key = None
  ∧ (∀ h, monitoringIntervals t !! key = Some h → intervals t' !! h = None)
  ∧ (∀ k, k ≠ key → monitoringIntervals t' !! k = monitoringIntervals t !! k)
  ∧ map_get (wallets s) address (heap t') = None
  ∧ map_get (lastProcessedSignatures s) address (heap t') = None
  ∧ (∀ l a, a ≠ address → map_get l a (heap t') = map_get l a (heap t1))
  ∧ userSettings t' = userSettings t1
  ∧ recentTransactions t' = recentTransactions t
  ∧ trace t' = trace t.
Proof.
  intros s t1 t' key.
  destruct (deleteWallet_fields chatId address t) as (Hh & Hu & Hm & Hi & Hr & Ht).
  fold s t1 t' key in Hh, Hu, Hm, Hi, Hr, Ht. clearbody t' t1 s.
  rewrite Hh, Hm, Hi. split_and!; try done.
  - by rewrite lookup_delete_eq.
  - intros h ->. by rewrite lookup_delete_eq.
  - intros k Hk. by rewrite lookup_delete_ne.
  - rewrite map_get_map_delete.
    destruct (decide _); [done|]. rewrite map_get_map_delete.
    by rewrite decide_True.
  - rewrite map_get_map_delete. by rewrite decide_True.
  - intros l a Ha. rewrite !map_get_map_delete.
    by rewrite !decide_False by (intros [_ ?]; done).
Qed.

(** X11. Starting the poller of a wallet that has none and deleting the
    wallet again is a round trip on the timers: the handle registry and the
    table of running intervals are as they were before. *)
Theorem start_then_delete_restores_timers (address : string) (chatId : Z)
    (now : Z) (run : start_run) (t : tracker) :
  monitoringIntervals t !! key_of chatId address = None →
  let t' := (deleteWallet chatId address
               (startMonitoringWallet address chatId now run t).2).2 in
  monitoringIntervals t' = monitoringIntervals t
  ∧ intervals t' = intervals t.
Proof.
  intros Hnone t'.
  pose proof (startMonitoringWallet_intervals address chatId now run t) as H.
  cbv zeta in H. rewrite Hnone in H.
  set (t1 := (startMonitoringWallet address chatId now run t).2) in *.
  destruct (deleteWallet_fields chatId address t1) as (_ & _ & Hm' & Hi' & _).
  fold t' in Hm', Hi'. clearbody t' t1.
  rewrite Hm', Hi'.
  assert (Hrun : (∃ initialSigs, run = Fetched initialSigs)
                 ∨ run = SendMessageThrew ∨ run = PublicKeyThrew).
  { destruct run; eauto. }
  destruct Hrun as [[initialSigs ->] | Hrun].
  - destruct H as [Hi Hm]. rewrite Hm, Hi, lookup_insert_eq.
    split.
    + by apply delete_insert_id.
    + apply delete_insert_id, not_elem_of_dom, is_fresh.
  - assert (Hf : intervals t1 = intervals t
                 ∧ monitoringIntervals t1 = delete (key_of chatId address)
                                              (monitoringIntervals t)).
    { by destruct Hrun as [-> | ->]. }
    destruct Hf as [Hi Hm]. rewrite Hm, Hi, lookup_delete_eq.
    split; [|done]. rewrite delete_delete_eq. by apply delete_id.
Qed.

Lemma start_then_delete_restores_timers_witness :
  let t' := (deleteWallet 1 "walletB"
               (startMonitoringWallet "walletB" 1 1700000300000 (Fetched None)
                  Scenario.tracking).2).2 in
  monitoringIntervals t' = monitoringIntervals Scenario.tracking
  ∧ intervals t' = intervals Scenario.tracking.
Proof.
  apply (start_then_delete_restores_timers "walletB" 1 1700000300000
           (Fetched None) Scenario.tracking).
  vm_compute. reflexivity.
Defined.

(** * Further properties of the shared settings objects *)

Lemma shares_defaults_getUserSettings chatId (t : tracker) :
  shares_defaults t → shares_defaults (getUserSettings chatId t).2.
Proof.
  intros Hv c s [H | (-> & Hnone & ->)]%getUserSettings_lookup; [by eapply Hv|].
  unfold getUserSettings. by rewrite Hnone.
Qed.

Lemma shares_defaults_update chatId f (t : tracker) :
  (∀ s, lastProcessedSignatures (f s) = lastProcessedSignatures s
        ∧ userWallets (f s) = userWallets s
        ∧ monitoringStartTimes (f s) = monitoringStartTimes s) →
  shares_defaults t → shares_defaults (update_settings chatId f t).2.
Proof.
  intros Hf Hv c s. rewrite update_settings_lookup.
  destruct (decide (c = chatId)); [|by apply Hv].
  destruct (userSettings t !! c) as [s1|] eqn:E; [|done].
  intros [= <-]. destruct (Hf s1) as (-> & -> & ->). by eapply Hv.
Qed.

Lemma startMonitoringWallet_userSettings address chatId now run (t : tracker) :
  userSettings (startMonitoringWallet address chatId now run t).2
  = userSettings (getUserSettings chatId t).2.
Proof.
  unfold startMonitoringWallet, set_cursor, setInterval, clearInterval,
    getUserSettings, gets, modify, mbind, M_bind, mret, M_ret.
  destruct (monitoringIntervals t !! _);
    cbn [userSettings set_intervals set_monitoringIntervals];
    destruct (userSettings t !! chatId);
    by destruct run as [| |[[|sig sigs]|]].
Qed.

Lemma handleCreateWallet_userSettings chatId publicKey privateKey now (t : tracker) :
  userSettings (handleCreateWallet chatId publicKey privateKey now t).2
  = userSettings (getUserSettings chatId t).2.
Proof.
  unfold handleCreateWallet, getUserSettings, gets, modify, mbind, M_bind.
  by destruct (userSettings t !! chatId).
Qed.

(** X12. In every tracker the commands can reach, all settings objects hold
    one and the same cursor map, personal-wallet array and start-time
    record, those of [defaultSettings]: this holds after construction and is
    kept by [getUserSettings], [setThreshold], [setWalletCount],
    [pauseMonitoring], [startMonitoringWallet], [deleteWallet] and
    [handleCreateWallet]. *)
Theorem settings_always_share_defaults :
  shares_defaults new_WalletTracker
  ∧ ∀ t, shares_defaults t →
      ∀ chatId address threshold count now run publicKey privateKey,
        shares_defaults (getUserSettings chatId t).2
        ∧ shares_defaults (setThreshold chatId threshold t).2
        ∧ shares_defaults (setWalletCount chatId count t).2
        ∧ shares_defaults (pauseMonitoring chatId t).2
        ∧ shares_defaults (startMonitoringWallet address chatId now run t).2
        ∧ shares_defaults (deleteWallet chatId address t).2
        ∧ shares_defaults (handleCreateWallet chatId publicKey privateKey now t).2.
Proof.
  split.
  { intros c s Hs. cbn in Hs. by rewrite lookup_empty in Hs. }
  intros t Hv chatId address threshold count now run publicKey privateKey.
  pose proof (shares_defaults_getUserSettings chatId t Hv) as Hv1.
  split_and!; try done.
  - unfold setThreshold, mbind, M_bind.
    destruct (getUserSettings chatId t) as [s0 t1]. cbn [snd] in Hv1.
    destruct threshold as [q|]; [|done].
    destruct (Qle_bool q 0); [done|]. by apply shares_defaults_update.
  - unfold setWalletCount, mbind, M_bind.
    destruct (getUserSettings chatId t) as [s0 t1]. cbn [snd] in Hv1.
    destruct count as [n|]; [|done].
    destruct (n <=? 0)%Z; [done|]. by apply shares_defaults_update.
  - unfold pauseMonitoring, mbind, M_bind.
    destruct (getUserSettings chatId t) as [s0 t1]. cbn [snd] in Hv1.
    by apply shares_defaults_update.
  - intros c s. rewrite startMonitoringWallet_userSettings. apply Hv1.
  - intros c s.
    destruct (deleteWallet_fields chatId address t) as (_ & -> & _). apply Hv1.
  - intros c s. rewrite handleCreateWallet_userSettings. apply Hv1.
Qed.

(** * Further properties of the wallet poller *)

Lemma map_get_map_set l k l' k' v (h : gmap loc object) :
  k ≠ k' → map_get l k (map_set l' k' v h) = map_get l k h.
Proof.
  intros Hk. unfold map_get, map_set.
  destruct (h !! l') as [[m|a|o]|] eqn:E; try done.
  destruct (decide (l = l')) as [->|Hl].
  - by rewrite lookup_insert_eq, E, lookup_insert_ne.
  - by rewrite lookup_insert_ne.
Qed.

Lemma object_get_map_set l k l' k' v (h : gmap loc object) :
  object_get l k (map_set l' k' v h) = object_get l k h.
Proof.
  unfold object_get, map_set.
  destruct (h !! l') as [[m|a|o]|] eqn:E; try done.
  destruct (decide (l = l')) as [->|Hl].
  - by rewrite lookup_insert_eq, E.
  - by rewrite lookup_insert_ne.
Qed.

(** X13. The signatures a tick takes as new are the fetched ones up to, and
    without, the first that equals the cursor: they are a prefix of the
    fetched list, none of them equals the cursor, and what is cut off is
    nothing or starts with the cursor.  Without a cursor, or with a cursor
    that is not among the fetched signatures, every fetched signature is
    new. *)
Theorem newSignatures_longest_prefix (newSigs : list sig_info)
    (lastProcessedSig : option string) :
  let new := newSignatures_of newSigs lastProcessedSig in
  (∃ rest, newSigs = new ++ rest
           ∧ (rest = [] ∨ (signature <$> head rest) = lastProcessedSig))
  ∧ Forall (λ sig, Some (signature sig) ≠ lastProcessedSig) new
  ∧ (Forall (λ sig, Some (signature sig) ≠ lastProcessedSig) newSigs →
     new = newSigs).
Proof.
  intros new. subst new. induction newSigs as [|sig sigs IH]; cbn.
  { split_and!; try done. exists []. split; [done|by left]. }
  destruct IH as ((rest & Hrest & Hcut) & Hall & Hfull).
  destruct (decide (Some (signature sig) = lastProcessedSig)) as [Heq|Hne].
  - split_and!.
    + exists (sig :: sigs). split; [done|]. by right.
    + constructor.
    + intros H. by apply Forall_cons in H as [? _].
  - split_and!.
    + exists rest. split; [cbn; by f_equal|done].
    + by constructor.
    + intros H. apply Forall_cons in H as [_ H]. by rewrite Hfull.
Qed.

(** The state a tick of an unpaused, known subscriber ends in keeps the
    settings, and its store is that after the cursor write. *)
Lemma tick_frame getTokenMetadata getTransaction clock task newSigs (t : tracker)
    settings :
  userSettings t !! task_chatId task = Some settings →
  isPaused settings = false →
  let t' := (tick getTokenMetadata getTransaction clock task (Some newSigs) t).2 in
  let cursor :=
    map_get (lastProcessedSignatures settings) (task_address task) (heap t) in
  userSettings t' = userSettings t
  ∧ heap t' = match newSignatures_of newSigs cursor with
              | [] => heap t
              | newest :: _ =>
                  map_set (lastProcessedSignatures settings) (task_address task)
                    (signature newest) (heap t)
              end.
Proof.
  intros Hs Hp t' cursor. subst t'.
  rewrite (tick_run _ _ _ _ _ _ _ Hs Hp). fold cursor.
  destruct (newSignatures_of newSigs cursor) as [|newest older]; [done|].
  set (t1 := emit _ (set_heap _ t)).
  assert (Hs1 : userSettings t1 !! task_chatId task = Some settings) by done.
  destruct (forM_process_frame getTokenMetadata getTransaction clock
              (task_address task) (task_chatId task)
              (task_monitoringStartTime task) (rev (newest :: older)) t1
              settings Hs1) as (Hh & Hu & _).
  by rewrite Hh, Hu.
Qed.

(** X14. After a tick of an unpaused subscriber over a non-empty fetched
    list, the wallet's cursor is the newest fetched signature, whether
    anything was new or not; the settings of all subscribers, the cursors of
    other addresses and the start-time records are as before. *)
Theorem tick_leaves_cursor_at_newest
    (getTokenMetadata : string → token_metadata)
    (getTransaction : string → fetched) (clock : string → Z * Z)
    (task : poll_task) (newest : sig_info) (rest : list sig_info) (t : tracker)
    (settings : settings) (cursors : gmap string string) :
  userSettings t !! task_chatId task = Some settings →
  isPaused settings = false →
  heap t !! lastProcessedSignatures settings = Some (JsMap cursors) →
  let t' := (tick getTokenMetadata getTransaction clock task
               (Some (newest :: rest)) t).2 in
  map_get (lastProcessedSignatures settings) (task_address task) (heap t')
    = Some (signature newest)
  ∧ userSettings t' = userSettings t
  ∧ (∀ l a, a ≠ task_address task → map_get l a (heap t') = map_get l a (heap t))
  ∧ (∀ l a, object_get l a (heap t') = object_get l a (heap t)).
Proof.
  intros Hs Hp Hm t'.
  destruct (tick_frame getTokenMetadata getTransaction clock task (newest :: rest)
              t settings Hs Hp) as [Hu Hh].
  fold t' in Hu, Hh. clearbody t'. rewrite Hh, Hu.
  destruct (newSignatures_of _ _) as [|n older] eqn:Hn.
  - split_and!; try done.
    cbn in Hn. destruct (decide _) as [E|]; [|done]. by symmetry.
  - destruct (newSignatures_of_head _ _ _ _ Hn) as [r [= <- _]].
    split_and!; try done.
    + by eapply map_get_set.
    + intros l a Ha. by apply map_get_map_set.
    + intros l a. apply object_get_map_set.
Qed.

Lemma tick_leaves_cursor_at_newest_witness :
  let newest := {| signature := "sig2"; blockTime := Some 1700000200%Z |} in
  let older := {| signature := "sig1"; blockTime := Some 1700000100%Z |} in
  let t' := (tick Scenario.no_metadata (λ _, FetchNull) (λ _, (0, 0)%Z)
               Scenario.taskA (Some [newest; older]) Scenario.tracking).2 in
  map_get (lastProcessedSignatures (getUserSettings 1 Scenario.tracking).1)
    "walletA" (heap t') = Some "sig2".
Proof.
  intros newest older t'.
  refine (proj1 (tick_leaves_cursor_at_newest Scenario.no_metadata (λ _, FetchNull)
                   (λ _, (0, 0)%Z) Scenario.taskA newest [older] Scenario.tracking
                   (getUserSettings 1 Scenario.tracking).1
                   (<["walletA" := "sig0"]> ∅) _ _ _)).
  - vm_compute. reflexivity.
  - reflexivity.
  - vm_compute. reflexivity.
Defined.

(** X15. Two subscribers that track the same address share its cursor: once
    the poller of one has run over a fetched list, the poller of the other
    over the same list finds nothing new and changes nothing, so the second
    subscriber gets none of those transactions. *)
Theorem shared_cursor_starves_second_subscriber
    (getTokenMetadata : string → token_metadata)
    (getTransaction : string → fetched) (clock : string → Z * Z)
    (address : string) (chat1 chat2 start1 start2 : Z)
    (newest : sig_info) (rest : list sig_info) (t : tracker)
    (settings1 settings2 : settings) (cursors : gmap string string) :
  shares_defaults t →
  userSettings t !! chat1 = Some settings1 →
  userSettings t !! chat2 = Some settings2 →
  isPaused settings1 = false →
  heap t !! lastProcessedSignatures defaultSettings = Some (JsMap cursors) →
  let task1 := {| task_address := address; task_chatId := chat1;
                  task_monitoringStartTime := start1 |} in
  let task2 := {| task_address := address; task_chatId := chat2;
                  task_monitoringStartTime := start2 |} in
  let t1 := (tick getTokenMetadata getTransaction clock task1
               (Some (newest :: rest)) t).2 in
  tick getTokenMetadata getTransaction clock task2 (Some (newest :: rest)) t1
  = ((), t1).
Proof.
  intros Hshare Hs1 Hs2 Hp1 Hm task1 task2 t1.
  destruct (Hshare chat1 settings1 Hs1) as (Hl1 & _).
  destruct (Hshare chat2 settings2 Hs2) as (Hl2 & _).
  rewrite <- Hl1 in Hm.
  destruct (tick_frame getTokenMetadata getTransaction clock task1 (newest :: rest)
              t settings1 Hs1 Hp1) as [Hu Hh].
  fold t1 in Hu, Hh.
  assert (Hc : map_get (lastProcessedSignatures settings1) address (heap t1)
               = Some (signature newest)).
  { rewrite Hh. cbn [task_address task1].
    destruct (newSignatures_of _ _) as [|n older] eqn:Hn.
    - cbn in Hn. destruct (decide _) as [E|]; [|done]. by symmetry.
    - destruct (newSignatures_of_head _ _ _ _ Hn) as [r [= <- _]].
      by eapply map_get_set. }
  clearbody t1.
  unfold tick, mbind, M_bind, gets. cbn [task_chatId task_address task2].
  rewrite Hu, Hs2.
  destruct (isPaused settings2); [done|].
  rewrite Hl2, <- Hl1, Hc. by rewrite newSignatures_of_at_cursor.
Qed.

Lemma shares_defaults_map_Forall (t : tracker) :
  map_Forall (λ _ s,
      lastProcessedSignatures s = lastProcessedSignatures defaultSettings
      ∧ userWallets s = userWallets defaultSettings
      ∧ monitoringStartTimes s = monitoringStartTimes defaultSettings)
    (userSettings t)
  → shares_defaults t.
Proof. intros H c s Hs. exact (H c s Hs). Qed.

(** Subscriber 2 makes contact while subscriber 1 tracks wallet A, and both
    pollers see the same two new signatures. *)
Lemma shared_cursor_starves_second_subscriber_witness :
  let t := (getUserSettings 2 Scenario.tracking).2 in
  let newSigs := [ {| signature := "sig2"; blockTime := Some 1700000200%Z |};
                   {| signature := "sig1"; blockTime := Some 1700000100%Z |} ] in
  let task2 := {| task_address := "walletA"; task_chatId := 2;
                  task_monitoringStartTime := 1700000050 |} in
  let t1 := (tick Scenario.no_metadata (λ _, FetchNull) (λ _, (0, 0)%Z)
               Scenario.taskA (Some newSigs) t).2 in
  tick Scenario.no_metadata (λ _, FetchNull) (λ _, (0, 0)%Z) task2
    (Some newSigs) t1 = ((), t1).
Proof.
  intros t newSigs task2 t1.
  refine (shared_cursor_starves_second_subscriber Scenario.no_metadata
            (λ _, FetchNull) (λ _, (0, 0)%Z) "walletA" 1 2 1700000000 1700000050
            {| signature := "sig2"; blockTime := Some 1700000200%Z |}
            [ {| signature := "sig1"; blockTime := Some 1700000100%Z |} ]
            t (getUserSettings 1 t).1 (getUserSettings 2 t).1
            (<["walletA" := "sig0"]> ∅) _ _ _ _ _).
  - apply shares_defaults_map_Forall. apply (bool_decide_unpack _).
    vm_compute. reflexivity.
  - vm_compute. reflexivity.
  - vm_compute. reflexivity.
  - reflexivity.
  - vm_compute. reflexivity.
Defined.

Lemma fetched_signatures_app (evs1 evs2 : list event) :
  fetched_signatures (evs1 ++ evs2)
  = fetched_signatures evs1 ++ fetched_signatures evs2.
Proof. apply omap_app. Qed.

(** What one iteration of the body loop asks the chain for. *)
Lemma process_signature_fetches getTokenMetadata getTransaction clock address
    chatId monitoringStartTime sig (t : tracker) s :
  userSettings t !! chatId = Some s →
  let t' := (process_signature getTokenMetadata getTransaction clock address
               chatId monitoringStartTime sig t).2 in
  fetched_signatures (trace t')
  = fetched_signatures (trace t)
    ++ (if too_old monitoringStartTime sig then [] else [signature sig]).
Proof.
  intros Hs t'. subst t'. unfold process_signature.
  destruct (too_old monitoringStartTime sig); [by rewrite app_nil_r|].
  unfold mbind, M_bind, modify. cbv beta iota.
  set (t1 := emit (EvGetTransaction (signature sig)) t).
  assert (Hs1 : userSettings t1 !! chatId = Some s) by done.
  assert (H1 : fetched_signatures (trace t1)
               = fetched_signatures (trace t) ++ [signature sig]).
  { subst t1. cbn [trace emit]. by rewrite fetched_signatures_app. }
  destruct (getTransaction (signature sig)) as [| |tx]; [done..|].
  pose proof (extractTokenInfoFromTx_state getTokenMetadata (Some tx) chatId
                address t1 s Hs1) as Hex.
  destruct (extractTokenInfoFromTx _ _ _ _ t1) as [[info|] t2]; cbn in Hex; subst t2;
    [|done].
  destruct (_ && _); [|done].
  rewrite (processTransaction_signal _ _ _ _ _ _ _ _ _ _ Hs1).
  destruct (alert_due _ _); cbn [snd trace set_recentTransactions emit]; [|done].
  rewrite fetched_signatures_app, H1. cbn. by rewrite app_nil_r.
Qed.

Lemma forM_process_fetches getTokenMetadata getTransaction clock address chatId
    monitoringStartTime (sigs : list sig_info) (t : tracker) s :
  userSettings t !! chatId = Some s →
  let t' := (forM_ sigs (process_signature getTokenMetadata getTransaction clock
                           address chatId monitoringStartTime) t).2 in
  fetched_signatures (trace t')
  = fetched_signatures (trace t)
    ++ (signature <$> filter (λ sig, too_old monitoringStartTime sig = false) sigs).
Proof.
  revert t. induction sigs as [|sig sigs IH]; intros t Hs; cbv zeta.
  { cbn. by rewrite app_nil_r. }
  rewrite forM_cons.
  pose proof (process_signature_fetches getTokenMetadata getTransaction clock
                address chatId monitoringStartTime sig t s Hs) as H1.
  destruct (process_signature_frame getTokenMetadata getTransaction clock address
              chatId monitoringStartTime sig t s Hs) as (_ & Hu1 & _).
  cbv zeta in H1.
  set (t1 := (process_signature _ _ _ _ _ _ sig t).2) in *. clearbody t1.
  rewrite IH by by rewrite Hu1.
  rewrite H1, filter_cons.
  destruct (too_old monitoringStartTime sig).
  - rewrite decide_False by done. by rewrite app_nil_r.
  - rewrite decide_True by done. cbn. by rewrite <- app_assoc.
Qed.

(** X16. A tick asks the chain for the bodies of the new signatures oldest
    first (the fetched list is newest first), and never for a signature whose
    non-zero block time lies before the time monitoring started. *)
Theorem tick_fetches_oldest_first
    (getTokenMetadata : string → token_metadata)
    (getTransaction : string → fetched) (clock : string → Z * Z)
    (task : poll_task) (newSigs : list sig_info) (t : tracker)
    (settings : settings) :
  userSettings t !! task_chatId task = Some settings →
  isPaused settings = false →
  let t' := (tick getTokenMetadata getTransaction clock task (Some newSigs) t).2 in
  let cursor :=
    map_get (lastProcessedSignatures settings) (task_address task) (heap t) in
  fetched_signatures (trace t')
  = fetched_signatures (trace t)
    ++ (signature <$>
          filter (λ sig, too_old (task_monitoringStartTime task) sig = false)
                 (rev (newSignatures_of newSigs cursor))).
Proof.
  intros Hs Hp t' cursor. subst t'.
  rewrite (tick_run _ _ _ _ _ _ _ Hs Hp). fold cursor.
  destruct (newSignatures_of newSigs cursor) as [|newest older].
  { cbn. by rewrite app_nil_r. }
  set (t1 := emit _ (set_heap _ t)).
  assert (Hs1 : userSettings t1 !! task_chatId task = Some settings) by done.
  rewrite (forM_process_fetches _ _ _ _ _ _ _ _ _ Hs1).
  subst t1. cbn [trace emit set_heap]. rewrite fetched_signatures_app. cbn.
  by rewrite app_nil_r.
Qed.

Lemma tick_fetches_oldest_first_witness :
  let newSigs := [ {| signature := "sig3"; blockTime := Some 1700000200%Z |};
                   {| signature := "sig2"; blockTime := Some 1699999999%Z |};
                   {| signature := "sig1"; blockTime := None |} ] in
  let t' := (tick Scenario.no_metadata (λ _, FetchThrew) (λ _, (0, 0)%Z)
               Scenario.taskA (Some newSigs) Scenario.tracking).2 in
  fetched_signatures (trace t') = ["sig1"; "sig3"].
Proof.
  intros newSigs t'.
  refine (eq_trans
            (tick_fetches_oldest_first Scenario.no_metadata (λ _, FetchThrew)
               (λ _, (0, 0)%Z) Scenario.taskA newSigs Scenario.tracking
               (getUserSettings 1 Scenario.tracking).1 _ _) _).
  - vm_compute. reflexivity.
  - reflexivity.
  - vm_compute. reflexivity.
Defined.

(** X17. A tick leaves the aggregation windows and the alerts alone unless a
    fetched body classifies as a buy of a known mint: for a signature that
    is too old, whose body the endpoint throws on or does not have, that the
    classifier rejects, or whose asset is ["unknown"], the iteration changes
    no window (it does not even sweep) and hands off no alert. *)
Theorem non_buys_leave_windows_alone
    (getTokenMetadata : string → token_metadata)
    (getTransaction : string → fetched) (clock : string → Z * Z)
    (address : string) (chatId monitoringStartTime : Z) (sig : sig_info)
    (t : tracker) (settings : settings) :
  userSettings t !! chatId = Some settings →
  (too_old monitoringStartTime sig = true
   ∨ getTransaction (signature sig) = FetchThrew
   ∨ getTransaction (signature sig) = FetchNull
   ∨ ∃ tx, getTransaction (signature sig) = FetchTx tx
       ∧ match (extractTokenInfoFromTx getTokenMetadata (Some tx) chatId address t).1
         with
         | Some info => tokenAddress info = "unknown"
         | None => True
         end) →
  let t' := (process_signature getTokenMetadata getTransaction clock address
               chatId monitoringStartTime sig t).2 in
  recentTransactions t' = recentTransactions t
  ∧ alerts (trace t') = alerts (trace t)
  ∧ heap t' = heap t ∧ userSettings t' = userSettings t.
Proof.
  intros Hs Hcase t'. subst t'. unfold process_signature.
  destruct (too_old monitoringStartTime sig) eqn:Hold; [done|].
  unfold mbind, M_bind, modify. cbv beta iota.
  set (t1 := emit (EvGetTransaction (signature sig)) t).
  assert (Hs1 : userSettings t1 !! chatId = Some settings) by done.
  assert (H1 : recentTransactions t1 = recentTransactions t
               ∧ alerts (trace t1) = alerts (trace t)
               ∧ heap t1 = heap t ∧ userSettings t1 = userSettings t).
  { subst t1. cbn [trace emit recentTransactions heap userSettings].
    split_and!; try done. unfold alerts. rewrite omap_app. cbn.
    by rewrite app_nil_r. }
  destruct Hcase as [?|[->|[->|(tx & -> & Hclass)]]]; [done..|].
  assert (Hsame : extractTokenInfoFromTx getTokenMetadata (Some tx) chatId address t1
                  = ((extractTokenInfoFromTx getTokenMetadata (Some tx) chatId
                        address t).1, t1)).
  { destruct tx as [[m|]]; [|done].
    rewrite !extractTokenInfoFromTx_meta.
    rewrite (getUserSettings_known _ _ _ Hs), (getUserSettings_known _ _ _ Hs1).
    by destruct (QMicromega.Qlt_bool _ _). }
  rewrite Hsame.
  destruct (extractTokenInfoFromTx _ _ _ _ t).1 as [info|]; [|done].
  rewrite Hclass. by rewrite bool_decide_eq_true_2.
Qed.

Lemma non_buys_leave_windows_alone_witness :
  let sig := {| signature := "sig5"; blockTime := Some 1700000500%Z |} in
  let tx := Scenario.buy_tx "walletB" "mintX" 2000000000 1000000000 10 in
  let t' := (process_signature Scenario.no_metadata (λ _, FetchTx tx)
               (λ _, (0, 0)%Z) "walletA" 1 1700000000 sig Scenario.tracking).2 in
  recentTransactions t' = recentTransactions Scenario.tracking
  ∧ alerts (trace t') = alerts (trace Scenario.tracking).
Proof.
  intros sig tx t'.
  destruct (non_buys_leave_windows_alone Scenario.no_metadata (λ _, FetchTx tx)
              (λ _, (0, 0)%Z) "walletA" 1 1700000000 sig Scenario.tracking
              (getUserSettings 1 Scenario.tracking).1) as (H1 & H2 & _).
  - vm_compute. reflexivity.
  - right. right. right. exists tx. split; [reflexivity|].
    vm_compute. reflexivity.
  - exact (conj H1 H2).
Defined.

Lemma map_get_object_set l k l' k' v (h : gmap loc object) :
  map_get l k (object_set l' k' v h) = map_get l k h.
Proof.
  unfold map_get, object_set.
  destruct (h !! l') as [[m|a|o]|] eqn:E; try done.
  destruct (decide (l = l')) as [->|Hl].
  - by rewrite lookup_insert_eq, E.
  - by rewrite lookup_insert_ne.
Qed.

Lemma object_set_keeps_map l l' k' v (h : gmap loc object) m :
  h !! l = Some (JsMap m) → object_set l' k' v h !! l = Some (JsMap m).
Proof.
  intros H. unfold object_set.
  destruct (h !! l') as [[m'|a|o]|] eqn:E; try done.
  destruct (decide (l = l')) as [->|Hl]; [congruence|].
  by rewrite lookup_insert_ne.
Qed.

(** The store after a start, for a known subscriber. *)
Lemma startMonitoringWallet_heap address chatId now run (t : tracker) settings :
  userSettings t !! chatId = Some settings →
  let t' := (startMonitoringWallet address chatId now run t).2 in
  let stamped := object_set (monitoringStartTimes settings) address
                   (now `div` 1000)%Z (heap t) in
  heap t' = match run with
            | SendMessageThrew => heap t
            | PublicKeyThrew => stamped
            | Fetched (Some (sig :: _)) =>
                map_set (lastProcessedSignatures settings) address (signature sig)
                  stamped
            | Fetched _ => stamped
            end
  ∧ userSettings t' = userSettings t.
Proof.
  intros Hs t' stamped. subst t' stamped.
  unfold startMonitoringWallet, set_cursor, setInterval, clearInterval,
    getUserSettings, gets, modify, mbind, M_bind, mret, M_ret.
  destruct (monitoringIntervals t !! _);
    cbn [userSettings set_intervals set_monitoringIntervals];
    rewrite Hs; by destruct run as [| |[[|sig sigs]|]].
Qed.

(** X18. No replay of history at the start.  When its awaited calls
    succeed, [startMonitoringWallet] sets the cursor to the newest signature
    the address has, so a tick of the poller it registered, over a fetched
    list that still starts with that signature, changes nothing.  When the
    lookup of the newest signature fails or finds none, and when the first
    message to the chat is rejected or [new PublicKey] refuses the address,
    the cursor is left as it was. *)
Theorem start_sets_cursor_to_newest
    (getTokenMetadata : string → token_metadata)
    (getTransaction : string → fetched) (clock : string → Z * Z)
    (address : string) (chatId now : Z) (t : tracker) (settings : settings)
    (cursors : gmap string string) :
  userSettings t !! chatId = Some settings →
  isPaused settings = false →
  heap t !! lastProcessedSignatures settings = Some (JsMap cursors) →
  let cursor u := map_get (lastProcessedSignatures settings) address (heap u) in
  let task := {| task_address := address; task_chatId := chatId;
                 task_monitoringStartTime := (now `div` 1000)%Z |} in
  let start run := (startMonitoringWallet address chatId now run t).2 in
  (∀ sig0 sigs,
     let t1 := start (Fetched (Some (sig0 :: sigs))) in
     cursor t1 = Some (signature sig0)
     ∧ ∀ blockTime' rest,
         tick getTokenMetadata getTransaction clock task
           (Some ({| signature := signature sig0; blockTime := blockTime' |} :: rest))
           t1
         = ((), t1))
  ∧ cursor (start (Fetched (Some []))) = cursor t
  ∧ cursor (start (Fetched None)) = cursor t
  ∧ cursor (start SendMessageThrew) = cursor t
  ∧ cursor (start PublicKeyThrew) = cursor t.
Proof.
  intros Hs Hp Hm cursor task start. subst start. cbv beta. split_and!.
  - intros sig0 sigs t1.
    destruct (startMonitoringWallet_heap address chatId now
                (Fetched (Some (sig0 :: sigs))) t settings Hs) as [Hh Hu].
    fold t1 in Hh, Hu. clearbody t1.
    assert (Hc : cursor t1 = Some (signature sig0)).
    { subst cursor. cbv beta. rewrite Hh.
      eapply map_get_set. by apply object_set_keeps_map. }
    split; [done|]. intros blockTime' rest.
    unfold tick, mbind, M_bind, gets. cbn [task_chatId task_address task].
    rewrite Hu, Hs, Hp. fold (cursor t1). rewrite Hc.
    cbn [newSignatures_of signature]. by rewrite decide_True.
  - subst cursor. cbv beta.
    destruct (startMonitoringWallet_heap address chatId now (Fetched (Some [])) t
                settings Hs) as [-> _].
    apply map_get_object_set.
  - subst cursor. cbv beta.
    destruct (startMonitoringWallet_heap address chatId now (Fetched None) t
                settings Hs) as [-> _].
    apply map_get_object_set.
  - subst cursor. cbv beta.
    by destruct (startMonitoringWallet_heap address chatId now SendMessageThrew t
                   settings Hs) as [-> _].
  - subst cursor. cbv beta.
    destruct (startMonitoringWallet_heap address chatId now PublicKeyThrew t
                settings Hs) as [-> _].
    apply map_get_object_set.
Qed.

Lemma start_sets_cursor_to_newest_witness :
  let t1 := (startMonitoringWallet "walletB" 1 1700000300000
               (Fetched (Some [ {| signature := "sigB0"; blockTime := None |} ]))
               Scenario.tracking).2 in
  let task := {| task_address := "walletB"; task_chatId := 1;
                 task_monitoringStartTime := 1700000300 |} in
  tick Scenario.no_metadata (λ _, FetchNull) (λ _, (0, 0)%Z) task
    (Some [ {| signature := "sigB0"; blockTime := Some 1700000100%Z |};
            {| signature := "sigB-1"; blockTime := Some 1700000000%Z |} ]) t1
  = ((), t1).
Proof.
  intros t1 task.
  destruct (start_sets_cursor_to_newest Scenario.no_metadata (λ _, FetchNull)
              (λ _, (0, 0)%Z) "walletB" 1 1700000300000 Scenario.tracking
              (getUserSettings 1 Scenario.tracking).1
              (<["walletA" := "sig0"]> ∅)) as (H & _).
  - vm_compute. reflexivity.
  - reflexivity.
  - vm_compute. reflexivity.
  - destruct (H {| signature := "sigB0"; blockTime := None |} []) as [_ H'].
    exact (H' (Some 1700000100%Z)
              [ {| signature := "sigB-1"; blockTime := Some 1700000000%Z |} ]).
Defined.

(** * Further properties of the transaction classifier *)

Lemma solAmount_of_nonneg (m : tx_meta) : (0 <= solAmount_of m)%Q.
Proof.
  unfold solAmount_of.
  destruct (preBalances m), (postBalances m); try apply Qle_refl.
  apply Q.le_max_l.
Qed.

Lemma foldl_filter {A B} (p : A → bool) (f : B → A → B) (l : list A) (b : B) :
  foldl (λ b x, if p x then f b x else b) b (filter (λ x, p x) l)
  = foldl (λ b x, if p x then f b x else b) b l.
Proof.
  revert b. induction l as [|x l IH]; intros b; [done|].
  rewrite filter_cons. cbn [foldl]. destruct (p x) eqn:Hp.
  - rewrite decide_True by exact I. cbn [foldl]. by rewrite Hp, IH.
  - rewrite decide_False by (by intros []). by rewrite IH.
Qed.

(** X19. What every emitted signal satisfies.  When the classifier answers
    with a signal for a known subscriber, the SOL amount it carries is at
    least the subscriber's threshold and not negative, the token amount is
    not negative, the token address and the display name are not empty, and
    a token address other than the placeholder comes with a positive token
    amount: the poller's second test, [tokenAmount > 0], holds whenever its
    first one, [tokenAddress !== 'unknown'], does.  The placeholder address
    carries the placeholder name. *)
Theorem classifier_signal_invariants
    (getTokenMetadata : string → token_metadata) (tx : option transaction)
    (chatId : Z) (walletAddress : string) (t : tracker) (s : settings)
    (info : token_info) :
  userSettings t !! chatId = Some s →
  (extractTokenInfoFromTx getTokenMetadata tx chatId walletAddress t).1 = Some info →
  (solThreshold s <= solAmount info)%Q
  ∧ (0 <= solAmount info)%Q
  ∧ (0 <= tokenAmount info)%Q
  ∧ (tokenAddress info ≠ "unknown" → (0 < tokenAmount info)%Q)
  ∧ tokenAddress info ≠ ""
  ∧ tokenName info ≠ ""
  ∧ (tokenAddress info = "unknown" → tokenName info = "Unknown").
Proof.
  intros Hs. destruct tx as [[[m|]]|]; [|done..].
  rewrite extractTokenInfoFromTx_meta, (getUserSettings_known _ _ _ Hs).
  destruct (QMicromega.Qlt_bool _ _) eqn:Hlt; [done|].
  cbn. intros [= <-]. cbn.
  assert (Hge : (solThreshold s <= solAmount_of m)%Q).
  { destruct (Qlt_le_dec (solAmount_of m) (solThreshold s)) as [H|H]; [|done].
    apply QMicromega.Qlt_bool_iff in H. congruence. }
  pose proof (solAmount_of_nonneg m) as Hnn.
  set (best := largest_increase _ _ _).
  assert (Hbest : best = (None, 0%Q) ∨ ∃ a, best.1 = Some a ∧ (0 < best.2)%Q).
  { subst best. unfold largest_increase.
    destruct (postTokenBalances m) as [bals|]; [|by left].
    destruct (scan_largest walletAddress
                (preBalanceMap_of walletAddress (preTokenBalances m)) bals)
      as [[-> _] | (i & b & _ & _ & -> & Hpos & _)]; [by left|].
    right. by exists (mint b). }
  split_and!; try done.
  - destruct Hbest as [-> | (a & _ & H)]; [apply Qle_refl|]. by apply Qlt_le_weak.
  - intros Hne. destruct Hbest as [-> | (a & _ & H)]; done.
  - destruct (best.1) as [[|c a]|]; done.
  - destruct (decide (or_unknown best.1 = "unknown")); [done|].
    by destruct (symbol (getTokenMetadata _)).
  - intros ->. by rewrite decide_True.
Qed.

Lemma classifier_signal_invariants_witness :
  let info := {| tokenAddress := "mintX"; tokenName := "Unknown";
                 tokenAmount := Double.sub 1000 0;
                 solAmount :=
                   Qmax 0 (Double.sub (lamports_to_SOL 5000000000)
                                      (lamports_to_SOL 4000000000)) |} in
  (solThreshold Scenario.settings1 <= solAmount info)%Q
  ∧ (0 <= solAmount info)%Q
  ∧ (0 <= tokenAmount info)%Q
  ∧ (tokenAddress info ≠ "unknown" → (0 < tokenAmount info)%Q)
  ∧ tokenAddress info ≠ ""
  ∧ tokenName info ≠ ""
  ∧ (tokenAddress info = "unknown" → tokenName info = "Unknown").
Proof.
  intros info.
  apply (classifier_signal_invariants Scenario.no_metadata
           (Some (Scenario.buy_tx "walletA" "mintX" 5000000000 4000000000 1000))
           1 "walletA" Scenario.subscribed Scenario.settings1 info).
  - vm_compute. reflexivity.
  - vm_compute. reflexivity.
Defined.

(** X20. Only the tracked wallet's own token balances count: the classifier
    answers the same, and leaves the same state, when every pre-state and
    post-state token balance of another owner (or of no owner) is removed
    from the transaction. *)
Theorem classifier_ignores_other_owners
    (getTokenMetadata : string → token_metadata) (m : tx_meta)
    (chatId : Z) (walletAddress : string) (t : tracker) :
  extractTokenInfoFromTx getTokenMetadata
    (Some {| meta := Some (own_entries walletAddress m) |}) chatId walletAddress t
  = extractTokenInfoFromTx getTokenMetadata
      (Some {| meta := Some m |}) chatId walletAddress t.
Proof.
  rewrite !extractTokenInfoFromTx_meta.
  assert (Hpre : preBalanceMap_of walletAddress
                   (preTokenBalances (own_entries walletAddress m))
                 = preBalanceMap_of walletAddress (preTokenBalances m)).
  { unfold own_entries, preBalanceMap_of. cbn.
    destruct (preTokenBalances m) as [bals|]; [|done]. cbn.
    apply (foldl_filter (owned_by walletAddress)
             (λ pm bal, <[mint bal := ui_amount bal]> pm)). }
  assert (Hpost : ∀ pm, largest_increase walletAddress pm
                    (postTokenBalances (own_entries walletAddress m))
                  = largest_increase walletAddress pm (postTokenBalances m)).
  { intros pm. unfold own_entries, largest_increase. cbn.
    destruct (postTokenBalances m) as [bals|]; [|done]. cbn.
    apply (foldl_filter (owned_by walletAddress)
             (λ best bal,
                if QMicromega.Qlt_bool best.2 (diff_of pm bal)
                then (Some (mint bal), diff_of pm bal) else best)). }
  rewrite Hpre, Hpost. done.
Qed.

(** X21. Receipts never signal.  While every stored threshold is positive
    (which the commands maintain), a transaction in which the fee payer's
    balance did not go down, or which lacks a balance array, yields no
    signal, for a known and for a new subscriber alike, whatever tokens the
    wallet received; neither does a missing transaction or one without
    metadata, which leave the state untouched as well. *)
Theorem classifier_rejects_receipts
    (getTokenMetadata : string → token_metadata) (m : tx_meta)
    (chatId : Z) (walletAddress : string) (t : tracker) :
  settings_valid t →
  no_outflow m →
  (extractTokenInfoFromTx getTokenMetadata (Some {| meta := Some m |}) chatId
     walletAddress t).1 = None
  ∧ extractTokenInfoFromTx getTokenMetadata (Some {| meta := None |}) chatId
      walletAddress t = (None, t)
  ∧ extractTokenInfoFromTx getTokenMetadata None chatId walletAddress t = (None, t).
Proof.
  intros Hv Hno. split; [|done].
  rewrite extractTokenInfoFromTx_meta.
  pose proof (settings_valid_getUserSettings chatId t Hv) as Hv'.
  pose proof (getUserSettings_stored chatId t) as Hst.
  destruct (getUserSettings chatId t) as [s t'] eqn:E. cbn [fst snd] in *.
  destruct (Hv' chatId s Hst) as [Hpos _].
  assert (H0 : (solAmount_of m == 0)%Q).
  { unfold solAmount_of, no_outflow in *.
    destruct (preBalances m) as [pre|], (postBalances m) as [post|];
      try reflexivity.
    by apply spent_zero. }
  assert (Hlt : QMicromega.Qlt_bool (solAmount_of m) (solThreshold s) = true).
  { apply QMicromega.Qlt_bool_iff. rewrite H0. done. }
  by rewrite Hlt.
Qed.

Lemma classifier_rejects_receipts_witness :
  (extractTokenInfoFromTx Scenario.no_metadata
     (Some (Scenario.buy_tx "walletA" "mintX" 4000000000 5000000000 1000))
     1 "walletA" Scenario.subscribed).1 = None.
Proof.
  refine (proj1 (classifier_rejects_receipts Scenario.no_metadata _ 1 "walletA"
                   Scenario.subscribed _ _)).
  - apply (settings_valid_getUserSettings 1 new_WalletTracker).
    intros c s Hs. cbn in Hs. by rewrite lookup_empty in Hs.
  - vm_compute. discriminate.
Defined.

(** * Further properties of the signal aggregator *)

Lemma buyers_set_new k v (b : list (string * Q)) :
  buyers_get k b = None → buyers_set k v b = b ++ [(k, v)].
Proof.
  induction b as [|[k' v'] b IH]; cbn [buyers_get buyers_set]; [done|].
  destruct (decide (k' = k)); [done|]. intros H. by rewrite IH.
Qed.

Lemma buyers_set_values_le k v prev (b : list (string * Q)) :
  buyers_get k b = Some prev → (prev <= v)%Q →
  Forall2 Qle b.*2 (buyers_set k v b).*2.
Proof.
  induction b as [|[k' v'] b IH]; cbn [buyers_get buyers_set]; [done|].
  destruct (decide (k' = k)) as [->|Hne].
  - intros [= ->] Hle. cbn [fmap list_fmap snd]. constructor; [done|].
    apply Forall2_same_length_lookup. split; [done|].
    intros i x y Hx Hy. assert (x = y) as -> by congruence. apply Qle_refl.
  - intros Hk Hle. cbn [fmap list_fmap snd]. constructor; [apply Qle_refl|].
    by apply IH.
Qed.

Lemma foldl_add_mono (l l' : list Q) (acc acc' : Q) :
  (acc <= acc')%Q → Forall2 Qle l l' →
  (foldl (λ sum amount, Double.add sum amount) acc l
   <= foldl (λ sum amount, Double.add sum amount) acc' l')%Q.
Proof.
  intros Hacc Hl. revert acc acc' Hacc.
  induction Hl as [|x y l l' Hxy Hl IH]; intros acc acc' Hacc; [done|].
  cbn [foldl]. apply IH. by apply add_mono.
Qed.

(** A total is a number of the program. *)
Lemma total_spent_is_double (b : list (string * Q)) :
  (Double.round (total_spent b) == total_spent b)%Q.
Proof.
  unfold total_spent.
  induction b as [|[k v] b _] using rev_ind; [done|].
  rewrite fmap_app. cbn [fmap list_fmap snd]. rewrite foldl_snoc.
  apply round_idem.
Qed.

(** X22. A buy is added to the buyer's running total.  After the update of
    a window for a wallet, the wallet's entry is the sum of its previous
    total (zero when it had none) and the amount, every other wallet's
    entry is as before, the number of buyers grows by one exactly when the
    wallet is new, the keys stay pairwise distinct if they were, and neither
    time stamp of the window is touched.  The total over the window, summed
    as the program sums it, is the sum of the old total and the amount when
    the wallet is new, and for a window of numbers of the program it does
    not shrink when the amount is not negative. *)
Theorem record_buy_accumulates (walletAddress : string) (solAmount : Q)
    (txData : window) :
  let txData' := record_buy walletAddress solAmount txData in
  let previous := buyers_get walletAddress (buyers txData) in
  buyers_get walletAddress (buyers txData')
  = Some (Double.add (or_zero previous) solAmount)
  ∧ (∀ other, other ≠ walletAddress →
       buyers_get other (buyers txData') = buyers_get other (buyers txData))
  ∧ length (buyers txData')
    = match previous with
      | Some _ => length (buyers txData)
      | None => S (length (buyers txData))
      end
  ∧ (previous = None →
     total_spent (buyers txData')
     = Double.add (total_spent (buyers txData)) (Double.add 0 solAmount))
  ∧ (Forall (λ entry, Double.round entry.2 == entry.2)%Q (buyers txData) →
     (0 <= solAmount)%Q →
     (total_spent (buyers txData) <= total_spent (buyers txData'))%Q)
  ∧ (NoDup (buyers txData).*1 → NoDup (buyers txData').*1)
  ∧ timestamp txData' = timestamp txData
  ∧ firstSeen txData' = firstSeen txData.
Proof.
  intros txData' previous. subst txData' previous.
  unfold record_buy. cbn [buyers timestamp firstSeen].
  split_and!; try done.
  - apply buyers_get_set.
  - intros other Hne. by apply buyers_get_set_ne.
  - rewrite <- (length_fmap fst (buyers_set _ _ _)), buyers_set_keys.
    destruct (buyers_get _ _).
    + by rewrite length_fmap.
    + rewrite length_app, length_fmap. cbn. lia.
  - intros E. rewrite E, buyers_set_new by done. cbn [or_zero].
    unfold total_spent. rewrite fmap_app. cbn [fmap list_fmap snd].
    by rewrite foldl_snoc.
  - intros Hdbl Hpos.
    destruct (buyers_get walletAddress (buyers txData)) as [prev|] eqn:E.
    + unfold total_spent. apply foldl_add_mono; [apply Qle_refl|].
      apply (buyers_set_values_le _ _ prev); [done|]. cbn [or_zero].
      assert (Hp : (Double.round prev == prev)%Q).
      { clear -E Hdbl. induction (buyers txData) as [|[k v] b IH]; [done|].
        apply Forall_cons in Hdbl as [Hv Hb]. cbn [buyers_get] in E.
        destruct (decide (k = walletAddress)); [|by apply IH].
        by injection E as <-. }
      rewrite <- Hp at 1. apply round_mono. lra.
    + rewrite buyers_set_new by done. cbn [or_zero].
      unfold total_spent. rewrite fmap_app. cbn [fmap list_fmap snd].
      rewrite foldl_snoc.
      change (foldl _ 0%Q (list_fmap _ _ snd (buyers txData)))
        with (total_spent (buyers txData)).
      rewrite <- (total_spent_is_double (buyers txData)) at 1.
      apply round_mono.
      assert (0 <= Double.add 0 solAmount)%Q by (apply round_nonneg; lra).
      unfold total_spent. lra.
  - intros Hnd. rewrite buyers_set_keys.
    destruct (buyers_get walletAddress (buyers txData)) eqn:E; [done|].
    apply NoDup_app. split_and!; [done| |apply NoDup_singleton].
    intros k Hk ->%list_elem_of_singleton.
    by apply buyers_get_None in E.
Qed.

Lemma sweep_lookup_ne_insert now (m : gmap string window) key k d :
  k ≠ key → sweep now (<[key := d]> m) !! k = sweep now m !! k.
Proof.
  intros Hne. unfold sweep. by rewrite !map_lookup_filter, lookup_insert_ne.
Qed.

Lemma sweep_lookup_ne_delete now (m : gmap string window) key k :
  k ≠ key → sweep now (delete key m) !! k = sweep now m !! k.
Proof.
  intros Hne. unfold sweep. by rewrite !map_lookup_filter, lookup_delete_ne.
Qed.

(** X23. After a signal is ingested no window is older than the hour: every
    window left in the store was stamped at most 3,600,000 ms before the
    sweep, and the windows of other keys are those of the store before,
    swept.  A signal changes at most the window of its own key. *)
Theorem processTransaction_leaves_no_stale_window
    (getTokenMetadata : string → token_metadata) (sig : string) (chatId : Z)
    (walletAddress : string) (tx : option transaction) (info : token_info)
    (now_insert now_sweep : Z) (t : tracker) (s : settings) :
  userSettings t !! chatId = Some s →
  let t' := (processTransaction getTokenMetadata sig chatId walletAddress tx
               (Some info) now_insert now_sweep t).2 in
  (∀ k d, recentTransactions t' !! k = Some d →
     (now_sweep - timestamp d ≤ 3600000)%Z)
  ∧ (∀ k, k ≠ key_of chatId (tokenAddress info) →
       recentTransactions t' !! k = sweep now_sweep (recentTransactions t) !! k).
Proof.
  intros Hs t'. subst t'.
  rewrite (processTransaction_signal _ _ _ _ _ _ _ _ _ _ Hs).
  destruct (alert_due _ _); cbn [snd recentTransactions set_recentTransactions emit].
  - split.
    + intros k d H. by apply sweep_lookup in H as [_ H].
    + intros k Hne. by apply sweep_lookup_ne_delete.
  - split.
    + intros k d H. by apply sweep_lookup in H as [_ H].
    + intros k Hne. by apply sweep_lookup_ne_insert.
Qed.

Lemma processTransaction_leaves_no_stale_window_witness :
  let t' := (processTransaction Scenario.no_metadata "sig1" 1 "walletA" None
               (Some (Scenario.signal "mintX" (3 # 10))) 1700000000000
               1700003600001 Scenario.subscribed).2 in
  (∀ k d, recentTransactions t' !! k = Some d →
     (1700003600001 - timestamp d ≤ 3600000)%Z)
  ∧ (∀ k, k ≠ key_of 1 (tokenAddress (Scenario.signal "mintX" (3 # 10))) →
       recentTransactions t' !! k
       = sweep 1700003600001 (recentTransactions Scenario.subscribed) !! k).
Proof.
  apply (processTransaction_leaves_no_stale_window Scenario.no_metadata "sig1" 1
           "walletA" None (Scenario.signal "mintX" (3 # 10)) 1700000000000
           1700003600001 Scenario.subscribed Scenario.settings1).
  vm_compute. reflexivity.
Defined.

Lemma processTransaction_lone (getTokenMetadata : string → token_metadata)
    sig chatId w tx info now_insert now_sweep (t : tracker) s :
  userSettings t !! chatId = Some s →
  (2 ≤ requiredWallets s)%Z →
  map_Forall (λ _ d, ∃ v, buyers d = [(w, v)]) (recentTransactions t) →
  let t' := (processTransaction getTokenMetadata sig chatId w tx (Some info)
               now_insert now_sweep t).2 in
  trace t' = trace t
  ∧ userSettings t' = userSettings t
  ∧ map_Forall (λ _ d, ∃ v, buyers d = [(w, v)]) (recentTransactions t').
Proof.
  intros Hs Hq Hall t'. subst t'.
  rewrite (processTransaction_signal _ _ _ _ _ _ _ _ _ _ Hs).
  set (key := key_of chatId (tokenAddress info)).
  set (txData := record_buy _ _ _).
  assert (Hone : ∃ v, buyers txData = [(w, v)]).
  { subst txData. unfold record_buy. cbn [buyers].
    destruct (recentTransactions t !! key) as [d|] eqn:E; cbn.
    - destruct (Hall key d E) as [v ->]. cbn. rewrite decide_True by done.
      by eexists.
    - by eexists. }
  assert (Hno : alert_due s txData = false).
  { apply not_true_is_false. intros [H _]%alert_due_iff.
    destruct Hone as [v Hv]. rewrite Hv in H. cbn in H. lia. }
  rewrite Hno. cbn [snd trace userSettings recentTransactions set_recentTransactions].
  split_and!; try done.
  intros k d [Hk _]%sweep_lookup.
  destruct (decide (k = key)) as [->|Hne].
  - rewrite lookup_insert_eq in Hk. by injection Hk as <-.
  - rewrite lookup_insert_ne in Hk by done. by eapply Hall.
Qed.

(** X24. One wallet alone never raises an alert.  For a subscriber whose
    quorum is at least two, and a store in which every window has that one
    wallet as its only buyer (the empty store, for one), any sequence of
    buy signals of the wallet, for whatever tokens and amounts and at
    whatever times, hands off no alert, and the store stays of that shape:
    the quorum is never reached. *)
Theorem lone_wallet_never_alerts
    (getTokenMetadata : string → token_metadata) (chatId : Z)
    (walletAddress : string) (s : settings)
    (buys : list (string * token_info * (Z * Z))) (t : tracker) :
  userSettings t !! chatId = Some s →
  (2 ≤ requiredWallets s)%Z →
  map_Forall (λ _ d, ∃ v, buyers d = [(walletAddress, v)]) (recentTransactions t) →
  let t' := (forM_ buys (λ b,
               processTransaction getTokenMetadata b.1.1 chatId walletAddress None
                 (Some b.1.2) b.2.1 b.2.2) t).2 in
  trace t' = trace t
  ∧ map_Forall (λ _ d, ∃ v, buyers d = [(walletAddress, v)]) (recentTransactions t').
Proof.
  revert t. induction buys as [|b buys IH]; intros t Hs Hq Hall; [done|].
  cbv zeta. rewrite forM_cons.
  destruct (processTransaction_lone getTokenMetadata b.1.1 chatId walletAddress
              None b.1.2 b.2.1 b.2.2 t s Hs Hq Hall) as (Htr & Hus & Hall').
  rewrite <- Hus in Hs.
  destruct (IH _ Hs Hq Hall') as [Htr' Hall''].
  split; [|exact Hall'']. by rewrite Htr', Htr.
Qed.

Lemma lone_wallet_never_alerts_witness :
  let buys := [ ("sig1", Scenario.signal "mintX" 5, (1700000000000, 1700000000001)%Z);
                ("sig2", Scenario.signal "mintX" 7, (1700000060000, 1700000060001)%Z);
                ("sig3", Scenario.signal "mintY" 9, (1700000120000, 1700000120001)%Z) ] in
  let t' := (forM_ buys (λ b,
               processTransaction Scenario.no_metadata b.1.1 1 "walletA" None
                 (Some b.1.2) b.2.1 b.2.2) Scenario.subscribed).2 in
  trace t' = trace Scenario.subscribed
  ∧ map_Forall (λ _ d, ∃ v, buyers d = [("walletA", v)]) (recentTransactions t').
Proof.
  intros buys.
  apply (lone_wallet_never_alerts Scenario.no_metadata 1 "walletA"
           Scenario.settings1 buys Scenario.subscribed).
  - vm_compute. reflexivity.
  - vm_compute. discriminate.
  - apply map_Forall_empty.
Defined.

(** * Properties of the token metadata lookup *)

Lemma fetch_metadata_cases callCallStaticAPI tokenAddress now_store tokenCache :
  (Enrichment.usable (callCallStaticAPI tokenAddress)
   ∧ ∃ tokenData,
       Enrichment.fetch_metadata callCallStaticAPI tokenAddress now_store tokenCache
       = (tokenData,
          <[tokenAddress := {| Enrichment.data := tokenData;
                               Enrichment.timestamp := now_store |}]> tokenCache)
       ∧ Enrichment.symbol tokenData ≠ "" ∧ Enrichment.name tokenData ≠ "")
  ∨ (¬ Enrichment.usable (callCallStaticAPI tokenAddress)
     ∧ Enrichment.fetch_metadata callCallStaticAPI tokenAddress now_store tokenCache
       = (Enrichment.basic_info, tokenCache)).
Proof.
  unfold Enrichment.fetch_metadata, Enrichment.usable.
  destruct (callCallStaticAPI tokenAddress) as [|[[[] [d|]]|]];
    try (right; split; [by intros (? & ? & ? & ?)|done]).
  destruct (Enrichment.rd_deploy_timestamp d) as [time|] eqn:E.
  - left. split; [by exists d, time|]. eexists. split; [done|].
    cbn. split.
    + by destruct (Enrichment.rd_symbol d) as [[|]|].
    + by destruct (Enrichment.rd_name d) as [[|]|].
  - right. split; [|done]. intros (d' & time & [= <-] & H). congruence.
Qed.

Lemma getTokenMetadata_not_served callCallStaticAPI tokenAddress now_check
    now_store tokenCache :
  ¬ Enrichment.served_from_cache tokenAddress now_check tokenCache →
  Enrichment.getTokenMetadata callCallStaticAPI tokenAddress now_check now_store
    tokenCache
  = Enrichment.fetch_metadata callCallStaticAPI tokenAddress now_store tokenCache.
Proof.
  intros Hn. unfold Enrichment.getTokenMetadata.
  destruct (tokenCache !! tokenAddress) as [c|] eqn:E; [|done].
  destruct (Z.ltb_spec (now_check - Enrichment.timestamp c) (10 * 60 * 1000));
    [|done].
  exfalso. apply Hn. exists c. split; [done|lia].
Qed.

(** X25. A metadata answer is reused for ten minutes.  When a lookup is not
    answered from the cache and the service gives a usable answer, the
    result is cached under the token address with the time of storing, and
    every lookup of that address whose cache check happens less than
    600,000 ms after that time returns the same data and leaves the cache
    as it is, whatever the service would answer then: it is not consulted. *)
Theorem getTokenMetadata_reuses_answer
    (callCallStaticAPI later_api : string → Enrichment.api_outcome)
    (tokenAddress : string) (now_check now_store later_check later_store : Z)
    (tokenCache : gmap string Enrichment.cached) :
  ¬ Enrichment.served_from_cache tokenAddress now_check tokenCache →
  Enrichment.usable (callCallStaticAPI tokenAddress) →
  (later_check - now_store < 600000)%Z →
  let first := Enrichment.getTokenMetadata callCallStaticAPI tokenAddress
                 now_check now_store tokenCache in
  first.2 !! tokenAddress
  = Some {| Enrichment.data := first.1; Enrichment.timestamp := now_store |}
  ∧ Enrichment.getTokenMetadata later_api tokenAddress later_check later_store
      first.2
    = first.
Proof.
  intros Hn Hu Hlt first. subst first.
  rewrite getTokenMetadata_not_served by done.
  destruct (fetch_metadata_cases callCallStaticAPI tokenAddress now_store tokenCache)
    as [(_ & td & -> & _) | [Hnu _]]; [|done].
  cbn [fst snd]. split; [by rewrite lookup_insert_eq|].
  unfold Enrichment.getTokenMetadata. rewrite lookup_insert_eq.
  cbn [Enrichment.timestamp Enrichment.data].
  destruct (Z.ltb_spec (later_check - now_store) (10 * 60 * 1000)); [done|lia].
Qed.

Lemma getTokenMetadata_reuses_answer_witness :
  let first := Enrichment.getTokenMetadata Enrichment.one_token "mintX"
                 1700000000000 1700000000250 ∅ in
  first.2 !! "mintX"
  = Some {| Enrichment.data := first.1; Enrichment.timestamp := 1700000000250 |}
  ∧ Enrichment.getTokenMetadata (λ _, Enrichment.ApiThrew) "mintX"
      1700000600249 1700000600300 first.2
    = first.
Proof.
  apply (getTokenMetadata_reuses_answer Enrichment.one_token
           (λ _, Enrichment.ApiThrew) "mintX" 1700000000000 1700000000250
           1700000600249 1700000600300 ∅).
  - intros (c & H & _). by rewrite lookup_empty in H.
  - eexists _, _. split; reflexivity.
  - lia.
Defined.

(** X26. A failed lookup is not cached and an expired entry is never a
    fallback.  When a lookup is not answered from the cache and the service
    throws, resolves to [null], reports no success, sends no data or sends
    an invalid deploy date, the result is the placeholder pair
    [Unknown]/[Unknown] and the cache is unchanged, also when it still
    holds older data for the address. *)
Theorem getTokenMetadata_failure_not_cached
    (callCallStaticAPI : string → Enrichment.api_outcome)
    (tokenAddress : string) (now_check now_store : Z)
    (tokenCache : gmap string Enrichment.cached) :
  ¬ Enrichment.served_from_cache tokenAddress now_check tokenCache →
  ¬ Enrichment.usable (callCallStaticAPI tokenAddress) →
  Enrichment.getTokenMetadata callCallStaticAPI tokenAddress now_check now_store
    tokenCache
  = (Enrichment.basic_info, tokenCache).
Proof.
  intros Hn Hnu. rewrite getTokenMetadata_not_served by done.
  by destruct (fetch_metadata_cases callCallStaticAPI tokenAddress now_store
                 tokenCache) as [[Hu _] | [_ ->]].
Qed.

Lemma getTokenMetadata_failure_not_cached_witness :
  let stale := (Enrichment.getTokenMetadata Enrichment.one_token "mintX"
                  1700000000000 1700000000250 ∅).2 in
  Enrichment.getTokenMetadata (λ _, Enrichment.ApiThrew) "mintX"
    1700000600250 1700000600300 stale
  = (Enrichment.basic_info, stale).
Proof.
  intros stale.
  apply (getTokenMetadata_failure_not_cached (λ _, Enrichment.ApiThrew) "mintX"
           1700000600250 1700000600300 stale).
  - intros (c & H & Hlt). vm_compute in H. injection H as <-.
    vm_compute in Hlt. discriminate.
  - intros (d & time & H & _). discriminate.
Defined.

(** X27. The lookup never answers with an empty symbol or name, and touches
    the cache at the looked-up address only.  While every cached symbol and
    name is non-empty (as in the empty cache of the constructor), the
    returned symbol and name are non-empty, the cache keeps that property,
    and the entries of all other addresses are unchanged. *)
Theorem getTokenMetadata_never_blank
    (callCallStaticAPI : string → Enrichment.api_outcome)
    (tokenAddress : string) (now_check now_store : Z)
    (tokenCache : gmap string Enrichment.cached) :
  Enrichment.cache_named tokenCache →
  let r := Enrichment.getTokenMetadata callCallStaticAPI tokenAddress now_check
             now_store tokenCache in
  Enrichment.symbol r.1 ≠ "" ∧ Enrichment.name r.1 ≠ ""
  ∧ Enrichment.cache_named r.2
  ∧ ∀ other, other ≠ tokenAddress → r.2 !! other = tokenCache !! other.
Proof.
  intros Hc r. subst r. unfold Enrichment.getTokenMetadata.
  assert (Hf : let r := Enrichment.fetch_metadata callCallStaticAPI tokenAddress
                          now_store tokenCache in
               Enrichment.symbol r.1 ≠ "" ∧ Enrichment.name r.1 ≠ ""
               ∧ Enrichment.cache_named r.2
               ∧ ∀ other, other ≠ tokenAddress → r.2 !! other = tokenCache !! other).
  { destruct (fetch_metadata_cases callCallStaticAPI tokenAddress now_store
                tokenCache) as [(_ & td & -> & Hs & Hn) | [_ ->]]; cbn.
    - split_and!; try done.
      + by apply map_Forall_insert_2.
      + intros other Hne. by rewrite lookup_insert_ne.
    - done. }
  destruct (tokenCache !! tokenAddress) as [c|] eqn:E; [|exact Hf].
  destruct (_ <? _)%Z; [|exact Hf].
  cbn. destruct (Hc _ _ E) as [Hs Hn]. done.
Qed.

Lemma getTokenMetadata_never_blank_witness :
  let r := Enrichment.getTokenMetadata Enrichment.one_token "mintX"
             1700000000000 1700000000250 ∅ in
  Enrichment.symbol r.1 ≠ "" ∧ Enrichment.name r.1 ≠ ""
  ∧ Enrichment.cache_named r.2
  ∧ ∀ other, other ≠ "mintX" → r.2 !! other = (∅ : gmap string Enrichment.cached) !! other.
Proof.
  apply (getTokenMetadata_never_blank Enrichment.one_token "mintX"
           1700000000000 1700000000250 ∅).
  apply map_Forall_empty.
Defined.
